(** * The bitcask key directory (c_src/bitcask_keydir.c), embedded in Rocq

    A shallow embedding of the page store, the scan iterator, the reader
    ([keydir_get]) and the writers ([keydir_put], [keydir_remove]) together
    with the per-file statistics hook ([update_fstats]).

    Conventions of the embedding:
    - C integers are [Z] with the wrap-around of their type written out
      ([u32], [u64], [to_int]);
    - memory is a list of blocks; block 0 is [keydir->buffer], every
      successful [mmap] adds a block of [PAGE_SIZE] bytes; a pointer is a
      block and an offset, and an access outside its block is a [Fault];
    - a struct field that the C code leaves uninitialised is [None];
    - a mutex is [Some held]; locking a held mutex from the single thread
      of the model is [Deadlock];
    - loops that the C code does not bound take a [fuel] argument. *)

From Stdlib Require Import ZArith List Lia Bool.
From stdpp Require Import base list gmap.

Local Open Scope Z_scope.

(** ** Outcomes of a C computation *)

Inductive fault :=
| Undefined   (* out-of-bounds access, NULL or uninitialised read, bad unlock *)
| Deadlock    (* the thread locks a mutex it already holds *)
| OutOfFuel.

Inductive res (A : Type) :=
| Ok (a : A)
| Fault (f : fault).
Arguments Ok {A} a.
Arguments Fault {A} f.

Definition bind {A B} (c : res A) (k : A -> res B) : res B :=
  match c with
  | Ok a => k a
  | Fault f => Fault f
  end.

Notation "'let*' x := c 'in' k" := (bind c (fun x => k))
  (at level 10, x name, c at level 200, k at level 200).
Notation "'let*' ' pat := c 'in' k" :=
  (bind c (fun x => match x with pat => k end))
  (at level 10, pat pattern, c at level 200, k at level 200).

(** Reading a possibly uninitialised field. *)
Definition rd {A} (o : option A) : res A :=
  match o with
  | Some a => Ok a
  | None => Fault Undefined
  end.

(** ** Machine integers *)

Definition u32 (x : Z) : Z := x mod 2 ^ 32.
Definition u64 (x : Z) : Z := x mod 2 ^ 64.

(** Conversion of a 32-bit pattern to [int]. *)
Definition to_int (x : Z) : Z :=
  let y := u32 x in if y <? 2 ^ 31 then y else y - 2 ^ 32.

(** ** Constants *)

Definition ENTRY_FILE_ID_OFFSET : Z := 0.
Definition ENTRY_TOTAL_SIZE_OFFSET : Z := 4.
Definition ENTRY_EPOCH_OFFSET : Z := 8.
Definition ENTRY_OFFSET_OFFSET : Z := 16.
Definition ENTRY_TIMESTAMP_OFFSET : Z := 24.
Definition ENTRY_NEXT_OFFSET : Z := 28.
Definition ENTRY_KEY_SIZE_OFFSET : Z := 32.
Definition ENTRY_KEY_OFFSET : Z := 36.

Definition PAGE_SIZE : Z := 4096.

(** Modelled from the spec: the header bitcask_keydir.h is not part of the
    sources. The spec calls [MAX_PAGE_IDX] the sentinel index, [MAX_EPOCH]
    the value of [min_epoch] when no snapshot is pinned, [MAX_OFFSET] the
    tombstone offset and [MAX_FILE_ID] the tombstone file id; each is taken
    as the largest value of the C type of the field that holds it. *)
Definition MAX_PAGE_IDX : Z := 2 ^ 32 - 1.
Definition MAX_FILE_ID : Z := 2 ^ 32 - 1.
Definition MAX_EPOCH : Z := 2 ^ 64 - 1.
Definition MAX_OFFSET : Z := 2 ^ 64 - 1.

Definition ENOMEM : Z := 12.
Definition ENAMETOOLONG : Z := 36.
Definition KEYDIR_INIT_PATH_BUFFER_LENGTH : Z := 1024.

(** ** Memory *)

Record ptr := mk_ptr { blk : nat; pofs : Z }.

Definition ptr_add (p : ptr) (d : Z) : ptr := mk_ptr (blk p) (pofs p + d).

(** A byte of memory; [None] is a byte that was never written (the
    content of a fresh [malloc]). *)
Definition cell := option Z.
Definition memory := list (list cell).

Definition nthZ {A} (l : list A) (i : Z) : option A :=
  if i <? 0 then None else l !! Z.to_nat i.

Definition load_cells (m : memory) (p : ptr) (n : Z) : res (list cell) :=
  match m !! blk p with
  | Some b =>
      if (0 <=? pofs p) && (0 <=? n) && (pofs p + n <=? Z.of_nat (length b))
      then Ok (take (Z.to_nat n) (drop (Z.to_nat (pofs p)) b))
      else Fault Undefined
  | None => Fault Undefined
  end.

Definition store_cells (m : memory) (p : ptr) (cs : list cell) : res memory :=
  match m !! blk p with
  | Some b =>
      if (0 <=? pofs p) && (pofs p + Z.of_nat (length cs) <=? Z.of_nat (length b))
      then Ok (<[blk p := take (Z.to_nat (pofs p)) b ++ cs
                          ++ drop (Z.to_nat (pofs p) + length cs) b]> m)
      else Fault Undefined
  | None => Fault Undefined
  end.

Fixpoint all_written (cs : list cell) : option (list Z) :=
  match cs with
  | [] => Some []
  | Some v :: r =>
      match all_written r with
      | Some vs => Some (v :: vs)
      | None => None
      end
  | None :: _ => None
  end.

Definition load_bytes (m : memory) (p : ptr) (n : Z) : res (list Z) :=
  let* cs := load_cells m p n in rd (all_written cs).

Definition store_bytes (m : memory) (p : ptr) (bs : list Z) : res memory :=
  store_cells m p (map Some bs).

(** The cell of block [b] at index [i], when the block has one. *)
Definition heap_cell (m : memory) (b : nat) (i : Z) : option cell :=
  match m !! b with
  | Some bl => nthZ bl i
  | None => None
  end.

(** Native (little-endian) layout of an integer of [n] bytes. *)
Fixpoint le_encode (n : nat) (v : Z) : list Z :=
  match n with
  | O => []
  | S n' => (v mod 256) :: le_encode n' (v / 256)
  end.

Fixpoint le_decode (bs : list Z) : Z :=
  match bs with
  | [] => 0
  | b :: r => b + 256 * le_decode r
  end.

(** ** Mutexes (ErlNifMutex) *)

Definition mutex_lock (m : option bool) : res (option bool) :=
  match m with
  | Some false => Ok (Some true)
  | Some true => Fault Deadlock
  | None => Fault Undefined
  end.

Definition mutex_unlock (m : option bool) : res (option bool) :=
  match m with
  | Some true => Ok (Some false)
  | _ => Fault Undefined
  end.

(** [enif_mutex_trylock]: the second component is 0 when the lock was taken. *)
Definition mutex_trylock (m : option bool) : res (option bool * Z) :=
  match m with
  | Some false => Ok (Some true, 0)
  | Some true => Ok (Some true, 16)
  | None => Fault Undefined
  end.

(** ** Data model *)

(** [page_t]. The chain links [page_prev]/[page_next] hold indices of the
    unified page index space; [page_next_free] links the free lists. *)
Record page_t := mk_page {
  page_data : option ptr;
  page_mutex : option bool;
  page_prev : option Z;
  page_next : option Z;
  page_next_free : option Z;
  page_is_free : option Z
}.

Record mem_page_t := mk_mem_page {
  mp_page : page_t;
  mp_size : Z;
  mp_alt_idx : Z;
  mp_dead_bytes : Z;
  mp_is_borrowed : Z
}.

(** One swap array; the [next] pointer of the C struct is the tail of the
    list of arrays held by the keydir. *)
Record swap_array_t := mk_swap_array {
  sa_size : Z;
  sa_pages : list page_t
}.

(** Modelled from the spec: the struct is declared in the absent header;
    the fields are those [update_fstats] touches, the two key counters
    32 bits wide and the two byte counters 64 bits wide. *)
Record bitcask_fstats_entry := mk_fstats {
  fs_file_id : Z;
  fs_live_keys : Z;
  fs_total_keys : Z;
  fs_live_bytes : Z;
  fs_total_bytes : Z;
  fs_oldest_tstamp : Z;
  fs_newest_tstamp : Z;
  fs_expiration_epoch : Z
}.

Record bitcask_keydir := mk_keydir {
  kd_heap : memory;
  kd_mem_pages : list mem_page_t;
  kd_swap_pages : list swap_array_t;
  kd_num_pages : Z;
  kd_num_swap_pages : Z;
  kd_epoch : Z;
  kd_min_epoch : Z;
  kd_free_list_head : Z;
  kd_swap_free_list_head : option Z;
  kd_swap_grow_mutex : option bool;
  kd_swap_file_size : Z;
  kd_fstats : gmap Z bitcask_fstats_entry
}.

(** The entry handed to and returned by the public operations. *)
Record keydir_entry_t := mk_entry {
  e_file_id : Z;
  e_total_size : Z;
  e_epoch : Z;
  e_offset : Z;
  e_timestamp : Z;
  e_is_tombstone : bool;
  e_next : Z;
  e_key_size : Z;
  e_key : list Z
}.

(** A [page_t *]: a slot of [mem_pages] or a slot of a swap array. *)
Inductive page_ref :=
| MemPage (idx : Z)
| SwapPage (arr : nat) (slot : Z).

(** [page_info_t]; [pi_mem_page] is the index of the memory page or NULL,
    [pi_page_idx] is [None] until the code assigns it. *)
Record page_info_t := mk_page_info {
  pi_page : page_ref;
  pi_mem_page : option Z;
  pi_page_idx : option Z
}.

(** [scan_iter_t]; [num_pages] is the length of [it_pages]. *)
Record scan_iter_t := mk_iter {
  it_found : bool;
  it_offset : Z;
  it_pages : list page_info_t
}.

Definition it_num_pages (it : scan_iter_t) : Z := Z.of_nat (length (it_pages it)).

Inductive KeydirGetCode := KEYDIR_GET_FOUND | KEYDIR_GET_NOT_FOUND.
Inductive KeydirPutCode :=
  KEYDIR_PUT_OK | KEYDIR_PUT_MODIFIED | KEYDIR_PUT_OUT_OF_MEMORY.
Inductive WritePrepCode :=
  WRITE_PREP_OK | WRITE_PREP_RESTART | WRITE_PREP_NO_MEM.

(** The outcome of the system calls: [ftruncate] by new length, [mmap] by
    file offset, [open], and the [errno] a failed call leaves. [malloc] and
    [realloc] are taken to succeed. *)
Record env_t := mk_env {
  ftruncate_ok : Z -> bool;
  mmap_ok : Z -> bool;
  open_ok : bool;
  sys_errno : Z
}.

(** *** Field updates *)

Definition set_page_data (p : page_t) v :=
  mk_page v (page_mutex p) (page_prev p) (page_next p) (page_next_free p) (page_is_free p).
Definition set_page_mutex (p : page_t) v :=
  mk_page (page_data p) v (page_prev p) (page_next p) (page_next_free p) (page_is_free p).
Definition set_page_prev (p : page_t) v :=
  mk_page (page_data p) (page_mutex p) v (page_next p) (page_next_free p) (page_is_free p).
Definition set_page_next (p : page_t) v :=
  mk_page (page_data p) (page_mutex p) (page_prev p) v (page_next_free p) (page_is_free p).
Definition set_page_next_free (p : page_t) v :=
  mk_page (page_data p) (page_mutex p) (page_prev p) (page_next p) v (page_is_free p).
Definition set_page_is_free (p : page_t) v :=
  mk_page (page_data p) (page_mutex p) (page_prev p) (page_next p) (page_next_free p) v.

Definition set_mp_page (m : mem_page_t) v :=
  mk_mem_page v (mp_size m) (mp_alt_idx m) (mp_dead_bytes m) (mp_is_borrowed m).
Definition set_mp_size (m : mem_page_t) v :=
  mk_mem_page (mp_page m) v (mp_alt_idx m) (mp_dead_bytes m) (mp_is_borrowed m).
Definition set_mp_is_borrowed (m : mem_page_t) v :=
  mk_mem_page (mp_page m) (mp_size m) (mp_alt_idx m) (mp_dead_bytes m) v.

Definition set_heap (k : bitcask_keydir) v :=
  mk_keydir v (kd_mem_pages k) (kd_swap_pages k) (kd_num_pages k)
    (kd_num_swap_pages k) (kd_epoch k) (kd_min_epoch k) (kd_free_list_head k)
    (kd_swap_free_list_head k) (kd_swap_grow_mutex k) (kd_swap_file_size k)
    (kd_fstats k).
Definition set_mem_pages (k : bitcask_keydir) v :=
  mk_keydir (kd_heap k) v (kd_swap_pages k) (kd_num_pages k)
    (kd_num_swap_pages k) (kd_epoch k) (kd_min_epoch k) (kd_free_list_head k)
    (kd_swap_free_list_head k) (kd_swap_grow_mutex k) (kd_swap_file_size k)
    (kd_fstats k).
Definition set_swap_pages (k : bitcask_keydir) v :=
  mk_keydir (kd_heap k) (kd_mem_pages k) v (kd_num_pages k)
    (kd_num_swap_pages k) (kd_epoch k) (kd_min_epoch k) (kd_free_list_head k)
    (kd_swap_free_list_head k) (kd_swap_grow_mutex k) (kd_swap_file_size k)
    (kd_fstats k).
Definition set_num_swap_pages (k : bitcask_keydir) v :=
  mk_keydir (kd_heap k) (kd_mem_pages k) (kd_swap_pages k) (kd_num_pages k)
    v (kd_epoch k) (kd_min_epoch k) (kd_free_list_head k)
    (kd_swap_free_list_head k) (kd_swap_grow_mutex k) (kd_swap_file_size k)
    (kd_fstats k).
Definition set_epoch (k : bitcask_keydir) v :=
  mk_keydir (kd_heap k) (kd_mem_pages k) (kd_swap_pages k) (kd_num_pages k)
    (kd_num_swap_pages k) v (kd_min_epoch k) (kd_free_list_head k)
    (kd_swap_free_list_head k) (kd_swap_grow_mutex k) (kd_swap_file_size k)
    (kd_fstats k).
Definition set_min_epoch (k : bitcask_keydir) v :=
  mk_keydir (kd_heap k) (kd_mem_pages k) (kd_swap_pages k) (kd_num_pages k)
    (kd_num_swap_pages k) (kd_epoch k) v (kd_free_list_head k)
    (kd_swap_free_list_head k) (kd_swap_grow_mutex k) (kd_swap_file_size k)
    (kd_fstats k).
Definition set_free_list_head (k : bitcask_keydir) v :=
  mk_keydir (kd_heap k) (kd_mem_pages k) (kd_swap_pages k) (kd_num_pages k)
    (kd_num_swap_pages k) (kd_epoch k) (kd_min_epoch k) v
    (kd_swap_free_list_head k) (kd_swap_grow_mutex k) (kd_swap_file_size k)
    (kd_fstats k).
Definition set_swap_free_list_head (k : bitcask_keydir) v :=
  mk_keydir (kd_heap k) (kd_mem_pages k) (kd_swap_pages k) (kd_num_pages k)
    (kd_num_swap_pages k) (kd_epoch k) (kd_min_epoch k) (kd_free_list_head k)
    v (kd_swap_grow_mutex k) (kd_swap_file_size k) (kd_fstats k).
Definition set_swap_grow_mutex (k : bitcask_keydir) v :=
  mk_keydir (kd_heap k) (kd_mem_pages k) (kd_swap_pages k) (kd_num_pages k)
    (kd_num_swap_pages k) (kd_epoch k) (kd_min_epoch k) (kd_free_list_head k)
    (kd_swap_free_list_head k) v (kd_swap_file_size k) (kd_fstats k).
Definition set_swap_file_size (k : bitcask_keydir) v :=
  mk_keydir (kd_heap k) (kd_mem_pages k) (kd_swap_pages k) (kd_num_pages k)
    (kd_num_swap_pages k) (kd_epoch k) (kd_min_epoch k) (kd_free_list_head k)
    (kd_swap_free_list_head k) (kd_swap_grow_mutex k) v (kd_fstats k).

Definition set_it_found (it : scan_iter_t) v := mk_iter v (it_offset it) (it_pages it).
Definition set_it_offset (it : scan_iter_t) v := mk_iter (it_found it) v (it_pages it).
Definition set_it_pages (it : scan_iter_t) v := mk_iter (it_found it) (it_offset it) v.

Definition set_e_epoch (e : keydir_entry_t) v :=
  mk_entry (e_file_id e) (e_total_size e) v (e_offset e) (e_timestamp e)
    (e_is_tombstone e) (e_next e) (e_key_size e) (e_key e).
Definition set_e_next (e : keydir_entry_t) v :=
  mk_entry (e_file_id e) (e_total_size e) (e_epoch e) (e_offset e) (e_timestamp e)
    (e_is_tombstone e) v (e_key_size e) (e_key e).

(** *** Pages by reference *)

Definition read_mem_page (k : bitcask_keydir) (i : Z) : res mem_page_t :=
  rd (nthZ (kd_mem_pages k) i).

Definition write_mem_page (k : bitcask_keydir) (i : Z) (m : mem_page_t)
  : res bitcask_keydir :=
  match nthZ (kd_mem_pages k) i with
  | Some _ => Ok (set_mem_pages k (<[Z.to_nat i := m]> (kd_mem_pages k)))
  | None => Fault Undefined
  end.

Definition read_page (k : bitcask_keydir) (r : page_ref) : res page_t :=
  match r with
  | MemPage i => let* m := read_mem_page k i in Ok (mp_page m)
  | SwapPage a s =>
      let* arr := rd (kd_swap_pages k !! a) in rd (nthZ (sa_pages arr) s)
  end.

Definition write_page (k : bitcask_keydir) (r : page_ref) (p : page_t)
  : res bitcask_keydir :=
  match r with
  | MemPage i => let* m := read_mem_page k i in write_mem_page k i (set_mp_page m p)
  | SwapPage a s =>
      let* arr := rd (kd_swap_pages k !! a) in
      match nthZ (sa_pages arr) s with
      | Some _ =>
          Ok (set_swap_pages k
                (<[a := mk_swap_array (sa_size arr)
                          (<[Z.to_nat s := p]> (sa_pages arr))]> (kd_swap_pages k)))
      | None => Fault Undefined
      end
  end.

Definition lock_page (k : bitcask_keydir) (r : page_ref) : res bitcask_keydir :=
  let* p := read_page k r in
  let* m := mutex_lock (page_mutex p) in
  write_page k r (set_page_mutex p m).

Definition unlock_page (k : bitcask_keydir) (r : page_ref) : res bitcask_keydir :=
  let* p := read_page k r in
  let* m := mutex_unlock (page_mutex p) in
  write_page k r (set_page_mutex p m).

Definition page_ref_eqb (a b : page_ref) : bool :=
  match a, b with
  | MemPage i, MemPage j => i =? j
  | SwapPage x i, SwapPage y j => Nat.eqb x y && (i =? j)
  | _, _ => false
  end.

Section Keydir.

(** The hash macro of the absent murmurhash.h (key, length, seed) and the
    behaviour of the operating system. *)
Variable MURMUR_HASH : list Z -> Z -> Z -> Z.
Variable env : env_t.

(** ** Construction *)

Definition uninit_page : page_t := mk_page None None None None None None.

(** The loop of [keydir_init_free_list]; [n] counts the remaining
    iterations of [while (--n)]. *)
Fixpoint init_free_list_loop (n : nat) (num_pages idx offset : Z)
    (k : bitcask_keydir) : res (bitcask_keydir * Z) :=
  match n with
  | O => Ok (k, idx)
  | S n' =>
      let next_idx := u32 (idx + 16) in
      let '(next_idx, offset) :=
        if num_pages <=? next_idx then (u32 (offset + 1), u32 (offset + 1))
        else (next_idx, offset) in
      let* m := read_mem_page k idx in
      let* k := write_mem_page k idx
                  (set_mp_page m (set_page_next_free (mp_page m) (Some next_idx))) in
      init_free_list_loop n' num_pages next_idx offset k
  end.

Definition keydir_init_free_list (k : bitcask_keydir) : res bitcask_keydir :=
  if kd_num_pages k =? 0 then Fault Undefined else
  let k := set_free_list_head k 0 in
  let* '(k, idx) :=
    init_free_list_loop (Z.to_nat (kd_num_pages k - 1)) (kd_num_pages k) 0 0 k in
  let* m := read_mem_page k idx in
  write_mem_page k idx
    (set_mp_page m (set_page_next_free (mp_page m) (Some MAX_PAGE_IDX))).

Definition init_mem_page (idx : Z) : mem_page_t :=
  mk_mem_page
    (mk_page (Some (mk_ptr 0 (u32 (PAGE_SIZE * idx)))) (Some false)
       (Some MAX_PAGE_IDX) (Some MAX_PAGE_IDX) (Some MAX_PAGE_IDX) (Some 1))
    0 MAX_PAGE_IDX 0 0.

Definition keydir_init_mem_pages (k : bitcask_keydir) : bitcask_keydir :=
  set_mem_pages k
    (map (fun i => init_mem_page (Z.of_nat i)) (seq 0 (Z.to_nat (kd_num_pages k)))).

(** [keydir_common_init]: the errno code and, when it is 0, the keydir.
    [basedir_len] is [strlen(basedir)]; [prior_swap_head] is the content of
    [keydir->swap_free_list_head] on entry, a field the function does not
    assign. The buffer and the first swap array come from [malloc] and are
    not written. *)
Definition keydir_common_init (basedir_len : Z)
    (num_pages initial_num_swap_pages : Z) (prior_swap_head : option Z)
  : Z * option bitcask_keydir :=
  let k :=
    mk_keydir
      [replicate (Z.to_nat (u32 (PAGE_SIZE * num_pages))) None]
      (replicate (Z.to_nat num_pages)
         (mk_mem_page uninit_page 0 0 0 0))
      [mk_swap_array initial_num_swap_pages
         (replicate (Z.to_nat initial_num_swap_pages) uninit_page)]
      num_pages initial_num_swap_pages 0 MAX_EPOCH 0 prior_swap_head
      (Some false) 0 ∅ in
  let k := keydir_init_mem_pages k in
  match keydir_init_free_list k with
  | Fault _ => (ENOMEM, None)
  | Ok k =>
      if KEYDIR_INIT_PATH_BUFFER_LENGTH <? basedir_len + 13 + 1
      then (ENAMETOOLONG, None)
      else if negb (open_ok env) then (sys_errno env, None)
      else
        let swap_file_size := u32 (initial_num_swap_pages * PAGE_SIZE) in
        if negb (ftruncate_ok env swap_file_size) then (sys_errno env, None)
        else (0, Some (set_swap_file_size k swap_file_size))
  end.

(** ** Per-file statistics *)

(** [mutex] is [None] for a NULL pointer and [Some held] otherwise. *)

Definition update_fstats (fstats : gmap Z bitcask_fstats_entry)
    (mutex : option bool)
    (file_id tstamp expiration_epoch : Z)
    (live_increment total_increment : Z)
    (live_bytes_increment total_bytes_increment : Z)
    (should_create : Z)
  : res (gmap Z bitcask_fstats_entry * option bool) :=
  let* mutex :=
    match mutex with
    | Some held => mutex_lock (Some held)
    | None => Ok None
    end in
  let unlock (fs : gmap Z bitcask_fstats_entry) :=
    match mutex with
    | Some held => let* m := mutex_unlock (Some held) in Ok (fs, m)
    | None => Ok (fs, None)
    end in
  let found :=
    match fstats !! file_id with
    | Some entry => Some entry
    | None =>
        if should_create =? 0 then None
        else Some (mk_fstats file_id 0 0 0 0 0 0 MAX_EPOCH)
    end in
  match found with
  | None => unlock fstats
  | Some entry =>
      let live_keys := u32 (fs_live_keys entry + live_increment) in
      let total_keys := u32 (fs_total_keys entry + total_increment) in
      let live_bytes := u64 (fs_live_bytes entry + live_bytes_increment) in
      let total_bytes := u64 (fs_total_bytes entry + total_bytes_increment) in
      let expiration :=
        if expiration_epoch <? fs_expiration_epoch entry
        then expiration_epoch else fs_expiration_epoch entry in
      let oldest :=
        if (negb (tstamp =? 0) && (tstamp <? fs_oldest_tstamp entry))
           || (fs_oldest_tstamp entry =? 0)
        then tstamp else fs_oldest_tstamp entry in
      let newest :=
        if (negb (tstamp =? 0) && (fs_newest_tstamp entry <? tstamp))
           || (fs_newest_tstamp entry =? 0)
        then tstamp else fs_newest_tstamp entry in
      unlock (<[file_id :=
                 mk_fstats (fs_file_id entry) live_keys total_keys live_bytes
                   total_bytes oldest newest expiration]> fstats)
  end.

(** ** Page lookup *)

Definition hash_key (key : list Z) (key_sz : Z) : Z :=
  to_int (MURMUR_HASH key key_sz 42).

(** [get_swap_page]: walks the swap arrays; running off the last array
    dereferences a NULL [next]. *)
Fixpoint get_swap_page (idx : Z) (swap_pages : list swap_array_t)
  : res (nat * Z) :=
  match swap_pages with
  | [] => Fault Undefined
  | a :: rest =>
      if idx <? sa_size a then Ok (O, idx)
      else
        let* '(n, i) := get_swap_page (u32 (idx - sa_size a)) rest in
        Ok (S n, i)
  end.

Definition swap_page_ref (k : bitcask_keydir) (idx : Z) : res page_ref :=
  let* '(a, i) := get_swap_page idx (kd_swap_pages k) in Ok (SwapPage a i).

Definition get_page (k : bitcask_keydir) (idx : Z) : res page_ref :=
  if idx <? kd_num_pages k then Ok (MemPage idx)
  else swap_page_ref k (u32 (idx - kd_num_pages k)).

(** ** Entry codec over the scan iterator *)

(** [scan_get_field]: the address of a field of the entry under the
    iterator. *)
Definition scan_get_field (k : bitcask_keydir) (iter : scan_iter_t)
    (field_offset : Z) : res ptr :=
  let chain_ofs := to_int (it_offset iter + field_offset) in
  let idx := Z.quot chain_ofs PAGE_SIZE in
  let ofs := Z.rem chain_ofs PAGE_SIZE in
  let* pi := rd (nthZ (it_pages iter) idx) in
  let* pg := read_page k (pi_page pi) in
  let* d := rd (page_data pg) in
  Ok (ptr_add d ofs).

Definition scan_get_uint32 k iter (offset : Z) : res Z :=
  let* p := scan_get_field k iter offset in
  let* bs := load_bytes (kd_heap k) p 4 in
  Ok (le_decode bs).

Definition scan_get_uint64 k iter (offset : Z) : res Z :=
  let* p := scan_get_field k iter offset in
  let* bs := load_bytes (kd_heap k) p 8 in
  Ok (le_decode bs).

Definition scan_get_epoch k iter := scan_get_uint64 k iter ENTRY_EPOCH_OFFSET.
Definition scan_get_file_id k iter := scan_get_uint32 k iter ENTRY_FILE_ID_OFFSET.
Definition scan_get_key_size k iter := scan_get_uint32 k iter ENTRY_KEY_SIZE_OFFSET.
Definition scan_get_timestamp k iter := scan_get_uint32 k iter ENTRY_TIMESTAMP_OFFSET.
Definition scan_get_total_size k iter := scan_get_uint32 k iter ENTRY_TOTAL_SIZE_OFFSET.
Definition scan_get_next k iter := scan_get_uint32 k iter ENTRY_NEXT_OFFSET.
Definition scan_get_offset k iter := scan_get_uint64 k iter ENTRY_OFFSET_OFFSET.

Definition scan_set_uint64 (k : bitcask_keydir) iter (offset val : Z)
  : res bitcask_keydir :=
  let* p := scan_get_field k iter offset in
  let* h := store_bytes (kd_heap k) p (le_encode 8 (u64 val)) in
  Ok (set_heap k h).

Definition scan_set_uint32 (k : bitcask_keydir) iter (offset val : Z)
  : res bitcask_keydir :=
  let* p := scan_get_field k iter offset in
  let* h := store_bytes (kd_heap k) p (le_encode 4 (u32 val)) in
  Ok (set_heap k h).

Definition scan_set_file_id k iter v := scan_set_uint32 k iter ENTRY_FILE_ID_OFFSET v.
Definition scan_set_total_size k iter v := scan_set_uint32 k iter ENTRY_TOTAL_SIZE_OFFSET v.
Definition scan_set_timestamp k iter v := scan_set_uint32 k iter ENTRY_TIMESTAMP_OFFSET v.
Definition scan_set_epoch k iter v := scan_set_uint64 k iter ENTRY_EPOCH_OFFSET v.
Definition scan_set_offset k iter v := scan_set_uint64 k iter ENTRY_OFFSET_OFFSET v.
Definition scan_set_next k iter v := scan_set_uint32 k iter ENTRY_NEXT_OFFSET v.
Definition scan_set_key_size k iter v := scan_set_uint32 k iter ENTRY_KEY_SIZE_OFFSET v.

(** [memcpy(dst, src + src_ofs, n)] from the caller's key buffer. *)
Definition memcpy_from_key (h : memory) (dst : ptr) (key : list Z)
    (src_ofs n : Z) : res memory :=
  if Z.of_nat (length key) <? src_ofs + n then Fault Undefined
  else store_bytes h dst (take (Z.to_nat n) (drop (Z.to_nat src_ofs) key)).

(** The [while (remainder > 0)] loop of [scan_set_key]. [dst] is the
    address computed before the loop: the loop advances [page_idx] and
    [src] only. *)
Fixpoint scan_set_key_loop (n : nat) (h : memory) (dst : ptr) (key : list Z)
    (src_ofs section_size remainder : Z) : res memory :=
  if remainder <=? 0 then Ok h else
  match n with
  | O => Fault OutOfFuel
  | S n' =>
      let src_ofs := src_ofs + section_size in
      let section_size := if PAGE_SIZE <? remainder then PAGE_SIZE else remainder in
      let* h := memcpy_from_key h dst key src_ofs section_size in
      scan_set_key_loop n' h dst key src_ofs section_size
        (u32 (remainder - section_size))
  end.

Definition scan_set_key (k : bitcask_keydir) (iter : scan_iter_t)
    (key : list Z) (key_size : Z) : res bitcask_keydir :=
  let key_offset := to_int (it_offset iter + ENTRY_KEY_OFFSET) in
  let page_idx := Z.quot key_offset PAGE_SIZE in
  let page_offset := Z.rem key_offset PAGE_SIZE in
  let space_in_page := PAGE_SIZE - page_offset in
  let section_size :=
    if key_size <? u32 space_in_page then key_size else u32 space_in_page in
  let remainder := key_size in
  let* pi := rd (nthZ (it_pages iter) page_idx) in
  let* pg := read_page k (pi_page pi) in
  let* d := rd (page_data pg) in
  let dst := ptr_add d page_offset in
  let* h := memcpy_from_key (kd_heap k) dst key 0 section_size in
  let remainder := u32 (remainder - section_size) in
  let* h := scan_set_key_loop (Z.to_nat (remainder / PAGE_SIZE) + 1) h dst key
              0 section_size remainder in
  Ok (set_heap k h).

(** ** Page allocator *)

(** [allocate_mem_page]: the index of the popped memory page, or NULL. *)
Fixpoint allocate_mem_page (fuel : nat) (k : bitcask_keydir)
  : res (bitcask_keydir * option Z) :=
  match fuel with
  | O => Fault OutOfFuel
  | S fuel' =>
      let first := kd_free_list_head k in
      if first =? MAX_PAGE_IDX then Ok (k, None)
      else
        let* mem_page := read_mem_page k first in
        let* next_free := rd (page_next_free (mp_page mem_page)) in
        let k := set_free_list_head k next_free in
        let* k := lock_page k (MemPage first) in
        let* mem_page := read_mem_page k first in
        let* is_free := rd (page_is_free (mp_page mem_page)) in
        if negb (is_free =? 0) then
          let* k := write_mem_page k first
                      (set_mp_page (set_mp_is_borrowed mem_page 1)
                         (set_page_is_free (mp_page mem_page) (Some 0))) in
          Ok (k, Some first)
        else
          let* k := unlock_page k (MemPage first) in
          allocate_mem_page fuel' k
  end.

(** The content of a page of the swap file mapped for the first time: the
    file was just extended over it. *)
Definition zero_page : list cell := replicate (Z.to_nat PAGE_SIZE) (Some 0).

(** The [for] loop of [expand_swap_file]: the pages mapped before the
    first failing [mmap], each with its fresh block. *)
Fixpoint mmap_loop (n : nat) (old_num_pages i page_offset : Z)
    (h : memory) : memory * list page_t :=
  match n with
  | O => (h, [])
  | S n' =>
      if mmap_ok env page_offset then
        let page :=
          mk_page (Some (mk_ptr (length h) 0)) (Some false) None None
            (Some (u32 (old_num_pages + i + 1))) None in
        let '(h', rest) :=
          mmap_loop n' old_num_pages (i + 1) (page_offset + PAGE_SIZE)
            (h ++ [zero_page]) in
        (h', page :: rest)
      else (h, [])
  end.

(** [expand_swap_file]: 0 on success. *)
Definition expand_swap_file (k : bitcask_keydir)
    (old_num_pages : Z) : res (bitcask_keydir * Z) :=
  let new_head_idx := old_num_pages in
  let* m := mutex_lock (kd_swap_grow_mutex k) in
  let k := set_swap_grow_mutex k m in
  let unlock (k : bitcask_keydir) (rc : Z) :=
    let* m := mutex_unlock (kd_swap_grow_mutex k) in
    Ok (set_swap_grow_mutex k m, rc) in
  if kd_num_swap_pages k =? old_num_pages then
    let new_num_pages := u32 (2 * old_num_pages) in
    let new_file_size := u32 (new_num_pages * PAGE_SIZE) in
    if negb (ftruncate_ok env new_file_size) then unlock k 1
    else
      let k := set_swap_file_size k new_file_size in
      match kd_swap_pages k with
      | [] => Fault Undefined
      | _ :: _ =>
          let page_offset := u32 (old_num_pages * PAGE_SIZE) in
          let '(h, pages) :=
            mmap_loop (Z.to_nat old_num_pages) old_num_pages 0 page_offset
              (kd_heap k) in
          let size := Z.of_nat (length pages) in
          if (0 <? old_num_pages) && (size =? 0) then unlock k 1
          else
            let k := set_heap k h in
            let k := set_num_swap_pages k (u32 (kd_num_swap_pages k + size)) in
            let old_head_idx := kd_swap_free_list_head k in
            let* last_page := rd (nthZ pages (u32 (size - 1))) in
            let pages :=
              <[Z.to_nat (u32 (size - 1)) := set_page_next last_page old_head_idx]>
                pages in
            let k := set_swap_pages k
                       (kd_swap_pages k ++ [mk_swap_array size pages]) in
            let k := set_swap_free_list_head k (Some new_head_idx) in
            unlock k 0
      end
  else unlock k 0.

(** [allocate_swap_page]: the page and the index stored in [*idx_out], or
    NULL. *)
Fixpoint allocate_swap_page (fuel : nat) (k : bitcask_keydir)
  : res (bitcask_keydir * option (page_ref * Z)) :=
  match fuel with
  | O => Fault OutOfFuel
  | S fuel' =>
      let num_pages := kd_num_swap_pages k in
      let* head_idx := rd (kd_swap_free_list_head k) in
      if head_idx =? MAX_PAGE_IDX then
        let* '(k, rc) := expand_swap_file k num_pages in
        if negb (rc =? 0) || (head_idx =? MAX_PAGE_IDX) then Ok (k, None)
        else allocate_swap_page fuel' k
      else
        let* head_page := swap_page_ref k head_idx in
        let* pg := read_page k head_page in
        let k := set_swap_free_list_head k (page_next_free pg) in
        let* k := lock_page k head_page in
        Ok (k, Some (head_page, head_idx))
  end.

Definition allocate_page (fuel : nat) (k : bitcask_keydir)
  : res (bitcask_keydir * option page_info_t) :=
  let* '(k, m) := allocate_mem_page fuel k in
  match m with
  | Some idx => Ok (k, Some (mk_page_info (MemPage idx) (Some idx) (Some idx)))
  | None =>
      let* '(k, s) := allocate_swap_page fuel k in
      match s with
      | Some (page, idx) => Ok (k, Some (mk_page_info page None (Some idx)))
      | None => Ok (k, None)
      end
  end.

(** ** Scan iterator *)

(** First loop of [extend_iter_chain]: follow the chain; the result
    carries what is left of [n]. *)
Fixpoint extend_iter_chain_walk (fuel : nat) (k : bitcask_keydir)
    (iter : scan_iter_t) (n : Z) : res (bitcask_keydir * scan_iter_t * Z) :=
  if n =? 0 then Ok (k, iter, 0) else
  match fuel with
  | O => Fault OutOfFuel
  | S fuel' =>
      let* last_info := rd (last (it_pages iter)) in
      let* pg := read_page k (pi_page last_info) in
      let* next := rd (page_next pg) in
      if next =? MAX_PAGE_IDX then Ok (k, iter, n)
      else
        let* '(page, mem_page) :=
          if next <? kd_num_pages k then Ok (MemPage next, Some next)
          else
            let* r := swap_page_ref k (u32 (next - kd_num_pages k)) in
            Ok (r, None) in
        let* k := lock_page k page in
        let iter :=
          set_it_pages iter (it_pages iter ++ [mk_page_info page mem_page None]) in
        extend_iter_chain_walk fuel' k iter (u32 (n - 1))
  end.

(** Second loop of [extend_iter_chain]: allocate and link new pages. *)
Fixpoint extend_iter_chain_grow (fuel : nat) (k : bitcask_keydir)
    (iter : scan_iter_t) (n : Z) : res (bitcask_keydir * scan_iter_t * Z) :=
  if n =? 0 then Ok (k, iter, 0) else
  match fuel with
  | O => Fault OutOfFuel
  | S fuel' =>
      let* '(k, a) := allocate_page fuel' k in
      match a with
      | None => Ok (k, iter, ENOMEM)
      | Some new_page =>
          let* prev_info := rd (last (it_pages iter)) in
          let iter := set_it_pages iter (it_pages iter ++ [new_page]) in
          let* idx := rd (pi_page_idx new_page) in
          let* ppg := read_page k (pi_page prev_info) in
          let* k := write_page k (pi_page prev_info) (set_page_next ppg (Some idx)) in
          let* npg := read_page k (pi_page new_page) in
          let* k := write_page k (pi_page new_page)
                      (set_page_next (set_page_prev npg (pi_page_idx prev_info))
                         (Some MAX_PAGE_IDX)) in
          extend_iter_chain_grow fuel' k iter (u32 (n - 1))
      end
  end.

Definition extend_iter_chain (fuel : nat) (k : bitcask_keydir)
    (iter : scan_iter_t) (n : Z) : res (bitcask_keydir * scan_iter_t * Z) :=
  let* '(k, iter, n) := extend_iter_chain_walk fuel k iter n in
  extend_iter_chain_grow fuel k iter n.

Definition lock_pages_to_scan_entry (fuel : nat) (k : bitcask_keydir) (iter : scan_iter_t)
  : res (bitcask_keydir * scan_iter_t * Z) :=
  let needed_pages := u32 (u32 (it_offset iter + ENTRY_KEY_OFFSET) / PAGE_SIZE + 1) in
  let* '(k, iter, rc) :=
    if it_num_pages iter <? needed_pages
    then extend_iter_chain fuel k iter (u32 (needed_pages - it_num_pages iter))
    else Ok (k, iter, 0) in
  if negb (rc =? 0) then Ok (k, iter, ENOMEM)
  else
    let* key_size := scan_get_key_size k iter in
    let needed_pages :=
      u32 (u32 (it_offset iter + ENTRY_KEY_OFFSET + key_size) / PAGE_SIZE + 1) in
    let* '(k, iter, rc) :=
      extend_iter_chain fuel k iter (u32 (needed_pages - it_num_pages iter)) in
    if negb (rc =? 0) then Ok (k, iter, ENOMEM) else Ok (k, iter, 0).

Definition init_scan_iterator (base_idx : Z) (first_page : page_ref)
    (first_mem_page : Z) : scan_iter_t :=
  mk_iter false 0 [mk_page_info first_page (Some first_mem_page) (Some base_idx)].

(** [strncmp(s1, s2, n)] with [s1] the caller's key buffer and [s2] in
    page memory: bytes are compared until they differ, until both hold a
    NUL, or until [n] bytes were compared. *)
Fixpoint strncmp (h : memory) (s1 : list Z) (s2 : ptr) (n : nat) : res Z :=
  match n with
  | O => Ok 0
  | S n' =>
      match s1 with
      | [] => Fault Undefined
      | a :: s1' =>
          let* bs := load_bytes h s2 1 in
          let b := le_decode bs in
          if a =? b then
            if a =? 0 then Ok 0 else strncmp h s1' (ptr_add s2 1) n'
          else Ok (a - b)
      end
  end.

(** The [for] loop of [scan_keys_equal]. The key pointer stays at the
    start of the key; [entry_key] moves to the next page after the body. *)
Fixpoint scan_keys_equal_loop (n : nat) (k : bitcask_keydir)
    (iter : scan_iter_t) (key : list Z) (entry_key : ptr)
    (page_idx len remaining : Z) : res Z :=
  if remaining <=? 0 then Ok 1 else
  match n with
  | O => Fault OutOfFuel
  | S n' =>
      let len := if remaining <? len then remaining else len in
      let* c := strncmp (kd_heap k) key entry_key (Z.to_nat len) in
      if negb (c =? 0) then Ok 0
      else
        let remaining := u32 (remaining - len) in
        let page_idx := u32 (page_idx + 1) in
        let* pi := rd (nthZ (it_pages iter) page_idx) in
        let* pg := read_page k (pi_page pi) in
        let* d := rd (page_data pg) in
        scan_keys_equal_loop n' k iter key d page_idx len remaining
  end.

(** [scan_keys_equal]: 1 when the key is taken to match the entry. *)
Definition scan_keys_equal (k : bitcask_keydir) (key : list Z) (key_size : Z)
    (iter : scan_iter_t) : res Z :=
  let offset := u32 (it_offset iter + ENTRY_KEY_OFFSET) in
  let page_offset := offset mod PAGE_SIZE in
  let page_idx := offset / PAGE_SIZE in
  let remaining := key_size in
  let len := PAGE_SIZE - page_offset in
  let* pi := rd (nthZ (it_pages iter) page_idx) in
  let* pg := read_page k (pi_page pi) in
  let* d := rd (page_data pg) in
  let entry_key := ptr_add d page_offset in
  let len := if remaining <? len then remaining else len in
  let* c := strncmp (kd_heap k) key entry_key (Z.to_nat len) in
  if negb (c =? 0) then Ok 0
  else
    let remaining := u32 (remaining - len) in
    scan_keys_equal_loop (Z.to_nat (remaining / PAGE_SIZE) + 1) k iter key
      entry_key page_idx PAGE_SIZE remaining.

(** The [while (next)] loop of [scan_to_epoch]. *)
Fixpoint scan_to_epoch_loop (fuel : nat) (k : bitcask_keydir)
    (iter : scan_iter_t) (epoch last_offset next : Z)
  : res (bitcask_keydir * scan_iter_t) :=
  if next =? 0 then Ok (k, iter) else
  match fuel with
  | O => Fault OutOfFuel
  | S fuel' =>
      let iter := set_it_offset iter next in
      let* '(k, iter, _) := lock_pages_to_scan_entry fuel' k iter in
      let* entry_epoch := scan_get_epoch k iter in
      if entry_epoch =? epoch then Ok (k, iter)
      else if epoch <? entry_epoch then Ok (k, set_it_offset iter last_offset)
      else
        let last_offset := it_offset iter in
        let* next := scan_get_next k iter in
        scan_to_epoch_loop fuel' k iter epoch last_offset next
  end.

Definition scan_to_epoch (fuel : nat) (k : bitcask_keydir)
    (iter : scan_iter_t) (epoch : Z) : res (bitcask_keydir * scan_iter_t) :=
  let* entry_epoch := scan_get_epoch k iter in
  if epoch <=? entry_epoch then Ok (k, set_it_found iter (entry_epoch =? epoch))
  else
    let iter := set_it_found iter true in
    let last_offset := it_offset iter in
    let* next := scan_get_next k iter in
    scan_to_epoch_loop fuel k iter epoch last_offset next.

Definition entry_size_for_key (key_size : Z) : Z :=
  let unpadded_size := u32 (ENTRY_KEY_OFFSET + key_size) in
  Z.land (u32 (unpadded_size + 7)) (2 ^ 32 - 8).

(** The [for (;;)] loop of [scan_pages]. *)
Fixpoint scan_pages_loop (fuel : nat) (k : bitcask_keydir)
    (key : list Z) (key_size epoch data_size : Z) (scan_iter : scan_iter_t)
  : res (bitcask_keydir * scan_iter_t) :=
  match fuel with
  | O => Fault OutOfFuel
  | S fuel' =>
      let* '(k, scan_iter, _) := lock_pages_to_scan_entry fuel' k scan_iter in
      let* eq := scan_keys_equal k key key_size scan_iter in
      if negb (eq =? 0) then
        let* entry_epoch := scan_get_epoch k scan_iter in
        if epoch <? entry_epoch then Ok (k, scan_iter)
        else scan_to_epoch fuel' k scan_iter epoch
      else
        let* ks := scan_get_key_size k scan_iter in
        let entry_size := entry_size_for_key ks in
        let scan_iter := set_it_offset scan_iter (u32 (it_offset scan_iter + entry_size)) in
        if data_size <=? it_offset scan_iter then Ok (k, scan_iter)
        else scan_pages_loop fuel' k key key_size epoch data_size scan_iter
  end.

Definition scan_pages (fuel : nat) (k : bitcask_keydir)
    (key : list Z) (key_size epoch : Z) (scan_iter : scan_iter_t)
  : res (bitcask_keydir * scan_iter_t) :=
  let* first := rd (head (it_pages scan_iter)) in
  let* mi := rd (pi_mem_page first) in
  let* base := read_mem_page k mi in
  let data_size := mp_size base in
  if data_size =? 0 then Ok (k, scan_iter)
  else scan_pages_loop fuel k key key_size epoch data_size scan_iter.

Definition scan_iter_to_entry (k : bitcask_keydir) (iter : scan_iter_t)
    (return_entry : keydir_entry_t) : res keydir_entry_t :=
  let* file_id := scan_get_file_id k iter in
  let* total_size := scan_get_total_size k iter in
  let* epoch := scan_get_epoch k iter in
  let* offset := scan_get_offset k iter in
  let* timestamp := scan_get_timestamp k iter in
  Ok (mk_entry file_id total_size epoch offset timestamp (offset =? MAX_OFFSET)
        (e_next return_entry) (e_key_size return_entry) (e_key return_entry)).

Fixpoint unlock_pages (k : bitcask_keydir) (pages : list page_info_t)
  : res bitcask_keydir :=
  match pages with
  | [] => Ok k
  | pi :: rest => let* k := unlock_page k (pi_page pi) in unlock_pages k rest
  end.

Definition free_scan_iter (k : bitcask_keydir) (iter : scan_iter_t)
  : res bitcask_keydir :=
  unlock_pages k (it_pages iter).

(** The part of [scan_for_key] that follows the computation of
    [base_idx]. *)
Definition scan_for_key_at (fuel : nat) (k : bitcask_keydir)
    (base_idx : Z) (key : list Z) (key_size epoch : Z)
  : res (bitcask_keydir * scan_iter_t) :=
  let* k := lock_page k (MemPage base_idx) in
  let* base_page := read_mem_page k base_idx in
  let* '(k, first_page) :=
    if mp_alt_idx base_page =? MAX_PAGE_IDX then Ok (k, MemPage base_idx)
    else
      let* first_page := swap_page_ref k (mp_alt_idx base_page) in
      let* k := lock_page k first_page in
      let* k := unlock_page k (MemPage base_idx) in
      Ok (k, first_page) in
  let scan_iter := init_scan_iterator base_idx first_page base_idx in
  scan_pages fuel k key key_size epoch scan_iter.

Definition scan_for_key (fuel : nat) (k : bitcask_keydir)
    (key : list Z) (key_size epoch : Z)
  : res (bitcask_keydir * scan_iter_t) :=
  if kd_num_pages k =? 0 then Fault Undefined
  else
    let base_idx := u32 (hash_key key key_size) mod kd_num_pages k in
    scan_for_key_at fuel k base_idx key key_size epoch.

Definition keydir_get (fuel : nat) (k : bitcask_keydir)
    (key : list Z) (key_size epoch : Z) (return_entry : keydir_entry_t)
  : res (bitcask_keydir * keydir_entry_t * KeydirGetCode) :=
  let* '(k, scan_iter) := scan_for_key fuel k key key_size epoch in
  let* return_entry :=
    if it_found scan_iter then scan_iter_to_entry k scan_iter return_entry
    else Ok return_entry in
  let* k := free_scan_iter k scan_iter in
  Ok (k, return_entry,
      if it_found scan_iter then KEYDIR_GET_FOUND else KEYDIR_GET_NOT_FOUND).

(** ** Writer path *)

Definition scan_is_first_in_memory (iter : scan_iter_t) : res bool :=
  let* first := rd (head (it_pages iter)) in
  let* mi := rd (pi_mem_page first) in
  Ok (page_ref_eqb (pi_page first) (MemPage mi)).

Definition reclaim_borrowed_page (fuel : nat) (k : bitcask_keydir) (base_idx : Z)
  : res (bitcask_keydir * WritePrepCode) :=
  let base := MemPage base_idx in
  let* bp := read_page k base in
  let* prev_idx := rd (page_prev bp) in
  let* borrowed_prev := get_page k prev_idx in
  let* pp := read_page k borrowed_prev in
  let* '(m, busy) := mutex_trylock (page_mutex pp) in
  let* k := write_page k borrowed_prev (set_page_mutex pp m) in
  let* '(k, restart) :=
    if negb (busy =? 0) then
      let* k := unlock_page k base in
      let* k := lock_page k borrowed_prev in
      let* pp := read_page k borrowed_prev in
      let* pn := rd (page_next pp) in
      if negb (pn =? base_idx) then
        let* k := unlock_page k borrowed_prev in Ok (k, true)
      else
        let* k := lock_page k base in Ok (k, false)
    else Ok (k, false) in
  if restart then Ok (k, WRITE_PREP_RESTART)
  else
    let* '(k, a) := allocate_page fuel k in
    match a with
    | None =>
        let* k := unlock_page k base in
        let* k := unlock_page k borrowed_prev in
        Ok (k, WRITE_PREP_NO_MEM)
    | Some replacement_page =>
        let* bp := read_page k base in
        let* base_next := rd (page_next bp) in
        let* '(k, borrowed_next) :=
          if negb (base_next =? MAX_PAGE_IDX) then
            let* bn := get_page k base_next in
            let* k := lock_page k bn in
            let* np := read_page k bn in
            let* k := write_page k bn
                        (set_page_prev np (pi_page_idx replacement_page)) in
            Ok (k, Some bn)
          else Ok (k, None) in
        let* rp := read_page k (pi_page replacement_page) in
        let* bp := read_page k base in
        let* dst := rd (page_data rp) in
        let* src := rd (page_data bp) in
        let* cs := load_cells (kd_heap k) src PAGE_SIZE in
        let* h := store_cells (kd_heap k) dst cs in
        let k := set_heap k h in
        let* k := write_page k (pi_page replacement_page)
                    (set_page_next (set_page_prev rp (page_prev bp)) (page_next bp)) in
        let* pp := read_page k borrowed_prev in
        let* k := write_page k borrowed_prev
                    (set_page_next pp (pi_page_idx replacement_page)) in
        let* k :=
          match borrowed_next with
          | Some bn => unlock_page k bn
          | None => Ok k
          end in
        let* k := unlock_page k (pi_page replacement_page) in
        let* k := unlock_page k borrowed_prev in
        Ok (k, WRITE_PREP_OK)
    end.

Definition write_prep (fuel : nat) (k : bitcask_keydir)
    (iter : scan_iter_t) (key_size : Z)
  : res (bitcask_keydir * scan_iter_t * WritePrepCode) :=
  let* first := rd (head (it_pages iter)) in
  let* base_idx := rd (pi_mem_page first) in
  let* base_page := read_mem_page k base_idx in
  let wanted_size := u32 (it_offset iter + entry_size_for_key key_size) in
  let wanted_pages := u32 (wanted_size + PAGE_SIZE - 1) / PAGE_SIZE in
  if wanted_size <? mp_size base_page then Ok (k, iter, WRITE_PREP_NO_MEM)
  else
    let* in_memory := scan_is_first_in_memory iter in
    let* k :=
      if in_memory then
        let* is_free := rd (page_is_free (mp_page base_page)) in
        if negb (is_free =? 0) then
          write_mem_page k base_idx
            (set_mp_page base_page
               (set_page_is_free (mp_page base_page) (Some 0)))
        else Ok k
      else Ok k in
    let* base_page := read_mem_page k base_idx in
    let* '(k, ret) :=
      if (mp_size base_page =? 0) && negb (mp_is_borrowed base_page =? 0)
      then reclaim_borrowed_page fuel k base_idx
      else Ok (k, WRITE_PREP_OK) in
    match ret with
    | WRITE_PREP_OK =>
        let* '(k, iter, rc) :=
          extend_iter_chain fuel k iter (u32 (wanted_pages - it_num_pages iter)) in
        if negb (rc =? 0) then Ok (k, iter, WRITE_PREP_NO_MEM)
        else
          let* base_page := read_mem_page k base_idx in
          let* k := write_mem_page k base_idx (set_mp_size base_page wanted_size) in
          Ok (k, iter, WRITE_PREP_OK)
    | _ => Ok (k, iter, ret)
    end.

Definition append_entry (k : bitcask_keydir) (iter : scan_iter_t)
    (entry : keydir_entry_t) : res bitcask_keydir :=
  let* k := scan_set_file_id k iter (e_file_id entry) in
  let* k := scan_set_total_size k iter (e_total_size entry) in
  let* k := scan_set_epoch k iter (e_epoch entry) in
  let* k := scan_set_offset k iter (e_offset entry) in
  let* k := scan_set_timestamp k iter (e_timestamp entry) in
  let* k := scan_set_next k iter (e_next entry) in
  let* k := scan_set_key_size k iter (e_key_size entry) in
  scan_set_key k iter (e_key entry) (e_key_size entry).

Definition append_version (k : bitcask_keydir) (iter : scan_iter_t)
    (entry : keydir_entry_t) : res bitcask_keydir :=
  let* k := scan_set_file_id k iter (e_file_id entry) in
  let* k := scan_set_offset k iter (e_offset entry) in
  let* k := scan_set_total_size k iter (e_total_size entry) in
  let* k := scan_set_timestamp k iter (e_timestamp entry) in
  let* k := scan_set_epoch k iter (e_epoch entry) in
  scan_set_key_size k iter 0.

Definition update_entry (k : bitcask_keydir) (iter : scan_iter_t)
    (entry : keydir_entry_t) : res bitcask_keydir :=
  let* k := scan_set_file_id k iter (e_file_id entry) in
  let* k := scan_set_offset k iter (e_offset entry) in
  let* k := scan_set_total_size k iter (e_total_size entry) in
  let* k := scan_set_timestamp k iter (e_timestamp entry) in
  scan_set_epoch k iter (e_epoch entry).

(** The conditional-write test shared by [keydir_put] and
    [keydir_remove]: [old_file_id && (file_id != old_file_id ||
    offset != old_offset)], evaluated left to right. *)
Definition entry_changed (k : bitcask_keydir) (iter : scan_iter_t)
    (old_file_id old_offset : Z) : res bool :=
  if old_file_id =? 0 then Ok false
  else
    let* file_id := scan_get_file_id k iter in
    if negb (file_id =? old_file_id) then Ok true
    else
      let* offset := scan_get_offset k iter in
      Ok (negb (offset =? old_offset)).

(** Modelled from the spec: [bc_atomic_incr64] of the absent
    bitcask_atomic.h; epochs are monotonic and 1-based, so the call adds
    one and returns the new value. *)
Definition bc_atomic_incr64 (k : bitcask_keydir) : bitcask_keydir * Z :=
  let e := u64 (kd_epoch k + 1) in (set_epoch k e, e).

Definition base_size (k : bitcask_keydir) (iter : scan_iter_t) : res Z :=
  let* first := rd (head (it_pages iter)) in
  let* mi := rd (pi_mem_page first) in
  let* base := read_mem_page k mi in
  Ok (mp_size base).

Fixpoint keydir_put (fuel : nat) (k : bitcask_keydir)
    (entry : keydir_entry_t) (old_file_id old_offset : Z)
  : res (bitcask_keydir * keydir_entry_t * KeydirPutCode) :=
  match fuel with
  | O => Fault OutOfFuel
  | S fuel' =>
      let '(k, epoch) := bc_atomic_incr64 k in
      let entry := set_e_epoch entry epoch in
      let* '(k, iter) :=
        scan_for_key fuel' k (e_key entry) (e_key_size entry) (e_epoch entry) in
      let finish (k : bitcask_keydir) (iter : scan_iter_t)
                 (entry : keydir_entry_t) (ret_code : KeydirPutCode) :=
        let* k := free_scan_iter k iter in Ok (k, entry, ret_code) in
      if it_found iter then
        let* changed := entry_changed k iter old_file_id old_offset in
        if changed then finish k iter entry KEYDIR_PUT_MODIFIED
        else if e_epoch entry <? kd_min_epoch k then
          let* k := update_entry k iter entry in
          finish k iter entry KEYDIR_PUT_OK
        else
          let* '(k, iter, ret) := write_prep fuel' k iter 0 in
          match ret with
          | WRITE_PREP_NO_MEM => finish k iter entry KEYDIR_PUT_OUT_OF_MEMORY
          | WRITE_PREP_RESTART =>
              keydir_put fuel' k entry old_file_id old_offset
          | WRITE_PREP_OK =>
              let* chain_size := base_size k iter in
              let iter := set_it_offset iter (u32 chain_size) in
              let* k := scan_set_next k iter chain_size in
              let* k := append_version k iter entry in
              finish k iter entry KEYDIR_PUT_OK
          end
      else if negb (old_file_id =? 0) then
        finish k iter entry KEYDIR_PUT_MODIFIED
      else
        let* '(k, iter, ret) := write_prep fuel' k iter (e_key_size entry) in
        match ret with
        | WRITE_PREP_NO_MEM => finish k iter entry KEYDIR_PUT_OUT_OF_MEMORY
        | WRITE_PREP_RESTART =>
            keydir_put fuel' k entry old_file_id old_offset
        | WRITE_PREP_OK =>
            let entry := set_e_next entry 0 in
            let* k := append_entry k iter entry in
            finish k iter entry KEYDIR_PUT_OK
        end
  end.

Definition append_deleted_version (k : bitcask_keydir) (iter : scan_iter_t)
    (epoch : Z) : res bitcask_keydir :=
  let* k := scan_set_file_id k iter MAX_FILE_ID in
  let* k := scan_set_offset k iter MAX_OFFSET in
  let* k := scan_set_total_size k iter 0 in
  let* k := scan_set_timestamp k iter 0 in
  let* k := scan_set_epoch k iter epoch in
  scan_set_key_size k iter 0.

Fixpoint keydir_remove (fuel : nat) (k : bitcask_keydir)
    (key : list Z) (key_size : Z) (old_file_id old_offset : Z)
  : res (bitcask_keydir * KeydirPutCode) :=
  match fuel with
  | O => Fault OutOfFuel
  | S fuel' =>
      let '(k, epoch) := bc_atomic_incr64 k in
      let* '(k, iter) := scan_for_key fuel' k key key_size epoch in
      let finish (k : bitcask_keydir) (iter : scan_iter_t)
                 (ret_code : KeydirPutCode) :=
        let* k := free_scan_iter k iter in Ok (k, ret_code) in
      if it_found iter then
        let* changed := entry_changed k iter old_file_id old_offset in
        if changed then finish k iter KEYDIR_PUT_MODIFIED
        else if epoch <? kd_min_epoch k then
          let* k := scan_set_offset k iter MAX_OFFSET in
          let* k := scan_set_epoch k iter epoch in
          finish k iter KEYDIR_PUT_OK
        else
          let* '(k, iter, ret) := write_prep fuel' k iter 0 in
          match ret with
          | WRITE_PREP_NO_MEM => finish k iter KEYDIR_PUT_OUT_OF_MEMORY
          | WRITE_PREP_RESTART =>
              keydir_remove fuel' k key key_size old_file_id old_offset
          | WRITE_PREP_OK =>
              let* chain_size := base_size k iter in
              let* k := scan_set_next k iter chain_size in
              let iter := set_it_offset iter chain_size in
              let* k := append_deleted_version k iter epoch in
              finish k iter KEYDIR_PUT_OK
          end
      else if negb (old_file_id =? 0) then finish k iter KEYDIR_PUT_MODIFIED
      else finish k iter KEYDIR_PUT_OK
  end.

(** [add_free_page]: push a memory page on the free list. *)
Definition add_free_page (k : bitcask_keydir) (page_idx : Z)
  : res bitcask_keydir :=
  let* mem_page := read_mem_page k page_idx in
  let first_free_idx := kd_free_list_head k in
  let* k := write_mem_page k page_idx
              (set_mp_page mem_page
                 (set_page_next_free
                    (set_page_is_free (mp_page mem_page) (Some 1))
                    (Some first_free_idx))) in
  Ok (set_free_list_head k page_idx).

End Keydir.

(** * Vocabulary of the properties *)

(** [kd_frame k k']: [k'] has the memory blocks of [k] unchanged (blocks
    may have been added by swap growth), the same chain sizes and the same
    epochs. *)
Record kd_frame (k k' : bitcask_keydir) : Prop := mk_frame {
  fr_heap : exists extra, kd_heap k' = kd_heap k ++ extra;
  fr_sizes : map mp_size (kd_mem_pages k') = map mp_size (kd_mem_pages k);
  fr_epoch : kd_epoch k' = kd_epoch k;
  fr_min_epoch : kd_min_epoch k' = kd_min_epoch k;
  fr_num_pages : kd_num_pages k' = kd_num_pages k
}.

(** The [size] field of every memory page: the sizes of the chains. *)
Definition chain_sizes (k : bitcask_keydir) : list Z := map mp_size (kd_mem_pages k).

(** The base page index [scan_for_key] computes for a key. *)
Definition bucket (hash : list Z -> Z -> Z -> Z) (num_pages : Z)
    (key : list Z) (key_size : Z) : Z :=
  u32 (hash_key hash key key_size) mod num_pages.

(** The cells of the field of width [width] at [field_offset] of the entry
    under the iterator. *)
Definition field_cells (k : bitcask_keydir) (iter : scan_iter_t)
    (field_offset width : Z) (b : nat) (i : Z) : Prop :=
  exists p, scan_get_field k iter field_offset = Ok p
            /\ b = blk p /\ pofs p <= i < pofs p + width.

(** [k'] is [k] with a new heap that differs from the old one inside [W]
    only. *)
Definition writes_only (W : nat -> Z -> Prop) (k k' : bitcask_keydir) : Prop :=
  (exists h, k' = set_heap k h) /\
  forall b i, ~ W b i -> heap_cell (kd_heap k') b i = heap_cell (kd_heap k) b i.

(** The cells of the header fields [update_entry] stores: file_id,
    total_size, epoch, offset and timestamp. *)
Definition put_fields (k : bitcask_keydir) (iter : scan_iter_t)
    (b : nat) (i : Z) : Prop :=
  field_cells k iter ENTRY_FILE_ID_OFFSET 4 b i
  \/ field_cells k iter ENTRY_TOTAL_SIZE_OFFSET 4 b i
  \/ field_cells k iter ENTRY_EPOCH_OFFSET 8 b i
  \/ field_cells k iter ENTRY_OFFSET_OFFSET 8 b i
  \/ field_cells k iter ENTRY_TIMESTAMP_OFFSET 4 b i.

(** The cells of the header fields an in-place [keydir_remove] stores:
    epoch and offset. *)
Definition remove_fields (k : bitcask_keydir) (iter : scan_iter_t)
    (b : nat) (i : Z) : Prop :=
  field_cells k iter ENTRY_EPOCH_OFFSET 8 b i
  \/ field_cells k iter ENTRY_OFFSET_OFFSET 8 b i.

(** The 36 header bytes of the entry under the iterator lie in one page. *)
Definition header_in_page (iter : scan_iter_t) : Prop :=
  0 <= it_offset iter
  /\ it_offset iter + ENTRY_KEY_OFFSET < 2 ^ 31
  /\ it_offset iter mod PAGE_SIZE + ENTRY_KEY_OFFSET <= PAGE_SIZE.

(** The data pointer of a page, by reference. *)
Definition page_data_of (k : bitcask_keydir) (r : page_ref) : res (option ptr) :=
  let* pg := read_page k r in Ok (page_data pg).

(** The seven fields of the header of an entry: offset and width. *)
Definition header_fields : list (Z * Z) :=
  [ (ENTRY_FILE_ID_OFFSET, 4); (ENTRY_TOTAL_SIZE_OFFSET, 4);
    (ENTRY_EPOCH_OFFSET, 8); (ENTRY_OFFSET_OFFSET, 8);
    (ENTRY_TIMESTAMP_OFFSET, 4); (ENTRY_NEXT_OFFSET, 4);
    (ENTRY_KEY_SIZE_OFFSET, 4) ].

(** The cells of field [f] are cells of no part of field [g]. *)
Definition field_alone (k : bitcask_keydir) (iter : scan_iter_t)
    (f wf g wg : Z) : Prop :=
  forall b i, field_cells k iter f wf b i -> ~ field_cells k iter g wg b i.

(** Distinct header fields of the entry under the iterator occupy distinct
    cells of memory. *)
Definition fields_apart (k : bitcask_keydir) (iter : scan_iter_t) : Prop :=
  forall f wf g wg, In (f, wf) header_fields -> In (g, wg) header_fields ->
    f <> g -> field_alone k iter f wf g wg.

(** Two ranges of memory that share no cell. *)
Definition apart (p : ptr) (wp : Z) (q : ptr) (wq : Z) : Prop :=
  blk q <> blk p \/ pofs q + wq <= pofs p \/ pofs p + wp <= pofs q.

(** A fresh statistics entry: every counter zero, never expiring. *)
Definition fresh_fstats (file_id : Z) : bitcask_fstats_entry :=
  mk_fstats file_id 0 0 0 0 0 0 MAX_EPOCH.

(** The entry after one update, in the words of the specification: the
    deltas are added, the expiration epoch is the minimum seen, and the
    oldest (newest) timestamp moves to [tstamp] when [tstamp] is non-zero
    and strictly smaller (larger), or when the current value is 0. *)
Definition fstats_updated (e : bitcask_fstats_entry)
    (tstamp expiration_epoch live total live_bytes total_bytes : Z)
  : bitcask_fstats_entry :=
  mk_fstats (fs_file_id e)
    (u32 (fs_live_keys e + live))
    (u32 (fs_total_keys e + total))
    (u64 (fs_live_bytes e + live_bytes))
    (u64 (fs_total_bytes e + total_bytes))
    (if decide ((tstamp <> 0 /\ tstamp < fs_oldest_tstamp e) \/ fs_oldest_tstamp e = 0)
     then tstamp else fs_oldest_tstamp e)
    (if decide ((tstamp <> 0 /\ fs_newest_tstamp e < tstamp) \/ fs_newest_tstamp e = 0)
     then tstamp else fs_newest_tstamp e)
    (Z.min (fs_expiration_epoch e) expiration_epoch).

(** ** Pages, layouts and buckets *)

(** Every swap array records the length of its page array. *)
Definition swap_arrays_sized (arrays : list swap_array_t) : Prop :=
  Forall (fun a => sa_size a = Z.of_nat (length (sa_pages a))) arrays.

(** The swap pages in the order of their indices. *)
Definition swap_index_space (arrays : list swap_array_t) : list page_t :=
  concat (map sa_pages arrays).

(** A memory page as [keydir_init_mem_pages] leaves it, up to the link of
    the free list. *)
Definition initial_page (k : bitcask_keydir) (i : Z) : Prop :=
  exists nf, read_mem_page k i
             = Ok (set_mp_page (init_mem_page i)
                     (set_page_next_free (mp_page (init_mem_page i)) (Some nf))).

(** The bytes [bs] are what memory holds at [p]. *)
Definition holds (h : memory) (p : ptr) (bs : list Z) : Prop :=
  load_bytes h p (Z.of_nat (length bs)) = Ok bs.

(** [n] bytes at [d] lie inside one block of memory. *)
Definition region_in_heap (h : memory) (d : ptr) (n : Z) : Prop :=
  exists bl, h !! blk d = Some bl /\ 0 <= pofs d
             /\ pofs d + n <= Z.of_nat (length bl).

(** The layout of an entry: the header of 36 bytes, then the key. *)
Definition entry_bytes (e : keydir_entry_t) : list Z :=
  le_encode 4 (u32 (e_file_id e)) ++ le_encode 4 (u32 (e_total_size e))
  ++ le_encode 8 (u64 (e_epoch e)) ++ le_encode 8 (u64 (e_offset e))
  ++ le_encode 4 (u32 (e_timestamp e)) ++ le_encode 4 (u32 (e_next e))
  ++ le_encode 4 (u32 (e_key_size e)) ++ e_key e.

(** The iterator [scan_for_key] starts with: the base page of bucket [b],
    offset 0. *)
Definition head_iter (b : Z) (found : bool) : scan_iter_t :=
  mk_iter found 0 [mk_page_info (MemPage b) (Some b) (Some b)].

(** Memory page [b] of [k] has its data at [d]. *)
Definition page_at (k : bitcask_keydir) (b : Z) (d : ptr) : Prop :=
  exists bp, read_mem_page k b = Ok bp /\ page_data (mp_page bp) = Some d.

(** The page with its mutex held / released. *)
Definition with_mutex (m : mem_page_t) (held : bool) : mem_page_t :=
  set_mp_page m (set_page_mutex (mp_page m) (Some held)).

(** [k] with memory page [i] replaced. *)
Definition with_mem_page (k : bitcask_keydir) (i : Z) (m : mem_page_t)
  : bitcask_keydir :=
  set_mem_pages k (<[Z.to_nat i := m]> (kd_mem_pages k)).

(** The chain of bucket [b] starts with the entry [e]: the base page is
    unlocked, has no swap twin, holds data, and the bytes at the start of
    its data are the layout of [e]. *)
Definition chain_head (k : bitcask_keydir) (b : Z) (e : keydir_entry_t) : Prop :=
  exists bp d,
    read_mem_page k b = Ok bp
    /\ page_mutex (mp_page bp) = Some false
    /\ page_data (mp_page bp) = Some d
    /\ mp_alt_idx bp = MAX_PAGE_IDX
    /\ mp_size bp <> 0
    /\ holds (kd_heap k) d (entry_bytes e).

(** The entry fits in its page, key included, and its key size is the
    length of its key. *)
Definition entry_fits (e : keydir_entry_t) : Prop :=
  e_key_size e = Z.of_nat (length (e_key e))
  /\ ENTRY_KEY_OFFSET + e_key_size e < PAGE_SIZE.

(** [k] with the mutex of memory page [b], whose content is [bp], held. *)
Definition locked_at (k : bitcask_keydir) (b : Z) (bp : mem_page_t)
  : bitcask_keydir :=
  with_mem_page k b (with_mutex bp true).

(** Bucket [b] is empty and ready for a first entry: its base page is
    unlocked, not borrowed, has no swap twin and no data in use, and its
    page of memory exists. *)
Definition empty_bucket (k : bitcask_keydir) (b : Z) : Prop :=
  exists bp d fr,
    read_mem_page k b = Ok bp
    /\ page_mutex (mp_page bp) = Some false
    /\ page_data (mp_page bp) = Some d
    /\ page_is_free (mp_page bp) = Some fr
    /\ mp_alt_idx bp = MAX_PAGE_IDX
    /\ mp_size bp = 0
    /\ mp_is_borrowed bp = 0
    /\ region_in_heap (kd_heap k) d PAGE_SIZE.

(** The base page of a chain after its first entry was written: in use,
    of the given size, everything else as before. *)
Definition written_page (bp : mem_page_t) (size : Z) (held : bool) : mem_page_t :=
  mk_mem_page
    (mk_page (page_data (mp_page bp)) (Some held) (page_prev (mp_page bp))
       (page_next (mp_page bp)) (page_next_free (mp_page bp)) (Some 0))
    size (mp_alt_idx bp) (mp_dead_bytes bp) (mp_is_borrowed bp).

(** What [keydir_get] hands back for a stored entry: the five header
    fields, the tombstone flag, and the rest of the caller's record. *)
Definition entry_read (e r : keydir_entry_t) : keydir_entry_t :=
  mk_entry (u32 (e_file_id e)) (u32 (e_total_size e)) (u64 (e_epoch e))
    (u64 (e_offset e)) (u32 (e_timestamp e)) (u64 (e_offset e) =? MAX_OFFSET)
    (e_next r) (e_key_size r) (e_key r).

(** The two timestamps of a statistics entry are unset together, or set
    with the oldest not after the newest. *)
Definition tstamps_ordered (e : bitcask_fstats_entry) : Prop :=
  (fs_oldest_tstamp e = 0 /\ fs_newest_tstamp e = 0)
  \/ 0 < fs_oldest_tstamp e <= fs_newest_tstamp e.

(** [k'] has the epoch, the pinned epoch and the number of pages of [k]. *)
Definition same_epochs (k k' : bitcask_keydir) : Prop :=
  kd_epoch k' = kd_epoch k /\ kd_min_epoch k' = kd_min_epoch k
  /\ kd_num_pages k' = kd_num_pages k.


(** The free-list link of memory page [i]. *)
Definition next_free_of (k : bitcask_keydir) (i : Z) : res Z :=
  let* m := read_mem_page k i in rd (page_next_free (mp_page m)).

(** The free list of memory pages from [idx] on, as [allocate_mem_page]
    would pop it: the links are followed until [MAX_PAGE_IDX]. *)
Fixpoint free_list_walk (fuel : nat) (k : bitcask_keydir) (idx : Z) : res (list Z) :=
  if idx =? MAX_PAGE_IDX then Ok [] else
  match fuel with
  | O => Fault OutOfFuel
  | S fuel' =>
      let* nx := next_free_of k idx in
      let* l := free_list_walk fuel' k nx in
      Ok (idx :: l)
  end.

(** The place of page [i] in the free list [keydir_init_free_list] builds
    for [n] pages: the pages come in 16 strides, stride by stride. *)
Definition free_rank (n i : Z) : Z :=
  (n / 16) * (i mod 16) + Z.min (n mod 16) (i mod 16) + i / 16.

(** [a] is linked to the pages of [l], one after the other. *)
Fixpoint linked (k : bitcask_keydir) (a : Z) (l : list Z) : Prop :=
  match l with
  | [] => True
  | b :: l' => next_free_of k a = Ok b /\ linked k b l'
  end.

(** The swap arrays of [k] record their lengths and hold
    [num_swap_pages] pages in all. *)
Definition swap_consistent (k : bitcask_keydir) : Prop :=
  swap_arrays_sized (kd_swap_pages k)
  /\ Z.of_nat (length (swap_index_space (kd_swap_pages k))) = kd_num_swap_pages k.

(** ** Concrete inputs *)

(** An operating system whose calls all succeed. *)
Definition ok_env : env_t := mk_env (fun _ => true) (fun _ => true) true 0.

(** The keydir [keydir_common_init] returns when it succeeds. *)
Definition fresh_keydir (num_pages initial_num_swap_pages : Z)
    (prior_swap_head : option Z) : option bitcask_keydir :=
  snd (keydir_common_init ok_env 0 num_pages initial_num_swap_pages prior_swap_head).

Definition blank_entry : keydir_entry_t := mk_entry 0 0 0 0 0 false 0 0 [].

(** The entry a caller hands to [keydir_put]. *)
Definition new_entry (key : list Z) (file_id offset total_size timestamp : Z)
  : keydir_entry_t :=
  mk_entry file_id total_size 0 offset timestamp false 0
    (Z.of_nat (length key)) key.

(** Two hash functions: every key in bucket 0, every key in bucket 1. *)
Definition zero_hash : list Z -> Z -> Z -> Z := fun _ _ _ => 0.
Definition one_hash : list Z -> Z -> Z -> Z := fun _ _ _ => 1.

(** Reading an integer of [n] bytes at index [i] of block [b]. *)
Definition peek (k : bitcask_keydir) (b : nat) (i n : Z) : res Z :=
  let* bs := load_bytes (kd_heap k) (mk_ptr b i) n in Ok (le_decode bs).

(** The chain link [next] of memory page [i]. *)
Definition link_of (k : bitcask_keydir) (i : Z) : res Z :=
  let* p := read_page k (MemPage i) in rd (page_next p).

Definition key_k : list Z := [107].
Definition key_a : list Z := [97].
Definition key_b : list Z := [98].
Definition key_ab : list Z := [97; 98].

(** A key of 4070 bytes: at chain offset 0 its last 10 bytes belong to the
    second page of the chain. *)
Definition straddling_key : list Z := replicate 4060 97 ++ replicate 10 98.

(** A key of 4060 bytes: at chain offset 0 its entry ends with the first
    page. *)
Definition page_filling_key : list Z := replicate 4060 97.

(** * Properties *)

(** ** Reasoning about outcomes *)

Lemma bind_Ok {A B} (c : res A) (f : A -> res B) (r : B) :
  bind c f = Ok r -> exists a, c = Ok a /\ f a = Ok r.
Proof. destruct c as [a|e]; simpl; [eauto | discriminate]. Qed.

Lemma rd_Ok {A} (o : option A) (a : A) : rd o = Ok a -> o = Some a.
Proof. destruct o; simpl; congruence. Qed.

(** One step of inversion of a computation known to return. *)
Ltac inv_step :=
  match goal with
  | H : Ok _ = Ok _ |- _ => inversion H; subst; clear H
  | H : Fault _ = Ok _ |- _ => discriminate H
  | H : bind _ _ = Ok _ |- _ =>
      let a := fresh "a" in
      let E := fresh "E" in
      apply bind_Ok in H; destruct H as (a & E & H)
  | H : (let '(_, _) := ?x in _) = Ok _ |- _ =>
      let E := fresh "Hp" in destruct x eqn:E
  | H : (if ?b then _ else _) = Ok _ |- _ =>
      let E := fresh "Hb" in destruct b eqn:E
  | H : match ?x with _ => _ end = Ok _ |- _ =>
      let E := fresh "Hm" in destruct x eqn:E
  end.

(** ** What a scan leaves alone *)

Lemma kd_frame_refl k : kd_frame k k.
Proof. split; auto. exists []. by rewrite app_nil_r. Qed.

Lemma kd_frame_trans k1 k2 k3 : kd_frame k1 k2 -> kd_frame k2 k3 -> kd_frame k1 k3.
Proof.
  intros [[x1 H1] S1 E1 M1 N1] [[x2 H2] S2 E2 M2 N2]. split; try congruence.
  exists (x1 ++ x2). rewrite H2, H1. by rewrite app_assoc.
Qed.

Lemma write_mem_page_frame k i m m0 k' :
  nthZ (kd_mem_pages k) i = Some m0 -> mp_size m = mp_size m0 ->
  write_mem_page k i m = Ok k' -> kd_frame k k'.
Proof.
  unfold write_mem_page. intros Hm Hs H. rewrite Hm in H. inversion H; subst; clear H.
  split; simpl; auto.
  - exists []. by rewrite app_nil_r.
  - unfold nthZ in Hm. destruct (i <? 0); [discriminate|].
    rewrite list_fmap_insert, Hs.
    apply list_insert_id. by rewrite list_lookup_fmap, Hm.
Qed.

Lemma write_page_frame k r p k' : write_page k r p = Ok k' -> kd_frame k k'.
Proof.
  destruct r as [i | a s]; simpl; intros H.
  - unfold read_mem_page in H. repeat inv_step. apply rd_Ok in E.
    eapply write_mem_page_frame; [exact E| |exact H]. reflexivity.
  - repeat inv_step. split; simpl; auto. exists []. by rewrite app_nil_r.
Qed.

Lemma lock_page_frame k r k' : lock_page k r = Ok k' -> kd_frame k k'.
Proof. unfold lock_page. intros H. repeat inv_step. eauto using write_page_frame. Qed.

Lemma unlock_page_frame k r k' : unlock_page k r = Ok k' -> kd_frame k k'.
Proof. unfold unlock_page. intros H. repeat inv_step. eauto using write_page_frame. Qed.

Lemma set_free_list_head_frame k v : kd_frame k (set_free_list_head k v).
Proof. split; simpl; auto. exists []. by rewrite app_nil_r. Qed.
Lemma set_swap_free_list_head_frame k v : kd_frame k (set_swap_free_list_head k v).
Proof. split; simpl; auto. exists []. by rewrite app_nil_r. Qed.
Lemma set_swap_grow_mutex_frame k v : kd_frame k (set_swap_grow_mutex k v).
Proof. split; simpl; auto. exists []. by rewrite app_nil_r. Qed.
Lemma set_swap_file_size_frame k v : kd_frame k (set_swap_file_size k v).
Proof. split; simpl; auto. exists []. by rewrite app_nil_r. Qed.
Lemma set_num_swap_pages_frame k v : kd_frame k (set_num_swap_pages k v).
Proof. split; simpl; auto. exists []. by rewrite app_nil_r. Qed.
Lemma set_swap_pages_frame k v : kd_frame k (set_swap_pages k v).
Proof. split; simpl; auto. exists []. by rewrite app_nil_r. Qed.
Lemma set_heap_app_frame k extra : kd_frame k (set_heap k (kd_heap k ++ extra)).
Proof. split; simpl; eauto. Qed.

Create HintDb frame.
#[local] Hint Resolve kd_frame_refl set_free_list_head_frame
  set_swap_free_list_head_frame set_swap_grow_mutex_frame
  set_swap_file_size_frame set_num_swap_pages_frame set_swap_pages_frame
  set_heap_app_frame : frame.

(** Chains the frame facts in the context from the state on the left. *)
Ltac chain :=
  lazymatch goal with
  | |- kd_frame ?k ?k => apply kd_frame_refl
  | |- kd_frame ?k ?k' =>
      match goal with
      | H : kd_frame k ?m |- _ =>
          apply (kd_frame_trans _ _ _ H); clear H; chain
      | H : kd_frame (?s k ?v) ?m |- _ =>
          apply (kd_frame_trans k (s k v)); [solve [auto with frame] | chain]
      | _ => solve [auto with frame]
      end
  end.

(** Turns the steps found in the context into frame facts. *)
Ltac clean_rd :=
  repeat match goal with H : rd _ = Ok _ |- _ => apply rd_Ok in H end.

Ltac fr_prim H :=
  first
    [ apply lock_page_frame in H
    | apply unlock_page_frame in H
    | apply write_page_frame in H
    | match goal with
      | E : nthZ _ _ = Some _ |- _ =>
          eapply write_mem_page_frame in H; [| exact E | reflexivity]
      end ].

Ltac frames tac :=
  repeat match goal with H : _ = Ok _ |- _ => tac H end.

Lemma allocate_mem_page_frame fuel : forall k k' r,
  allocate_mem_page fuel k = Ok (k', r) -> kd_frame k k'.
Proof.
  induction fuel as [|fuel IH]; simpl; intros k k' r H; [discriminate|].
  unfold read_mem_page in H.
  repeat inv_step; clean_rd;
    frames ltac:(fun H => first [fr_prim H | apply IH in H]); chain.
Qed.

Lemma mmap_loop_heap n : forall env old i off h h' pages,
  mmap_loop env n old i off h = (h', pages) -> exists extra, h' = h ++ extra.
Proof.
  induction n as [|n IH]; cbn [mmap_loop]; intros env old i off h h' pages H.
  - inversion H. exists []. by rewrite app_nil_r.
  - destruct (mmap_ok env off).
    + destruct (mmap_loop env n old (i + 1) (off + PAGE_SIZE)
                  (h ++ [zero_page])) as [h2 rest] eqn:E.
      inversion H; subst. apply IH in E as [x ->].
      eexists. symmetry. apply app_assoc.
    + inversion H. exists []. by rewrite app_nil_r.
Qed.

Lemma expand_swap_file_frame env k old k' rc :
  expand_swap_file env k old = Ok (k', rc) -> kd_frame k k'.
Proof.
  unfold expand_swap_file. intros H.
  repeat inv_step; clean_rd;
    (split; cbn; auto; try (exists []; by rewrite app_nil_r)).
  match goal with
  | Hl : mmap_loop _ _ _ _ _ _ = _ |- _ => apply mmap_loop_heap in Hl as [extra Hx]
  end.
  cbn in Hx. eauto.
Qed.

Lemma allocate_swap_page_frame fuel : forall env k k' r,
  allocate_swap_page env fuel k = Ok (k', r) -> kd_frame k k'.
Proof.
  induction fuel as [|fuel IH]; simpl; intros env k k' r H; [discriminate|].
  repeat inv_step; clean_rd;
    frames ltac:(fun H =>
      first [fr_prim H | apply expand_swap_file_frame in H | apply IH in H]);
    chain.
Qed.

Lemma allocate_page_frame fuel env k k' r :
  allocate_page env fuel k = Ok (k', r) -> kd_frame k k'.
Proof.
  unfold allocate_page. intros H.
  repeat inv_step;
    frames ltac:(fun H =>
      first [ apply allocate_mem_page_frame in H
            | apply allocate_swap_page_frame in H ]);
    chain.
Qed.

Lemma extend_iter_chain_walk_frame fuel : forall k iter n k' iter' n',
  extend_iter_chain_walk fuel k iter n = Ok (k', iter', n') -> kd_frame k k'.
Proof.
  induction fuel as [|fuel IH]; intros k iter n k' iter' n' H; simpl in H.
  - destruct (n =? 0); [inversion H; subst; chain | discriminate].
  - repeat inv_step; clean_rd;
      frames ltac:(fun H => first [fr_prim H | apply IH in H]); chain.
Qed.

Lemma extend_iter_chain_grow_frame fuel : forall env k iter n k' iter' n',
  extend_iter_chain_grow env fuel k iter n = Ok (k', iter', n') -> kd_frame k k'.
Proof.
  induction fuel as [|fuel IH]; intros env k iter n k' iter' n' H; simpl in H.
  - destruct (n =? 0); [inversion H; subst; chain | discriminate].
  - repeat inv_step; clean_rd;
      frames ltac:(fun H =>
        first [fr_prim H | apply allocate_page_frame in H | apply IH in H]);
      chain.
Qed.

Lemma extend_iter_chain_frame fuel env k iter n k' iter' rc :
  extend_iter_chain env fuel k iter n = Ok (k', iter', rc) -> kd_frame k k'.
Proof.
  unfold extend_iter_chain. intros H. repeat inv_step.
  frames ltac:(fun H =>
    first [ apply extend_iter_chain_walk_frame in H
          | apply extend_iter_chain_grow_frame in H ]).
  chain.
Qed.

Lemma lock_pages_to_scan_entry_frame fuel env k iter k' iter' rc :
  lock_pages_to_scan_entry env fuel k iter = Ok (k', iter', rc) -> kd_frame k k'.
Proof.
  unfold lock_pages_to_scan_entry. intros H.
  repeat inv_step; frames ltac:(fun H => apply extend_iter_chain_frame in H); chain.
Qed.

Lemma scan_to_epoch_loop_frame fuel : forall env k iter epoch lo next k' iter',
  scan_to_epoch_loop env fuel k iter epoch lo next = Ok (k', iter') -> kd_frame k k'.
Proof.
  induction fuel as [|fuel IH]; intros env k iter epoch lo next k' iter' H; simpl in H.
  - destruct (next =? 0); [inversion H; subst; chain | discriminate].
  - repeat inv_step;
      frames ltac:(fun H =>
        first [apply lock_pages_to_scan_entry_frame in H | apply IH in H]);
      chain.
Qed.

Lemma scan_to_epoch_frame fuel env k iter epoch k' iter' :
  scan_to_epoch env fuel k iter epoch = Ok (k', iter') -> kd_frame k k'.
Proof.
  unfold scan_to_epoch. intros H.
  repeat inv_step; frames ltac:(fun H => apply scan_to_epoch_loop_frame in H); chain.
Qed.

Lemma scan_pages_loop_frame fuel : forall env k key ks epoch ds iter k' iter',
  scan_pages_loop env fuel k key ks epoch ds iter = Ok (k', iter') -> kd_frame k k'.
Proof.
  induction fuel as [|fuel IH]; intros env k key ks epoch ds iter k' iter' H;
    simpl in H; [discriminate|].
  repeat inv_step;
    frames ltac:(fun H =>
      first [ apply lock_pages_to_scan_entry_frame in H
            | apply scan_to_epoch_frame in H | apply IH in H ]);
    chain.
Qed.

Lemma scan_pages_frame fuel env k key ks epoch iter k' iter' :
  scan_pages env fuel k key ks epoch iter = Ok (k', iter') -> kd_frame k k'.
Proof.
  unfold scan_pages. intros H.
  repeat inv_step; frames ltac:(fun H => apply scan_pages_loop_frame in H); chain.
Qed.

Lemma scan_for_key_at_frame fuel env k base key ks epoch k' iter' :
  scan_for_key_at env fuel k base key ks epoch = Ok (k', iter') -> kd_frame k k'.
Proof.
  unfold scan_for_key_at. intros H.
  repeat inv_step;
    frames ltac:(fun H => first [fr_prim H | apply scan_pages_frame in H]); chain.
Qed.

Lemma scan_for_key_frame hash env fuel k key ks epoch k' iter' :
  scan_for_key hash env fuel k key ks epoch = Ok (k', iter') -> kd_frame k k'.
Proof.
  unfold scan_for_key. intros H.
  repeat inv_step. eauto using scan_for_key_at_frame.
Qed.

Lemma unlock_pages_frame pages : forall k k',
  unlock_pages k pages = Ok k' -> kd_frame k k'.
Proof.
  induction pages as [|pi rest IH]; simpl; intros k k' H.
  - inversion H. chain.
  - repeat inv_step. frames ltac:(fun H => first [fr_prim H | apply IH in H]). chain.
Qed.

(** ** The bucket of a key decides a run, not the hash *)

Lemma bind_ext {A B} (c : res A) (f g : A -> res B) :
  (forall a, c = Ok a -> f a = g a) -> bind c f = bind c g.
Proof. destruct c; simpl; auto. Qed.

Ltac ext_step :=
  match goal with
  | |- ?x = ?x => reflexivity
  | |- bind ?c _ = bind ?c _ => apply bind_ext; intros ? ?
  | |- (let '(_, _) := ?x in _) = (let '(_, _) := ?x in _) => destruct x eqn:?
  | |- (if ?b then _ else _) = (if ?b then _ else _) => destruct b eqn:?
  | |- match ?x with _ => _ end = match ?x with _ => _ end => destruct x eqn:?
  end.

(** The number of memory pages never changes. *)
Ltac np_facts :=
  repeat match goal with F : kd_frame _ _ |- _ => apply fr_num_pages in F end.

Lemma write_mem_page_num_pages k i m k' :
  write_mem_page k i m = Ok k' -> kd_num_pages k' = kd_num_pages k.
Proof. unfold write_mem_page. intros H. repeat inv_step. reflexivity. Qed.

Lemma reclaim_borrowed_page_num_pages env fuel k base k' rc :
  reclaim_borrowed_page env fuel k base = Ok (k', rc) ->
  kd_num_pages k' = kd_num_pages k.
Proof.
  unfold reclaim_borrowed_page. intros H.
  repeat inv_step;
    frames ltac:(fun H => first [fr_prim H | apply allocate_page_frame in H]);
    np_facts; cbn in *; congruence.
Qed.

Lemma write_prep_num_pages env fuel k iter ks k' iter' rc :
  write_prep env fuel k iter ks = Ok (k', iter', rc) ->
  kd_num_pages k' = kd_num_pages k.
Proof.
  unfold write_prep, read_mem_page. intros H.
  repeat inv_step; clean_rd;
    repeat match goal with
    | H : reclaim_borrowed_page _ _ _ _ = Ok _ |- _ =>
        apply reclaim_borrowed_page_num_pages in H
    | H : write_mem_page _ _ _ = Ok _ |- _ =>
        apply write_mem_page_num_pages in H
    end;
    frames ltac:(fun H => first [fr_prim H | apply extend_iter_chain_frame in H]);
    np_facts; cbn in *; congruence.
Qed.

Lemma scan_for_key_bucket h h' env fuel k key ks e :
  bucket h (kd_num_pages k) key ks = bucket h' (kd_num_pages k) key ks ->
  scan_for_key h env fuel k key ks e = scan_for_key h' env fuel k key ks e.
Proof. unfold scan_for_key, bucket. intros ->. reflexivity. Qed.

Lemma keydir_get_bucket h h' env fuel k key ks e r :
  bucket h (kd_num_pages k) key ks = bucket h' (kd_num_pages k) key ks ->
  keydir_get h env fuel k key ks e r = keydir_get h' env fuel k key ks e r.
Proof.
  intros Hb. unfold keydir_get. by rewrite (scan_for_key_bucket h h').
Qed.

Lemma keydir_put_bucket h h' env fuel : forall k entry a b,
  bucket h (kd_num_pages k) (e_key entry) (e_key_size entry)
  = bucket h' (kd_num_pages k) (e_key entry) (e_key_size entry) ->
  keydir_put h env fuel k entry a b = keydir_put h' env fuel k entry a b.
Proof.
  induction fuel as [|fuel IH]; intros k entry a b Hb; [reflexivity|].
  cbn [keydir_put bc_atomic_incr64].
  rewrite (scan_for_key_bucket h h') by exact Hb.
  repeat ext_step;
    repeat match goal with
    | H : scan_for_key _ _ _ _ _ _ _ = Ok _ |- _ => apply scan_for_key_frame in H
    | H : write_prep _ _ _ _ _ = Ok _ |- _ => apply write_prep_num_pages in H
    end; np_facts; cbn in *;
    apply IH; cbn; congruence.
Qed.

Lemma keydir_remove_bucket h h' env fuel : forall k key ks a b,
  bucket h (kd_num_pages k) key ks = bucket h' (kd_num_pages k) key ks ->
  keydir_remove h env fuel k key ks a b = keydir_remove h' env fuel k key ks a b.
Proof.
  induction fuel as [|fuel IH]; intros k key ks a b Hb; [reflexivity|].
  cbn [keydir_remove bc_atomic_incr64].
  rewrite (scan_for_key_bucket h h') by exact Hb.
  repeat ext_step;
    repeat match goal with
    | H : scan_for_key _ _ _ _ _ _ _ = Ok _ |- _ => apply scan_for_key_frame in H
    | H : write_prep _ _ _ _ _ = Ok _ |- _ => apply write_prep_num_pages in H
    end; np_facts; cbn in *;
    apply IH; cbn; congruence.
Qed.

(** ** Concrete runs *)

Lemma keydir_common_init_fresh env len n s p k :
  keydir_common_init env len n s p = (0, Some k) -> fresh_keydir n s p = Some k.
Proof.
  unfold fresh_keydir, keydir_common_init. cbn [open_ok ftruncate_ok ok_env negb].
  destruct (keydir_init_free_list _) as [k1|]; [|discriminate].
  destruct (_ <? len + 13 + 1); [discriminate|].
  destruct (negb (open_ok env)); [discriminate|].
  destruct (negb (ftruncate_ok env _)); [discriminate|].
  intros H. inversion H; subst. reflexivity.
Qed.

Lemma bucket_one_page h key ks : bucket h 1 key ks = bucket zero_hash 1 key ks.
Proof. unfold bucket. by rewrite !Z.mod_1_r. Qed.

(** Runs an operation of a keydir of one page: the bucket is 0 whatever
    the hash. *)
Ltac run1 :=
  first [ rewrite (keydir_put_bucket _ zero_hash) by apply bucket_one_page
        | rewrite (keydir_remove_bucket _ zero_hash) by apply bucket_one_page
        | rewrite (keydir_get_bucket _ zero_hash) by apply bucket_one_page ];
  vm_compute; reflexivity.

(** Runs an operation on a key that hypothesis [H] places in bucket 1 of a
    keydir of two pages. *)
Ltac run2 H :=
  first [ rewrite (keydir_put_bucket _ one_hash)
            by (etransitivity; [exact H | reflexivity])
        | rewrite (keydir_remove_bucket _ one_hash)
            by (etransitivity; [exact H | reflexivity])
        | rewrite (keydir_get_bucket _ one_hash)
            by (etransitivity; [exact H | reflexivity]) ];
  vm_compute; reflexivity.

(** ** In-place update: what is written *)

Lemma heap_cell_app h x b i c :
  heap_cell h b i = Some c -> heap_cell (h ++ x) b i = Some c.
Proof.
  unfold heap_cell. destruct (h !! b) as [bl|] eqn:E; [|discriminate].
  by rewrite (lookup_app_l_Some _ _ _ _ E).
Qed.

Lemma splice_lookup_other {A} (l cs : list A) (o j : nat) :
  (o + length cs <= length l)%nat ->
  (j < o \/ o + length cs <= j)%nat ->
  (take o l ++ cs ++ drop (o + length cs) l) !! j = l !! j.
Proof.
  intros Hlen [Hj|Hj].
  - rewrite lookup_app_l by (rewrite length_take; lia).
    by apply lookup_take_lt.
  - rewrite lookup_app_r by (rewrite length_take; lia).
    rewrite length_take, Nat.min_l by lia.
    rewrite lookup_app_r by lia.
    rewrite lookup_drop. f_equal. lia.
Qed.

Lemma store_cells_other h p cs h' b i :
  store_cells h p cs = Ok h' ->
  ~ (b = blk p /\ pofs p <= i < pofs p + Z.of_nat (length cs)) ->
  heap_cell h' b i = heap_cell h b i.
Proof.
  unfold store_cells. destruct (h !! blk p) as [bl|] eqn:E; [|discriminate].
  destruct (_ && _) eqn:Hb; [|discriminate].
  intros H Hout. inversion H; subst; clear H.
  apply andb_true_iff in Hb as [H0 H1].
  apply Z.leb_le in H0, H1.
  unfold heap_cell.
  destruct (decide (b = blk p)) as [->|Hne].
  - pose proof (lookup_lt_Some _ _ _ E) as Hlt.
    rewrite (list_lookup_insert_eq h (blk p) _ Hlt).
    rewrite E. unfold nthZ. destruct (i <? 0) eqn:Hi; [done|].
    apply Z.ltb_ge in Hi.
    apply splice_lookup_other; lia.
  - by rewrite (list_lookup_insert_ne h (blk p) b _ (not_eq_sym Hne)).
Qed.

Lemma length_le_encode n v : length (le_encode n v) = n.
Proof. revert v. induction n; simpl; auto. Qed.

Lemma scan_set_uint32_writes k iter off v k' :
  scan_set_uint32 k iter off v = Ok k' ->
  writes_only (field_cells k iter off 4) k k'.
Proof.
  unfold scan_set_uint32, store_bytes. intros H. repeat inv_step.
  split; [eauto|]. intros b i Hout. cbn.
  eapply store_cells_other; [eassumption|].
  rewrite length_map, length_le_encode. intros [-> Hr]. apply Hout.
  exists a. auto.
Qed.

Lemma scan_set_uint64_writes k iter off v k' :
  scan_set_uint64 k iter off v = Ok k' ->
  writes_only (field_cells k iter off 8) k k'.
Proof.
  unfold scan_set_uint64, store_bytes. intros H. repeat inv_step.
  split; [eauto|]. intros b i Hout. cbn.
  eapply store_cells_other; [eassumption|].
  rewrite length_map, length_le_encode. intros [-> Hr]. apply Hout.
  exists a. auto.
Qed.

Lemma update_entry_writes k iter entry k' :
  update_entry k iter entry = Ok k' -> writes_only (put_fields k iter) k k'.
Proof.
  unfold update_entry, scan_set_file_id, scan_set_offset, scan_set_total_size,
    scan_set_timestamp, scan_set_epoch.
  intros H. repeat inv_step.
  apply scan_set_uint32_writes in E as [[h1 ->] F1].
  apply scan_set_uint64_writes in E0 as [[h2 ->] F2].
  apply scan_set_uint32_writes in E1 as [[h3 ->] F3].
  apply scan_set_uint32_writes in E2 as [[h4 ->] F4].
  apply scan_set_uint64_writes in H as [[h5 ->] F5].
  split; [eexists; reflexivity|].
  intros b i Hout. unfold put_fields in Hout.
  rewrite F5, F4, F3, F2, F1; [reflexivity|..]; intros Hin; apply Hout; tauto.
Qed.

Lemma remove_in_place_writes k iter epoch k1 k' :
  scan_set_offset k iter MAX_OFFSET = Ok k1 ->
  scan_set_epoch k1 iter epoch = Ok k' ->
  writes_only (remove_fields k iter) k k'.
Proof.
  unfold scan_set_offset, scan_set_epoch. intros H1 H2.
  apply scan_set_uint64_writes in H1 as [[h1 ->] F1].
  apply scan_set_uint64_writes in H2 as [[h2 ->] F2].
  split; [eexists; reflexivity|].
  intros b i Hout. unfold remove_fields in Hout.
  rewrite F2, F1; [reflexivity|..]; intros Hin; apply Hout; tauto.
Qed.

Lemma frame_then_writes k k1 k2 k' W b i c :
  kd_frame k k1 -> writes_only W k1 k2 -> kd_frame k2 k' ->
  heap_cell (kd_heap k) b i = Some c -> ~ W b i ->
  heap_cell (kd_heap k') b i = Some c.
Proof.
  intros [[x1 H1] _ _ _ _] [_ Hw] [[x2 H2] _ _ _ _] Hc Hout.
  rewrite H2. apply heap_cell_app. rewrite Hw by exact Hout.
  rewrite H1. by apply heap_cell_app.
Qed.

Lemma frame_then_writes_sizes k k1 k2 k' W :
  kd_frame k k1 -> writes_only W k1 k2 -> kd_frame k2 k' ->
  chain_sizes k' = chain_sizes k.
Proof.
  intros [_ S1 _ _ _] [[h ->] _] [_ S2 _ _ _]. unfold chain_sizes.
  rewrite S2. cbn. exact S1.
Qed.

Lemma scan_get_field_in_page k iter f :
  header_in_page iter -> 0 <= f <= 32 ->
  scan_get_field k iter f
  = let* p := scan_get_field k iter 0 in Ok (ptr_add p f).
Proof.
  unfold header_in_page, ENTRY_KEY_OFFSET, PAGE_SIZE. intros (H0 & H1 & H2) Hf.
  unfold scan_get_field, PAGE_SIZE.
  assert (Hint : forall g, 0 <= g <= 32 ->
            to_int (it_offset iter + g) = it_offset iter + g).
  { intros g Hg. unfold to_int, u32. rewrite Z.mod_small by lia.
    destruct (_ <? _) eqn:E; [reflexivity|]. apply Z.ltb_ge in E. lia. }
  rewrite (Hint f Hf), (Hint 0) by lia. rewrite Z.add_0_r.
  pose proof (Z.mod_pos_bound (it_offset iter) 4096 ltac:(lia)) as Hm.
  pose proof (Z.div_mod (it_offset iter) 4096 ltac:(lia)) as Hd.
  rewrite !Z.quot_div_nonneg, !Z.rem_mod_nonneg by lia.
  assert (Hq : (it_offset iter + f) / 4096 = it_offset iter / 4096).
  { symmetry. apply (Z.div_unique _ _ _ (it_offset iter mod 4096 + f)); lia. }
  assert (Hr : (it_offset iter + f) mod 4096 = it_offset iter mod 4096 + f).
  { symmetry. apply (Z.mod_unique _ _ (it_offset iter / 4096)); lia. }
  rewrite Hq, Hr.
  destruct (rd (nthZ (it_pages iter) (it_offset iter / 4096))) as [pi|]; [|reflexivity].
  cbn [bind]. destruct (read_page k (pi_page pi)) as [pg|]; [|reflexivity].
  cbn [bind]. destruct (rd (page_data pg)) as [d|]; [|reflexivity].
  cbn [bind]. unfold ptr_add. cbn. f_equal. f_equal. lia.
Qed.

Lemma field_cells_in_page k iter p f w b i :
  header_in_page iter -> 0 <= f <= 32 ->
  scan_get_field k iter 0 = Ok p ->
  field_cells k iter f w b i <-> b = blk p /\ pofs p + f <= i < pofs p + f + w.
Proof.
  intros Hh Hf Hp. unfold field_cells.
  rewrite (scan_get_field_in_page _ _ _ Hh Hf), Hp. cbn [bind]. split.
  - intros (q & Hq & -> & Hr). inversion Hq; subst. cbn in *. auto.
  - intros (-> & Hr). exists (ptr_add p f). cbn. auto.
Qed.

Lemma put_fields_in_page k iter p b i :
  header_in_page iter -> scan_get_field k iter 0 = Ok p ->
  put_fields k iter b i <-> b = blk p /\ pofs p <= i < pofs p + 28.
Proof.
  intros Hh Hp. unfold put_fields, ENTRY_FILE_ID_OFFSET, ENTRY_TOTAL_SIZE_OFFSET,
    ENTRY_EPOCH_OFFSET, ENTRY_OFFSET_OFFSET, ENTRY_TIMESTAMP_OFFSET.
  rewrite !(field_cells_in_page _ _ p) by (auto; lia). split.
  - intros [H|[H|[H|[H|H]]]]; destruct H as [-> H]; split; auto; lia.
  - intros [-> H].
    destruct (decide (i < pofs p + 4)); [left; split; auto; lia|].
    destruct (decide (i < pofs p + 8)); [right; left; split; auto; lia|].
    destruct (decide (i < pofs p + 16)); [right; right; left; split; auto; lia|].
    destruct (decide (i < pofs p + 24));
      [right; right; right; left; split; auto; lia|].
    right; right; right; right; split; auto; lia.
Qed.

Lemma remove_fields_in_page k iter p b i :
  header_in_page iter -> scan_get_field k iter 0 = Ok p ->
  remove_fields k iter b i <-> b = blk p /\ pofs p + 8 <= i < pofs p + 24.
Proof.
  intros Hh Hp. unfold remove_fields, ENTRY_EPOCH_OFFSET, ENTRY_OFFSET_OFFSET.
  rewrite !(field_cells_in_page _ _ p) by (auto; lia). split.
  - intros [H|H]; destruct H as [-> H]; split; auto; lia.
  - intros [-> H].
    destruct (decide (i < pofs p + 16)); [left; split; auto; lia|].
    right; split; auto; lia.
Qed.

(** ** Memory: what a store leaves readable *)

Lemma all_written_map_Some bs : all_written (map Some bs) = Some bs.
Proof. induction bs as [|b bs IH]; simpl; [done|]. by rewrite IH. Qed.

Lemma store_cells_length h p cs h' :
  store_cells h p cs = Ok h' ->
  forall b, length <$> (h' !! b) = length <$> (h !! b).
Proof.
  unfold store_cells. destruct (h !! blk p) as [bl|] eqn:E; [|discriminate].
  destruct (_ && _) eqn:Hb; [|discriminate].
  intros H b. inversion H; subst; clear H.
  apply andb_true_iff in Hb as [H0 H1]. apply Z.leb_le in H0, H1.
  destruct (decide (b = blk p)) as [->|Hne].
  - pose proof (lookup_lt_Some _ _ _ E) as Hlt.
    rewrite (list_lookup_insert_eq h (blk p) _ Hlt), E. cbn. f_equal.
    rewrite !length_app, length_take, length_drop. lia.
  - by rewrite (list_lookup_insert_ne h (blk p) b _ (not_eq_sym Hne)).
Qed.

Lemma load_store_same h p cs h' :
  store_cells h p cs = Ok h' ->
  load_cells h' p (Z.of_nat (length cs)) = Ok cs.
Proof.
  unfold store_cells, load_cells. destruct (h !! blk p) as [bl|] eqn:E; [|discriminate].
  destruct (_ && _) eqn:Hb; [|discriminate].
  intros H. inversion H; subst; clear H.
  apply andb_true_iff in Hb as [H0 H1]. apply Z.leb_le in H0, H1.
  pose proof (lookup_lt_Some _ _ _ E) as Hlt.
  rewrite (list_lookup_insert_eq h (blk p) _ Hlt).
  rewrite !length_app, length_take, length_drop.
  assert (Hc : (0 <=? pofs p) && (0 <=? Z.of_nat (length cs))
               && (pofs p + Z.of_nat (length cs)
                   <=? Z.of_nat (Z.to_nat (pofs p) `min` length bl
                        + (length cs + (length bl - (Z.to_nat (pofs p) + length cs))))%nat)
               = true).
  { rewrite !andb_true_iff, !Z.leb_le. lia. }
  rewrite Hc. f_equal.
  rewrite drop_app_length'; [|rewrite length_take; lia].
  rewrite Nat2Z.id. by rewrite take_app_length.
Qed.

Lemma load_cells_ext h h' p n :
  (forall i, pofs p <= i < pofs p + n ->
             heap_cell h' (blk p) i = heap_cell h (blk p) i) ->
  (length <$> (h' !! blk p)) = (length <$> (h !! blk p)) ->
  load_cells h' p n = load_cells h p n.
Proof.
  unfold load_cells, heap_cell. intros Hc Hl.
  destruct (h !! blk p) as [bl|] eqn:E, (h' !! blk p) as [bl'|] eqn:E';
    cbn in Hl; try discriminate; [|reflexivity].
  assert (Hlen : length bl' = length bl) by congruence.
  rewrite Hlen.
  destruct (_ && _) eqn:Hb; [|reflexivity].
  apply andb_true_iff in Hb as [Hb H2]. apply andb_true_iff in Hb as [H0 H1].
  apply Z.leb_le in H0, H1, H2. f_equal.
  apply list_eq. intros j.
  destruct (decide (j < Z.to_nat n)%nat) as [Hj|Hj].
  - rewrite !lookup_take_lt, !lookup_drop by exact Hj.
    specialize (Hc (pofs p + Z.of_nat j) ltac:(lia)).
    unfold nthZ in Hc. destruct (_ <? 0) eqn:Hn; [apply Z.ltb_lt in Hn; lia|].
    replace (Z.to_nat (pofs p + Z.of_nat j)) with (Z.to_nat (pofs p) + j)%nat in Hc by lia.
    exact Hc.
  - rewrite !lookup_take_ge by lia. reflexivity.
Qed.

Lemma load_store_other h p cs h' q n :
  store_cells h p cs = Ok h' ->
  blk q <> blk p \/ pofs q + n <= pofs p \/ pofs p + Z.of_nat (length cs) <= pofs q ->
  load_cells h' q n = load_cells h q n.
Proof.
  intros Hs Hd. apply load_cells_ext.
  - intros i Hi. eapply store_cells_other; [exact Hs|]. intros [Hb Hr]. lia.
  - eapply store_cells_length; eauto.
Qed.

Lemma le_decode_encode n : forall v, 0 <= v ->
  le_decode (le_encode n v) = v mod 2 ^ (8 * Z.of_nat n).
Proof.
  induction n as [|n IH]; intros v Hv.
  - cbn. by rewrite Z.mod_1_r.
  - cbn [le_encode le_decode]. rewrite IH by (apply Z.div_pos; lia).
    replace (8 * Z.of_nat (S n)) with (8 + 8 * Z.of_nat n) by lia.
    rewrite Z.pow_add_r by lia. change (2 ^ 8) with 256.
    rewrite Z.rem_mul_r by lia. reflexivity.
Qed.

(** ** In-place update: what is read back *)

Lemma scan_get_field_page_data k k' iter f :
  (forall r, page_data_of k' r = page_data_of k r) ->
  scan_get_field k' iter f = scan_get_field k iter f.
Proof.
  intros Hd. unfold scan_get_field.
  destruct (rd (nthZ (it_pages iter) _)) as [pi|]; [|reflexivity]. cbn [bind].
  specialize (Hd (pi_page pi)). unfold page_data_of in Hd.
  destruct (read_page k' (pi_page pi)) as [pg'|], (read_page k (pi_page pi)) as [pg|];
    cbn [bind] in *; congruence.
Qed.

Lemma nthZ_insert_same {A} (l : list A) i x y :
  nthZ l i = Some y -> nthZ (<[Z.to_nat i := x]> l) i = Some x.
Proof.
  unfold nthZ. destruct (i <? 0) eqn:E; [discriminate|]. intros H.
  apply list_lookup_insert_eq. by apply lookup_lt_Some in H.
Qed.

Lemma nthZ_insert_other {A} (l : list A) i j x y :
  nthZ l i = Some y -> j <> i -> nthZ (<[Z.to_nat i := x]> l) j = nthZ l j.
Proof.
  unfold nthZ. destruct (i <? 0) eqn:E; [discriminate|]. apply Z.ltb_ge in E.
  intros _ Hne. destruct (j <? 0) eqn:E'; [done|]. apply Z.ltb_ge in E'.
  apply list_lookup_insert_ne. lia.
Qed.

Lemma write_page_page_data k r0 p0 p k' :
  read_page k r0 = Ok p0 -> page_data p = page_data p0 ->
  write_page k r0 p = Ok k' ->
  kd_heap k' = kd_heap k /\ forall r, page_data_of k' r = page_data_of k r.
Proof.
  intros Hr Hd Hw. destruct r0 as [i|a s]; cbn [read_page write_page] in *.
  - unfold read_mem_page in *.
    destruct (nthZ (kd_mem_pages k) i) as [m|] eqn:Hm; [|discriminate].
    cbn [rd bind] in *. inversion Hr; subst p0; clear Hr.
    unfold write_mem_page in Hw. rewrite Hm in Hw. inversion Hw; subst k'; clear Hw.
    split; [reflexivity|]. intros [j|a s]; unfold page_data_of; cbn [read_page].
    + unfold read_mem_page. cbn [kd_mem_pages set_mem_pages].
      destruct (decide (j = i)) as [->|Hne].
      * rewrite (nthZ_insert_same _ _ _ _ Hm), Hm. cbn. by rewrite Hd.
      * by rewrite (nthZ_insert_other _ _ _ _ _ Hm Hne).
    + reflexivity.
  - destruct (kd_swap_pages k !! a) as [arr|] eqn:Ha; [|discriminate].
    cbn [rd bind] in *.
    destruct (nthZ (sa_pages arr) s) as [pg|] eqn:Hs; [|discriminate].
    cbn [rd] in Hr. inversion Hr; subst p0; clear Hr.
    inversion Hw; subst k'; clear Hw.
    split; [reflexivity|]. intros [j|a' s']; unfold page_data_of; cbn [read_page].
    + reflexivity.
    + cbn [kd_swap_pages set_swap_pages].
      destruct (decide (a' = a)) as [->|Hne].
      * rewrite list_lookup_insert_eq by (by apply lookup_lt_Some in Ha).
        rewrite Ha. cbn [rd bind sa_pages].
        destruct (decide (s' = s)) as [->|Hns].
        -- rewrite (nthZ_insert_same _ _ _ _ Hs), Hs. cbn. by rewrite Hd.
        -- by rewrite (nthZ_insert_other _ _ _ _ _ Hs Hns).
      * by rewrite list_lookup_insert_ne.
Qed.

Lemma unlock_page_page_data k r0 k' :
  unlock_page k r0 = Ok k' ->
  kd_heap k' = kd_heap k /\ forall r, page_data_of k' r = page_data_of k r.
Proof.
  unfold unlock_page. intros H.
  apply bind_Ok in H as (p0 & Hr & H). apply bind_Ok in H as (m & _ & H).
  by apply (write_page_page_data k r0 p0 (set_page_mutex p0 m) k' Hr).
Qed.

Lemma unlock_pages_page_data pages : forall k k',
  unlock_pages k pages = Ok k' ->
  kd_heap k' = kd_heap k /\ forall r, page_data_of k' r = page_data_of k r.
Proof.
  induction pages as [|pi rest IH]; cbn [unlock_pages]; intros k k' H.
  - inversion H. auto.
  - apply bind_Ok in H as (k1 & H1 & H).
    apply unlock_page_page_data in H1 as [Hh1 Hd1].
    apply IH in H as [Hh Hd]. split; [congruence|]. intros r. by rewrite Hd, Hd1.
Qed.

(** What [unlock_pages] leaves alone: every read of a header field. *)
Lemma unlock_pages_reads pages k k' iter :
  unlock_pages k pages = Ok k' ->
  (forall f, scan_get_uint32 k' iter f = scan_get_uint32 k iter f)
  /\ (forall f, scan_get_uint64 k' iter f = scan_get_uint64 k iter f).
Proof.
  intros H. apply unlock_pages_page_data in H as [Hh Hd].
  split; intros f; unfold scan_get_uint32, scan_get_uint64;
    rewrite (scan_get_field_page_data k k' iter f Hd), Hh; reflexivity.
Qed.

Lemma load_bytes_store_other h p bs h' q n :
  store_bytes h p bs = Ok h' -> apart p (Z.of_nat (length bs)) q n ->
  load_bytes h' q n = load_bytes h q n.
Proof.
  unfold store_bytes, load_bytes, apart. intros H Hd.
  rewrite (load_store_other _ _ _ _ q n H); [reflexivity|]. by rewrite length_map.
Qed.

Lemma load_bytes_store_same h p bs h' :
  store_bytes h p bs = Ok h' -> load_bytes h' p (Z.of_nat (length bs)) = Ok bs.
Proof.
  unfold store_bytes, load_bytes. intros H. apply load_store_same in H.
  rewrite length_map in H. rewrite H. cbn [bind]. by rewrite all_written_map_Some.
Qed.

(** Fields that share no cell lie apart. *)
Lemma field_cells_apart k iter f wf g wg p q :
  0 < wf -> 0 < wg ->
  (forall b i, field_cells k iter f wf b i -> ~ field_cells k iter g wg b i) ->
  scan_get_field k iter f = Ok p -> scan_get_field k iter g = Ok q ->
  apart p wf q wg.
Proof.
  intros Hf Hg Hdis Hp Hq. unfold apart.
  destruct (decide (blk q = blk p)) as [Hb|Hb]; [|by left]. right.
  destruct (Z_le_gt_dec (pofs q + wg) (pofs p)) as [?|H1]; [by left|].
  destruct (Z_le_gt_dec (pofs p + wf) (pofs q)) as [?|H2]; [by right|].
  exfalso. apply (Hdis (blk p) (Z.max (pofs p) (pofs q))).
  - exists p. split; [done|]. split; [done|]. lia.
  - exists q. split; [done|]. split; [done|]. lia.
Qed.

Lemma u32_idem x : u32 (u32 x) = u32 x.
Proof. unfold u32. apply Z.mod_mod. lia. Qed.

Lemma u64_idem x : u64 (u64 x) = u64 x.
Proof. unfold u64. apply Z.mod_mod. lia. Qed.

Lemma le_decode_encode_u32 v : le_decode (le_encode 4 (u32 v)) = u32 v.
Proof.
  rewrite le_decode_encode by (unfold u32; apply Z.mod_pos_bound; lia).
  apply u32_idem.
Qed.

Lemma le_decode_encode_u64 v : le_decode (le_encode 8 (u64 v)) = u64 v.
Proof.
  rewrite le_decode_encode by (unfold u64; apply Z.mod_pos_bound; lia).
  apply u64_idem.
Qed.

(** A store of [bs] at field [f] of the entry under the iterator: the
    field pointers stay, the field reads back as [bs], and a field that
    shares no cell with it reads as before. *)
Lemma field_store_reads k iter f bs p h' :
  (0 < length bs)%nat ->
  scan_get_field k iter f = Ok p ->
  store_bytes (kd_heap k) p bs = Ok h' ->
  let k' := set_heap k h' in
  (forall g, scan_get_field k' iter g = scan_get_field k iter g)
  /\ load_bytes h' p (Z.of_nat (length bs)) = Ok bs
  /\ (forall g wg q, 0 < wg ->
        field_alone k iter f (Z.of_nat (length bs)) g wg ->
        scan_get_field k iter g = Ok q ->
        load_bytes h' q wg = load_bytes (kd_heap k) q wg).
Proof.
  intros Hl Hp Hs k'. split; [reflexivity|]. split.
  - exact (load_bytes_store_same _ _ _ _ Hs).
  - intros g wg q Hwg Hal Hq. apply (load_bytes_store_other _ _ _ _ _ _ Hs).
    apply (field_cells_apart k iter f _ g wg); auto. lia.
Qed.

Lemma scan_set_uint32_reads k iter f v k' :
  scan_set_uint32 k iter f v = Ok k' ->
  (forall g, scan_get_field k' iter g = scan_get_field k iter g)
  /\ scan_get_uint32 k' iter f = Ok (u32 v)
  /\ (forall g, field_alone k iter f 4 g 4 ->
        scan_get_uint32 k' iter g = scan_get_uint32 k iter g)
  /\ (forall g, field_alone k iter f 4 g 8 ->
        scan_get_uint64 k' iter g = scan_get_uint64 k iter g).
Proof.
  unfold scan_set_uint32. intros H.
  apply bind_Ok in H as (p & Hp & H). apply bind_Ok in H as (h' & Hs & H).
  inversion H; subst k'; clear H.
  assert (Hlen : (0 < length (le_encode 4 (u32 v)))%nat)
    by (rewrite length_le_encode; lia).
  destruct (field_store_reads k iter f _ p h' Hlen Hp Hs) as (Hptr & Hsame & Hother).
  rewrite length_le_encode in Hsame, Hother. change (Z.of_nat 4) with 4 in *.
  split; [exact Hptr|]. split; [|split].
  - unfold scan_get_uint32. rewrite Hptr, Hp. cbn [bind kd_heap set_heap].
    rewrite Hsame. cbn [bind]. by rewrite le_decode_encode_u32.
  - intros g Hal. unfold scan_get_uint32. rewrite Hptr.
    destruct (scan_get_field k iter g) as [q|] eqn:Hq; [|reflexivity].
    cbn [bind kd_heap set_heap]. by rewrite (Hother g 4 q ltac:(lia) Hal Hq).
  - intros g Hal. unfold scan_get_uint64. rewrite Hptr.
    destruct (scan_get_field k iter g) as [q|] eqn:Hq; [|reflexivity].
    cbn [bind kd_heap set_heap]. by rewrite (Hother g 8 q ltac:(lia) Hal Hq).
Qed.

Lemma scan_set_uint64_reads k iter f v k' :
  scan_set_uint64 k iter f v = Ok k' ->
  (forall g, scan_get_field k' iter g = scan_get_field k iter g)
  /\ scan_get_uint64 k' iter f = Ok (u64 v)
  /\ (forall g, field_alone k iter f 8 g 4 ->
        scan_get_uint32 k' iter g = scan_get_uint32 k iter g)
  /\ (forall g, field_alone k iter f 8 g 8 ->
        scan_get_uint64 k' iter g = scan_get_uint64 k iter g).
Proof.
  unfold scan_set_uint64. intros H.
  apply bind_Ok in H as (p & Hp & H). apply bind_Ok in H as (h' & Hs & H).
  inversion H; subst k'; clear H.
  assert (Hlen : (0 < length (le_encode 8 (u64 v)))%nat)
    by (rewrite length_le_encode; lia).
  destruct (field_store_reads k iter f _ p h' Hlen Hp Hs) as (Hptr & Hsame & Hother).
  rewrite length_le_encode in Hsame, Hother. change (Z.of_nat 8) with 8 in *.
  split; [exact Hptr|]. split; [|split].
  - unfold scan_get_uint64. rewrite Hptr, Hp. cbn [bind kd_heap set_heap].
    rewrite Hsame. cbn [bind]. by rewrite le_decode_encode_u64.
  - intros g Hal. unfold scan_get_uint32. rewrite Hptr.
    destruct (scan_get_field k iter g) as [q|] eqn:Hq; [|reflexivity].
    cbn [bind kd_heap set_heap]. by rewrite (Hother g 4 q ltac:(lia) Hal Hq).
  - intros g Hal. unfold scan_get_uint64. rewrite Hptr.
    destruct (scan_get_field k iter g) as [q|] eqn:Hq; [|reflexivity].
    cbn [bind kd_heap set_heap]. by rewrite (Hother g 8 q ltac:(lia) Hal Hq).
Qed.

Lemma fields_apart_pointers k k' iter :
  (forall g, scan_get_field k' iter g = scan_get_field k iter g) ->
  fields_apart k iter -> fields_apart k' iter.
Proof.
  intros Hptr Hap f wf g wg Hf Hg Hne b i (p & Hp & Hb & Hr) (q & Hq & Hb' & Hr').
  rewrite Hptr in Hp, Hq.
  apply (Hap f wf g wg Hf Hg Hne b i); [by exists p | by exists q].
Qed.

Lemma fields_apart_alone k iter f wf g wg :
  fields_apart k iter ->
  In (f, wf) header_fields -> In (g, wg) header_fields -> f <> g ->
  field_alone k iter f wf g wg.
Proof. intros Hap Hf Hg Hne. exact (Hap f wf g wg Hf Hg Hne). Qed.

(** Discharges the side condition of a read that follows a store to
    another header field. *)
Ltac alone Hap :=
  apply (fields_apart_alone _ _ _ _ _ _ Hap);
  [ unfold header_fields; cbn [In]; tauto
  | unfold header_fields; cbn [In]; tauto
  | discriminate ].

(** [update_entry] read back: the five fields hold the values of the
    entry, the link and the key size read as before. *)
Lemma update_entry_reads k iter e k' :
  fields_apart k iter ->
  update_entry k iter e = Ok k' ->
  scan_get_file_id k' iter = Ok (u32 (e_file_id e))
  /\ scan_get_total_size k' iter = Ok (u32 (e_total_size e))
  /\ scan_get_epoch k' iter = Ok (u64 (e_epoch e))
  /\ scan_get_offset k' iter = Ok (u64 (e_offset e))
  /\ scan_get_timestamp k' iter = Ok (u32 (e_timestamp e))
  /\ scan_get_next k' iter = scan_get_next k iter
  /\ scan_get_key_size k' iter = scan_get_key_size k iter.
Proof.
  unfold update_entry, scan_set_file_id, scan_set_offset, scan_set_total_size,
    scan_set_timestamp, scan_set_epoch, scan_get_file_id, scan_get_total_size,
    scan_get_epoch, scan_get_offset, scan_get_timestamp, scan_get_next,
    scan_get_key_size.
  intros A0 H.
  apply bind_Ok in H as (k1 & H1 & H). apply bind_Ok in H as (k2 & H2 & H).
  apply bind_Ok in H as (k3 & H3 & H). apply bind_Ok in H as (k4 & H4 & H5).
  apply scan_set_uint32_reads in H1 as (P1 & S1 & O1 & O1').
  pose proof (fields_apart_pointers _ _ _ P1 A0) as A1.
  apply scan_set_uint64_reads in H2 as (P2 & S2 & O2 & O2').
  pose proof (fields_apart_pointers _ _ _ P2 A1) as A2.
  apply scan_set_uint32_reads in H3 as (P3 & S3 & O3 & O3').
  pose proof (fields_apart_pointers _ _ _ P3 A2) as A3.
  apply scan_set_uint32_reads in H4 as (P4 & S4 & O4 & O4').
  pose proof (fields_apart_pointers _ _ _ P4 A3) as A4.
  apply scan_set_uint64_reads in H5 as (P5 & S5 & O5 & O5').
  repeat split.
  - rewrite O5, O4, O3, O2; [exact S1 | alone A1 | alone A2 | alone A3 | alone A4].
  - rewrite O5, O4; [exact S3 | alone A3 | alone A4].
  - exact S5.
  - rewrite O5', O4', O3'; [exact S2 | alone A2 | alone A3 | alone A4].
  - rewrite O5; [exact S4 | alone A4].
  - rewrite O5, O4, O3, O2, O1;
      [reflexivity | alone A0 | alone A1 | alone A2 | alone A3 | alone A4].
  - rewrite O5, O4, O3, O2, O1;
      [reflexivity | alone A0 | alone A1 | alone A2 | alone A3 | alone A4].
Qed.

(** The two stores of an in-place remove read back: offset and epoch hold
    the new values, the other header fields read as before. *)
Lemma remove_in_place_reads k iter epoch k1 k' :
  fields_apart k iter ->
  scan_set_offset k iter MAX_OFFSET = Ok k1 ->
  scan_set_epoch k1 iter epoch = Ok k' ->
  scan_get_offset k' iter = Ok MAX_OFFSET
  /\ scan_get_epoch k' iter = Ok (u64 epoch)
  /\ scan_get_file_id k' iter = scan_get_file_id k iter
  /\ scan_get_total_size k' iter = scan_get_total_size k iter
  /\ scan_get_timestamp k' iter = scan_get_timestamp k iter
  /\ scan_get_next k' iter = scan_get_next k iter
  /\ scan_get_key_size k' iter = scan_get_key_size k iter.
Proof.
  unfold scan_set_offset, scan_set_epoch, scan_get_file_id, scan_get_total_size,
    scan_get_epoch, scan_get_offset, scan_get_timestamp, scan_get_next,
    scan_get_key_size.
  intros A0 H1 H2.
  apply scan_set_uint64_reads in H1 as (P1 & S1 & O1 & O1').
  pose proof (fields_apart_pointers _ _ _ P1 A0) as A1.
  apply scan_set_uint64_reads in H2 as (P2 & S2 & O2 & O2').
  repeat split.
  - rewrite O2'; [exact S1 | alone A1].
  - exact S2.
  - rewrite O2, O1; [reflexivity | alone A0 | alone A1].
  - rewrite O2, O1; [reflexivity | alone A0 | alone A1].
  - rewrite O2, O1; [reflexivity | alone A0 | alone A1].
  - rewrite O2, O1; [reflexivity | alone A0 | alone A1].
  - rewrite O2, O1; [reflexivity | alone A0 | alone A1].
Qed.

(** A header that lies in one page has its fields apart. *)
Lemma header_in_page_fields_apart k iter :
  header_in_page iter -> fields_apart k iter.
Proof.
  intros Hh f wf g wg Hf Hg Hne b i Hcf Hcg.
  assert (Hrange : forall x w, In (x, w) header_fields -> 0 <= x <= 32).
  { intros x w Hin. unfold header_fields in Hin. cbn [In] in Hin.
    unfold ENTRY_FILE_ID_OFFSET, ENTRY_TOTAL_SIZE_OFFSET, ENTRY_EPOCH_OFFSET,
      ENTRY_OFFSET_OFFSET, ENTRY_TIMESTAMP_OFFSET, ENTRY_NEXT_OFFSET,
      ENTRY_KEY_SIZE_OFFSET in Hin.
    repeat destruct Hin as [Hin|Hin]; first [done | inversion Hin; lia]. }
  destruct (scan_get_field k iter 0) as [p|] eqn:Hp.
  - apply (field_cells_in_page k iter p f wf b i Hh (Hrange f wf Hf) Hp) in Hcf.
    apply (field_cells_in_page k iter p g wg b i Hh (Hrange g wg Hg) Hp) in Hcg.
    unfold header_fields in Hf, Hg. cbn [In] in Hf, Hg.
    unfold ENTRY_FILE_ID_OFFSET, ENTRY_TOTAL_SIZE_OFFSET, ENTRY_EPOCH_OFFSET,
      ENTRY_OFFSET_OFFSET, ENTRY_TIMESTAMP_OFFSET, ENTRY_NEXT_OFFSET,
      ENTRY_KEY_SIZE_OFFSET in Hf, Hg.
    repeat destruct Hf as [Hf|Hf]; try done; inversion Hf; subst f wf;
      repeat destruct Hg as [Hg|Hg]; try done; inversion Hg; subst g wg; lia.
  - destruct Hcf as (q & Hq & _).
    rewrite (scan_get_field_in_page k iter f Hh (Hrange f wf Hf)), Hp in Hq.
    discriminate.
Qed.

(** C8. In-place update. When the scan finds the key, the conditional
    test passes and [min_epoch] is greater than the fresh epoch,
    [keydir_put] returns OK, changes no chain size, and changes no cell of
    memory outside the file_id, total_size, epoch, offset and timestamp
    fields of the entry found; [keydir_remove] returns OK, changes no chain
    size, and changes no cell outside the epoch and offset fields.
    What is stored is read back from the keydir the operation returns:
    after [keydir_put] the file_id, offset, total_size and timestamp of the
    entry found are those of the caller's entry and its epoch is the fresh
    epoch, while the next field and the key size read as before; after
    [keydir_remove] the offset is [MAX_OFFSET] and the epoch is the fresh
    epoch, while file_id, total_size, timestamp, next and key size read as
    before. The epoch, stored last, reads back in every case; the other
    read-backs ask that distinct header fields occupy distinct cells,
    which holds whenever the header lies in one page. In that case
    the cells [keydir_put] may change are exactly bytes 0..27 of the entry
    and those [keydir_remove] may change are bytes 8..23: the next field
    (28..31), key_size (32..35), the key bytes and every other entry are
    left as they were. *)
Theorem in_place_update_frame hash env fuel k key key_size
    old_file_id old_offset k1 iter :
  let epoch := u64 (kd_epoch k + 1) in
  scan_for_key hash env fuel (set_epoch k epoch) key key_size epoch = Ok (k1, iter) ->
  it_found iter = true ->
  entry_changed k1 iter old_file_id old_offset = Ok false ->
  epoch < kd_min_epoch k ->
  (forall entry k' entry' rc,
     e_key entry = key -> e_key_size entry = key_size ->
     keydir_put hash env (S fuel) k entry old_file_id old_offset
       = Ok (k', entry', rc) ->
     rc = KEYDIR_PUT_OK /\ chain_sizes k' = chain_sizes k /\
     (forall b i c, heap_cell (kd_heap k) b i = Some c ->
                    ~ put_fields k1 iter b i ->
                    heap_cell (kd_heap k') b i = Some c) /\
     entry' = set_e_epoch entry epoch /\
     scan_get_epoch k' iter = Ok epoch /\
     (fields_apart k1 iter ->
      scan_get_file_id k' iter = Ok (u32 (e_file_id entry))
      /\ scan_get_offset k' iter = Ok (u64 (e_offset entry))
      /\ scan_get_total_size k' iter = Ok (u32 (e_total_size entry))
      /\ scan_get_timestamp k' iter = Ok (u32 (e_timestamp entry))
      /\ scan_get_next k' iter = scan_get_next k1 iter
      /\ scan_get_key_size k' iter = scan_get_key_size k1 iter))
  /\
  (forall k' rc,
     keydir_remove hash env (S fuel) k key key_size old_file_id old_offset
       = Ok (k', rc) ->
     rc = KEYDIR_PUT_OK /\ chain_sizes k' = chain_sizes k /\
     (forall b i c, heap_cell (kd_heap k) b i = Some c ->
                    ~ remove_fields k1 iter b i ->
                    heap_cell (kd_heap k') b i = Some c) /\
     scan_get_epoch k' iter = Ok epoch /\
     (fields_apart k1 iter ->
      scan_get_offset k' iter = Ok MAX_OFFSET
      /\ scan_get_file_id k' iter = scan_get_file_id k1 iter
      /\ scan_get_total_size k' iter = scan_get_total_size k1 iter
      /\ scan_get_timestamp k' iter = scan_get_timestamp k1 iter
      /\ scan_get_next k' iter = scan_get_next k1 iter
      /\ scan_get_key_size k' iter = scan_get_key_size k1 iter))
  /\
  (header_in_page iter ->
   forall p, scan_get_field k1 iter 0 = Ok p ->
   forall b i,
     (put_fields k1 iter b i <-> b = blk p /\ pofs p <= i < pofs p + 28)
     /\ (remove_fields k1 iter b i
         <-> b = blk p /\ pofs p + 8 <= i < pofs p + 24))
  /\
  (header_in_page iter -> fields_apart k1 iter).
Proof.
  intros epoch Hscan Hfound Hcas Hmin.
  pose proof (scan_for_key_frame _ _ _ _ _ _ _ _ _ Hscan) as Hfr.
  assert (Hm : (epoch <? kd_min_epoch k1) = true).
  { apply Z.ltb_lt. destruct Hfr as [_ _ _ M _]. cbn in M. lia. }
  assert (Hep : u64 epoch = epoch) by apply u64_idem.
  split; [|split; [|split]].
  - intros entry k' entry' rc <- <- Hput.
    cbn [keydir_put bc_atomic_incr64 set_e_epoch e_key e_key_size e_epoch] in Hput.
    fold epoch in Hput. rewrite Hscan in Hput. cbn [bind] in Hput.
    rewrite Hfound, Hcas in Hput. cbn [bind] in Hput. rewrite Hm in Hput.
    apply bind_Ok in Hput as (k2 & Hw & Hput).
    apply bind_Ok in Hput as (k3 & Hu & Hput).
    inversion Hput; subst; clear Hput.
    unfold free_scan_iter in Hu.
    pose proof (update_entry_writes _ _ _ _ Hw) as Hwr.
    pose proof (unlock_pages_frame _ _ _ Hu) as Hufr.
    split; [reflexivity|]. split; [|split; [|split; [|split]]].
    + change (chain_sizes k) with (chain_sizes (set_epoch k epoch)).
      exact (frame_then_writes_sizes _ _ _ _ _ Hfr Hwr Hufr).
    + intros b i c Hc Hout.
      change (kd_heap k) with (kd_heap (set_epoch k epoch)) in Hc.
      exact (frame_then_writes _ _ _ _ _ _ _ _ Hfr Hwr Hufr Hc Hout).
    + reflexivity.
    + destruct (unlock_pages_reads _ _ _ iter Hu) as [_ U64].
      unfold scan_get_epoch. rewrite U64.
      unfold update_entry in Hw.
      apply bind_Ok in Hw as (? & _ & Hw). apply bind_Ok in Hw as (? & _ & Hw).
      apply bind_Ok in Hw as (? & _ & Hw). apply bind_Ok in Hw as (? & _ & Hw).
      unfold scan_set_epoch in Hw.
      apply scan_set_uint64_reads in Hw as (_ & Hrd & _).
      etransitivity; [exact Hrd|]. f_equal. exact Hep.
    + intros Hap.
      destruct (update_entry_reads _ _ _ _ Hap Hw)
        as (R1 & R2 & R3 & R4 & R5 & R6 & R7).
      destruct (unlock_pages_reads _ _ _ iter Hu) as [U32 U64].
      unfold scan_get_file_id, scan_get_total_size, scan_get_epoch, scan_get_offset,
        scan_get_timestamp, scan_get_next, scan_get_key_size in *.
      rewrite !U32, !U64.
      split; [exact R1|]. split; [exact R4|]. split; [exact R2|]. split; [exact R5|].
      split; [exact R6 | exact R7].
  - intros k' rc Hrem.
    cbn [keydir_remove bc_atomic_incr64] in Hrem.
    fold epoch in Hrem. rewrite Hscan in Hrem. cbn [bind] in Hrem.
    rewrite Hfound, Hcas in Hrem. cbn [bind] in Hrem. rewrite Hm in Hrem.
    apply bind_Ok in Hrem as (k2 & Hw1 & Hrem).
    apply bind_Ok in Hrem as (k3 & Hw2 & Hrem).
    apply bind_Ok in Hrem as (k4 & Hu & Hrem).
    inversion Hrem; subst; clear Hrem.
    unfold free_scan_iter in Hu.
    pose proof (remove_in_place_writes _ _ _ _ _ Hw1 Hw2) as Hwr.
    pose proof (unlock_pages_frame _ _ _ Hu) as Hufr.
    split; [reflexivity|]. split; [|split; [|split]].
    + change (chain_sizes k) with (chain_sizes (set_epoch k epoch)).
      exact (frame_then_writes_sizes _ _ _ _ _ Hfr Hwr Hufr).
    + intros b i c Hc Hout.
      change (kd_heap k) with (kd_heap (set_epoch k epoch)) in Hc.
      exact (frame_then_writes _ _ _ _ _ _ _ _ Hfr Hwr Hufr Hc Hout).
    + destruct (unlock_pages_reads _ _ _ iter Hu) as [_ U64].
      unfold scan_get_epoch. rewrite U64.
      pose proof Hw2 as Hw2'. unfold scan_set_epoch in Hw2'.
      apply scan_set_uint64_reads in Hw2' as (_ & Hrd & _).
      etransitivity; [exact Hrd|]. f_equal. exact Hep.
    + intros Hap.
      destruct (remove_in_place_reads _ _ _ _ _ Hap Hw1 Hw2)
        as (R1 & R2 & R3 & R4 & R5 & R6 & R7).
      destruct (unlock_pages_reads _ _ _ iter Hu) as [U32 U64].
      unfold scan_get_file_id, scan_get_total_size, scan_get_epoch, scan_get_offset,
        scan_get_timestamp, scan_get_next, scan_get_key_size in *.
      rewrite !U32, !U64.
      split; [exact R1|]. auto 10.
  - intros Hh p Hp b i. split.
    + by apply put_fields_in_page.
    + by apply remove_fields_in_page.
  - intros Hh. by apply header_in_page_fields_apart.
Qed.

(** Runs a closed call once and names its result. *)
Ltac run_as x t :=
  let r := eval vm_compute in t in
  lazymatch r with
  | Some ?v => pose (x := v)
  | Ok ?v => pose (x := v)
  end.

Lemma in_place_update_frame_witness :
  exists k0 k e0 k1 iter p,
    fresh_keydir 1 1 None = Some k0 /\
    keydir_put zero_hash ok_env 8 k0 (new_entry key_k 1 10 50 1000) 0 0
      = Ok (k, e0, KEYDIR_PUT_OK) /\
    scan_for_key zero_hash ok_env 7 (set_epoch k 2) key_k 1 2 = Ok (k1, iter) /\
    scan_get_field k1 iter 0 = Ok p /\
    (exists k' e',
       keydir_put zero_hash ok_env 8 k (new_entry key_k 2 20 51 1001) 1 10
         = Ok (k', e', KEYDIR_PUT_OK) /\
       chain_sizes k' = chain_sizes k /\
       (forall b i c, heap_cell (kd_heap k) b i = Some c ->
                      ~ (b = blk p /\ pofs p <= i < pofs p + 28) ->
                      heap_cell (kd_heap k') b i = Some c) /\
       e_epoch e' = 2 /\
       scan_get_file_id k' iter = Ok 2 /\
       scan_get_offset k' iter = Ok 20 /\
       scan_get_total_size k' iter = Ok 51 /\
       scan_get_timestamp k' iter = Ok 1001 /\
       scan_get_epoch k' iter = Ok 2 /\
       scan_get_next k' iter = Ok 0 /\
       scan_get_key_size k' iter = Ok 1) /\
    (exists k',
       keydir_remove zero_hash ok_env 8 k key_k 1 1 10 = Ok (k', KEYDIR_PUT_OK) /\
       chain_sizes k' = chain_sizes k /\
       (forall b i c, heap_cell (kd_heap k) b i = Some c ->
                      ~ (b = blk p /\ pofs p + 8 <= i < pofs p + 24) ->
                      heap_cell (kd_heap k') b i = Some c) /\
       scan_get_offset k' iter = Ok MAX_OFFSET /\
       scan_get_epoch k' iter = Ok 2 /\
       scan_get_file_id k' iter = Ok 1 /\
       scan_get_total_size k' iter = Ok 50 /\
       scan_get_timestamp k' iter = Ok 1000 /\
       scan_get_next k' iter = Ok 0 /\
       scan_get_key_size k' iter = Ok 1).
Proof.
  run_as k0 (fresh_keydir 1 1 None).
  run_as r1 (keydir_put zero_hash ok_env 8 k0 (new_entry key_k 1 10 50 1000) 0 0).
  pose (k := fst (fst r1)).
  run_as r2 (scan_for_key zero_hash ok_env 7 (set_epoch k 2) key_k 1 2).
  pose (k1 := fst r2). pose (iter := snd r2).
  run_as p (scan_get_field k1 iter 0).
  run_as r3 (keydir_put zero_hash ok_env 8 k (new_entry key_k 2 20 51 1001) 1 10).
  run_as r4 (keydir_remove zero_hash ok_env 8 k key_k 1 1 10).
  destruct (in_place_update_frame zero_hash ok_env 7 k key_k 1 1 10 k1 iter)
    as (Hput & Hrem & Hgeo & Hapart);
    [ vm_compute; reflexivity | reflexivity | vm_compute; reflexivity
    | vm_compute; reflexivity | ].
  assert (Hh : header_in_page iter) by (repeat split; vm_compute; congruence).
  specialize (Hgeo Hh p ltac:(vm_compute; reflexivity)).
  specialize (Hapart Hh).
  exists k0, k, (snd (fst r1)), k1, iter, p.
  split; [vm_compute; reflexivity|].
  split; [vm_compute; reflexivity|].
  split; [vm_compute; reflexivity|].
  split; [vm_compute; reflexivity|].
  split.
  - destruct (Hput (new_entry key_k 2 20 51 1001) (fst (fst r3)) (snd (fst r3))
                KEYDIR_PUT_OK eq_refl eq_refl ltac:(vm_compute; reflexivity))
      as (_ & Hs & Hf & He & R5 & Hrd).
    destruct (Hrd Hapart) as (R1 & R2 & R3 & R4 & R6 & R7).
    exists (fst (fst r3)), (snd (fst r3)).
    split; [vm_compute; reflexivity|].
    split; [exact Hs|]. split.
    { intros b i c Hc Hout. apply (Hf b i c Hc). intros Hin. apply Hout.
      by apply Hgeo. }
    split; [reflexivity|].
    split; [etransitivity; [exact R1 | vm_compute; reflexivity]|].
    split; [etransitivity; [exact R2 | vm_compute; reflexivity]|].
    split; [etransitivity; [exact R3 | vm_compute; reflexivity]|].
    split; [etransitivity; [exact R4 | vm_compute; reflexivity]|].
    split; [etransitivity; [exact R5 | vm_compute; reflexivity]|].
    split; [etransitivity; [exact R6 | vm_compute; reflexivity]|].
    etransitivity; [exact R7 | vm_compute; reflexivity].
  - destruct (Hrem (fst r4) KEYDIR_PUT_OK ltac:(vm_compute; reflexivity))
      as (_ & Hs & Hf & R2 & Hrd).
    destruct (Hrd Hapart) as (R1 & R3 & R4 & R5 & R6 & R7).
    exists (fst r4).
    split; [vm_compute; reflexivity|].
    split; [exact Hs|]. split.
    { intros b i c Hc Hout. apply (Hf b i c Hc). intros Hin. apply Hout.
      by apply Hgeo. }
    split; [etransitivity; [exact R1 | vm_compute; reflexivity]|].
    split; [etransitivity; [exact R2 | vm_compute; reflexivity]|].
    split; [etransitivity; [exact R3 | vm_compute; reflexivity]|].
    split; [etransitivity; [exact R4 | vm_compute; reflexivity]|].
    split; [etransitivity; [exact R5 | vm_compute; reflexivity]|].
    split; [etransitivity; [exact R6 | vm_compute; reflexivity]|].
    etransitivity; [exact R7 | vm_compute; reflexivity].
Defined.

(** ** What the operations leave alone *)

(** X1. [keydir_get] changes no cell of memory, no chain size and no
    epoch. *)
Theorem keydir_get_frame hash env fuel k key key_size epoch r k' r' rc :
  keydir_get hash env fuel k key key_size epoch r = Ok (k', r', rc) ->
  kd_frame k k'.
Proof.
  unfold keydir_get, free_scan_iter. intros H. repeat inv_step.
  all: frames ltac:(fun H =>
         first [ apply scan_for_key_frame in H | apply unlock_pages_frame in H ]);
       chain.
Qed.

Lemma keydir_get_frame_witness :
  exists k0 k1 e1 k2 r,
    fresh_keydir 1 1 None = Some k0 /\
    keydir_put zero_hash ok_env 8 k0 (new_entry key_k 1 100 50 1000) 0 0
      = Ok (k1, e1, KEYDIR_PUT_OK) /\
    keydir_get zero_hash ok_env 8 k1 key_k 1 MAX_EPOCH blank_entry
      = Ok (k2, r, KEYDIR_GET_FOUND) /\
    e_file_id r = 1 /\ e_offset r = 100 /\ e_total_size r = 50 /\
    e_timestamp r = 1000 /\ e_is_tombstone r = false /\
    kd_frame k1 k2.
Proof.
  do 5 eexists.
  split; [vm_compute; reflexivity|].
  split; [vm_compute; reflexivity|].
  split; [vm_compute; reflexivity|].
  do 5 (split; [reflexivity|]).
  eapply (keydir_get_frame zero_hash ok_env 8 _ key_k 1 MAX_EPOCH blank_entry).
  vm_compute; reflexivity.
Defined.

(** X2. A conditional put that finds no visible entry, or a visible entry
    with another file id or offset, returns MODIFIED and changes no cell of
    memory and no chain size. *)
Theorem put_cas_mismatch_modified hash env fuel k entry old_file_id old_offset
    k1 iter k' entry' rc :
  let epoch := u64 (kd_epoch k + 1) in
  scan_for_key hash env fuel (set_epoch k epoch) (e_key entry) (e_key_size entry)
    epoch = Ok (k1, iter) ->
  old_file_id <> 0 ->
  it_found iter = false \/ entry_changed k1 iter old_file_id old_offset = Ok true ->
  keydir_put hash env (S fuel) k entry old_file_id old_offset = Ok (k', entry', rc) ->
  rc = KEYDIR_PUT_MODIFIED /\ chain_sizes k' = chain_sizes k /\
  forall b i c, heap_cell (kd_heap k) b i = Some c ->
                heap_cell (kd_heap k') b i = Some c.
Proof.
  intros epoch Hscan Hold Hcase Hput.
  pose proof (scan_for_key_frame _ _ _ _ _ _ _ _ _ Hscan) as Hfr.
  cbn [keydir_put bc_atomic_incr64 set_e_epoch e_key e_key_size e_epoch] in Hput.
  fold epoch in Hput. rewrite Hscan in Hput. cbn [bind] in Hput.
  assert (Hne : negb (old_file_id =? 0) = true)
    by (apply negb_true_iff, Z.eqb_neq; exact Hold).
  assert (Hfin : exists k2, unlock_pages k1 (it_pages iter) = Ok k2
                            /\ k' = k2 /\ rc = KEYDIR_PUT_MODIFIED).
  { destruct (it_found iter) eqn:Hf.
    - destruct Hcase as [?|Hc]; [discriminate|]. rewrite Hc in Hput.
      cbn [bind] in Hput. unfold free_scan_iter in Hput.
      apply bind_Ok in Hput as (k2 & Hu & Hput). inversion Hput; subst. eauto.
    - rewrite Hne in Hput. unfold free_scan_iter in Hput.
      apply bind_Ok in Hput as (k2 & Hu & Hput). inversion Hput; subst. eauto. }
  destruct Hfin as (k2 & Hu & -> & ->).
  apply unlock_pages_frame in Hu.
  pose proof (kd_frame_trans _ _ _ Hfr Hu) as [[x Hx] Hs _ _ _].
  split; [reflexivity|]. split; [exact Hs|].
  intros b i c Hc. rewrite Hx. by apply heap_cell_app.
Qed.

Lemma put_cas_mismatch_modified_witness :
  exists k0 k1 e1 k2 e2,
    fresh_keydir 1 1 None = Some k0 /\
    keydir_put zero_hash ok_env 8 k0 (new_entry key_k 1 10 50 1000) 0 0
      = Ok (k1, e1, KEYDIR_PUT_OK) /\
    keydir_put zero_hash ok_env 8 k1 (new_entry key_k 2 20 50 1000) 9 9
      = Ok (k2, e2, KEYDIR_PUT_MODIFIED) /\
    chain_sizes k2 = chain_sizes k1 /\
    forall b i c, heap_cell (kd_heap k1) b i = Some c ->
                  heap_cell (kd_heap k2) b i = Some c.
Proof.
  do 5 eexists.
  split; [vm_compute; reflexivity|].
  split; [vm_compute; reflexivity|].
  split; [vm_compute; reflexivity|].
  lazymatch goal with
  | |- chain_sizes ?K2 = chain_sizes ?K1 /\ _ =>
      eapply (put_cas_mismatch_modified zero_hash ok_env 7 K1
                (new_entry key_k 2 20 50 1000) 9 9 _ _ K2 _ KEYDIR_PUT_MODIFIED)
  end.
  - vm_compute; reflexivity.
  - discriminate.
  - right. vm_compute; reflexivity.
  - vm_compute; reflexivity.
Defined.

(** X3. [keydir_remove] of a key with no visible entry, without a
    condition, returns OK, consumes one epoch, and changes no cell of
    memory and no chain size. *)
Theorem remove_absent_key_ok hash env fuel k key key_size old_offset
    k1 iter k' rc :
  let epoch := u64 (kd_epoch k + 1) in
  scan_for_key hash env fuel (set_epoch k epoch) key key_size epoch = Ok (k1, iter) ->
  it_found iter = false ->
  keydir_remove hash env (S fuel) k key key_size 0 old_offset = Ok (k', rc) ->
  rc = KEYDIR_PUT_OK /\ kd_epoch k' = epoch /\ chain_sizes k' = chain_sizes k /\
  forall b i c, heap_cell (kd_heap k) b i = Some c ->
                heap_cell (kd_heap k') b i = Some c.
Proof.
  intros epoch Hscan Hfound Hrem.
  pose proof (scan_for_key_frame _ _ _ _ _ _ _ _ _ Hscan) as Hfr.
  cbn [keydir_remove bc_atomic_incr64] in Hrem.
  fold epoch in Hrem. rewrite Hscan in Hrem. cbn [bind] in Hrem.
  rewrite Hfound in Hrem. cbn [Z.eqb negb] in Hrem. unfold free_scan_iter in Hrem.
  apply bind_Ok in Hrem as (k2 & Hu & Hrem). inversion Hrem; subst.
  apply unlock_pages_frame in Hu.
  pose proof (kd_frame_trans _ _ _ Hfr Hu) as [[x Hx] Hs He _ _].
  split; [reflexivity|]. split; [exact He|]. split; [exact Hs|].
  intros b i c Hc. rewrite Hx. by apply heap_cell_app.
Qed.

Lemma remove_absent_key_ok_witness :
  exists k0 k1 e1 k2,
    fresh_keydir 1 1 None = Some k0 /\
    keydir_put zero_hash ok_env 8 k0 (new_entry key_k 1 10 50 1000) 0 0
      = Ok (k1, e1, KEYDIR_PUT_OK) /\
    keydir_remove zero_hash ok_env 8 k1 key_b 1 0 0 = Ok (k2, KEYDIR_PUT_OK) /\
    kd_epoch k2 = 2 /\ chain_sizes k2 = chain_sizes k1 /\
    forall b i c, heap_cell (kd_heap k1) b i = Some c ->
                  heap_cell (kd_heap k2) b i = Some c.
Proof.
  do 4 eexists.
  split; [vm_compute; reflexivity|].
  split; [vm_compute; reflexivity|].
  split; [vm_compute; reflexivity|].
  lazymatch goal with
  | |- kd_epoch ?K2 = _ /\ chain_sizes _ = chain_sizes ?K1 /\ _ =>
      eapply (remove_absent_key_ok zero_hash ok_env 7 K1 key_b 1 0 _ _ K2
                KEYDIR_PUT_OK)
  end.
  - vm_compute; reflexivity.
  - reflexivity.
  - vm_compute; reflexivity.
Defined.

(** ** Swap growth *)

Lemma mmap_loop_pages env n : forall old i off h h' pages j pg,
  mmap_loop env n old i off h = (h', pages) ->
  pages !! j = Some pg ->
  page_next_free pg = Some (u32 (old + (i + Z.of_nat j) + 1))
  /\ page_next pg = None /\ page_mutex pg = Some false.
Proof.
  induction n as [|n IH]; cbn [mmap_loop]; intros old i off h h' pages j pg H Hj.
  - inversion H; subst. discriminate.
  - destruct (mmap_ok env off).
    + destruct (mmap_loop env n old (i + 1) (off + PAGE_SIZE) (h ++ [zero_page]))
        as [h2 rest] eqn:E.
      inversion H; subst; clear H.
      destruct j as [|j]; cbn in Hj.
      * inversion Hj; subst; cbn. rewrite Z.add_0_r. auto.
      * destruct (IH _ _ _ _ _ _ _ _ E Hj) as (Hn & Hx & Hm).
        rewrite Hn. repeat split; auto. do 2 f_equal. lia.
    + inversion H; subst. discriminate.
Qed.

Lemma mmap_loop_length env n : forall old i off h h' pages,
  mmap_loop env n old i off h = (h', pages) -> (length pages <= n)%nat.
Proof.
  induction n as [|n IH]; cbn [mmap_loop]; intros old i off h h' pages H.
  - inversion H; subst. cbn. lia.
  - destruct (mmap_ok env off).
    + destruct (mmap_loop env n old (i + 1) (off + PAGE_SIZE) (h ++ [zero_page]))
        as [h2 rest] eqn:E.
      inversion H; subst; clear H. apply IH in E. cbn. lia.
    + inversion H; subst. cbn. lia.
Qed.

(** C5. What a successful [expand_swap_file] leaves behind: a new swap
    array is appended, [num_swap_pages] grows by its size, the head of the
    swap free list is the first new index, and every new page points to
    the following index through [next_free]. The last new page is not
    spliced onto the previous list: its [next_free] stays the index past
    the new array, and the previous head is stored in its chain link
    [next] instead. *)
Theorem expand_swap_file_splice env k k' :
  kd_num_swap_pages k < 2 ^ 32 ->
  expand_swap_file env k (kd_num_swap_pages k) = Ok (k', 0) ->
  let old := kd_num_swap_pages k in
  exists pages last_page,
    kd_swap_pages k' = kd_swap_pages k ++ [mk_swap_array (Z.of_nat (length pages)) pages]
    /\ kd_num_swap_pages k' = u32 (old + Z.of_nat (length pages))
    /\ kd_swap_free_list_head k' = Some old
    /\ (forall j pg, pages !! j = Some pg ->
          page_next_free pg = Some (u32 (old + Z.of_nat j + 1)))
    /\ last pages = Some last_page
    /\ page_next_free last_page = Some (u32 (old + Z.of_nat (length pages)))
    /\ page_next last_page = kd_swap_free_list_head k.
Proof.
  intros Hrange H; cbv zeta; unfold expand_swap_file in H.
  apply bind_Ok in H as (m & Hlock & H). cbn [kd_num_swap_pages set_swap_grow_mutex] in H.
  rewrite Z.eqb_refl in H.
  destruct (negb (ftruncate_ok env _)).
  { apply bind_Ok in H as (? & _ & H). inversion H. }
  cbn [kd_swap_pages set_swap_file_size set_swap_grow_mutex kd_heap] in H.
  destruct (kd_swap_pages k) as [|a0 rest] eqn:Hsw; [discriminate|].
  destruct (mmap_loop env (Z.to_nat (kd_num_swap_pages k)) (kd_num_swap_pages k) 0
              (u32 (kd_num_swap_pages k * PAGE_SIZE)) (kd_heap k)) as [h pages] eqn:Hloop.
  destruct ((0 <? kd_num_swap_pages k) && (Z.of_nat (length pages) =? 0)).
  { apply bind_Ok in H as (? & _ & H). inversion H. }
  apply bind_Ok in H as (lastp & Hlast & H). apply rd_Ok in Hlast.
  apply bind_Ok in H as (m' & _ & H). inversion H; subst; clear H. cbn.
  assert (Hlen : (0 < length pages)%nat).
  { destruct pages; [|cbn; lia]. unfold nthZ in Hlast.
    destruct (_ <? 0); discriminate. }
  assert (Hu : u32 (Z.of_nat (length pages) - 1) = Z.of_nat (length pages) - 1).
  { apply mmap_loop_length in Hloop. unfold u32. apply Z.mod_small. lia. }
  rewrite Hu in *.
  assert (Hidx : Z.to_nat (Z.of_nat (length pages) - 1) = pred (length pages)) by lia.
  unfold nthZ in Hlast. destruct (_ <? 0); [discriminate|]. rewrite Hidx in *.
  exists (<[pred (length pages) :=
             set_page_next lastp (kd_swap_free_list_head k)]> pages),
         (set_page_next lastp (kd_swap_free_list_head k)).
  rewrite length_insert, ?Hsw.
  split; [reflexivity|]. split; [reflexivity|]. split; [reflexivity|].
  split.
  { intros j pg Hj.
    destruct (decide (j = pred (length pages))) as [->|Hne].
    - rewrite list_lookup_insert_eq in Hj by lia. inversion Hj; subst; cbn.
      destruct (mmap_loop_pages _ _ _ _ _ _ _ _ _ _ Hloop Hlast) as (Hn & _).
      rewrite Hn. apply (f_equal Some), (f_equal u32). lia.
    - rewrite list_lookup_insert_ne in Hj by auto.
      destruct (mmap_loop_pages _ _ _ _ _ _ _ _ _ _ Hloop Hj) as (Hn & _).
      rewrite Hn. apply (f_equal Some), (f_equal u32). lia. }
  split.
  { rewrite last_lookup, length_insert, list_lookup_insert_eq by lia. reflexivity. }
  split; [|reflexivity]. cbn.
  destruct (mmap_loop_pages _ _ _ _ _ _ _ _ _ _ Hloop Hlast) as (Hn & _).
  rewrite Hn. apply (f_equal Some), (f_equal u32). lia.
Qed.

Lemma expand_swap_file_splice_witness :
  exists k k',
    fresh_keydir 1 1 (Some MAX_PAGE_IDX) = Some k /\
    expand_swap_file ok_env k (kd_num_swap_pages k) = Ok (k', 0) /\
    exists pages last_page,
      kd_swap_pages k'
      = kd_swap_pages k ++ [mk_swap_array (Z.of_nat (length pages)) pages]
      /\ kd_num_swap_pages k' = u32 (kd_num_swap_pages k + Z.of_nat (length pages))
      /\ kd_swap_free_list_head k' = Some (kd_num_swap_pages k)
      /\ (forall j pg, pages !! j = Some pg ->
            page_next_free pg = Some (u32 (kd_num_swap_pages k + Z.of_nat j + 1)))
      /\ last pages = Some last_page
      /\ page_next_free last_page
         = Some (u32 (kd_num_swap_pages k + Z.of_nat (length pages)))
      /\ page_next last_page = kd_swap_free_list_head k.
Proof.
  do 2 eexists.
  split; [vm_compute; reflexivity|].
  split; [vm_compute; reflexivity|].
  apply (expand_swap_file_splice ok_env).
  - vm_compute; reflexivity.
  - vm_compute; reflexivity.
Defined.

(** C4. When the swap free list is empty, [allocate_swap_page] calls
    [expand_swap_file] and returns NULL whatever the outcome of the
    expansion: the test that follows the call looks at the head index read
    before it. *)
Theorem allocate_swap_page_empty_list env fuel k k' rc :
  kd_swap_free_list_head k = Some MAX_PAGE_IDX ->
  expand_swap_file env k (kd_num_swap_pages k) = Ok (k', rc) ->
  allocate_swap_page env (S fuel) k = Ok (k', None).
Proof.
  intros Hhead Hexp. cbn [allocate_swap_page]. rewrite Hhead. cbn [rd bind].
  rewrite Z.eqb_refl, Hexp. cbn [bind]. by rewrite orb_true_r.
Qed.

Lemma allocate_swap_page_empty_list_witness :
  exists k k',
    fresh_keydir 1 1 (Some MAX_PAGE_IDX) = Some k /\
    expand_swap_file ok_env k (kd_num_swap_pages k) = Ok (k', 0) /\
    kd_num_swap_pages k = 1 /\ kd_num_swap_pages k' = 2 /\
    kd_swap_free_list_head k' = Some 1 /\
    allocate_swap_page ok_env 1 k = Ok (k', None).
Proof.
  do 2 eexists.
  split; [vm_compute; reflexivity|].
  split; [vm_compute; reflexivity|].
  split; [reflexivity|]. split; [reflexivity|]. split; [reflexivity|].
  apply (allocate_swap_page_empty_list ok_env 0 _ _ 0).
  - reflexivity.
  - vm_compute; reflexivity.
Defined.

(** ** Per-file statistics *)

(** C9. [update_fstats], called with a mutex that is NULL or free,
    returns with the mutex as it was and with the map of the
    specification: unchanged when the file id is absent and [should_create]
    is 0; otherwise the entry of the file id (a fresh zeroed one with
    expiration epoch MAX_EPOCH when it was absent) has the four deltas
    added, the expiration epoch lowered to the argument when that is
    smaller, and the oldest and newest timestamps moved as the
    specification says. *)
Theorem update_fstats_spec (fstats : gmap Z bitcask_fstats_entry) mutex
    file_id tstamp expiration_epoch live total live_bytes total_bytes
    should_create :
  mutex <> Some true ->
  update_fstats fstats mutex file_id tstamp expiration_epoch live total
    live_bytes total_bytes should_create
  = Ok (match fstats !! file_id with
        | Some e =>
            <[file_id := fstats_updated e tstamp expiration_epoch live total
                           live_bytes total_bytes]> fstats
        | None =>
            if decide (should_create = 0) then fstats
            else <[file_id := fstats_updated (fresh_fstats file_id) tstamp
                                expiration_epoch live total live_bytes
                                total_bytes]> fstats
        end, mutex).
Proof.
  intros Hm. unfold update_fstats.
  assert (Hupd : forall e,
    mk_fstats (fs_file_id e) (u32 (fs_live_keys e + live))
      (u32 (fs_total_keys e + total)) (u64 (fs_live_bytes e + live_bytes))
      (u64 (fs_total_bytes e + total_bytes))
      (if (negb (tstamp =? 0) && (tstamp <? fs_oldest_tstamp e))
          || (fs_oldest_tstamp e =? 0)
       then tstamp else fs_oldest_tstamp e)
      (if (negb (tstamp =? 0) && (fs_newest_tstamp e <? tstamp))
          || (fs_newest_tstamp e =? 0)
       then tstamp else fs_newest_tstamp e)
      (if expiration_epoch <? fs_expiration_epoch e
       then expiration_epoch else fs_expiration_epoch e)
    = fstats_updated e tstamp expiration_epoch live total live_bytes total_bytes).
  { intros e. unfold fstats_updated. f_equal.
    - destruct (decide _) as [H|H];
        destruct (tstamp =? 0) eqn:E1; destruct (tstamp <? fs_oldest_tstamp e) eqn:E2;
        destruct (fs_oldest_tstamp e =? 0) eqn:E3; cbn; try reflexivity;
        exfalso; try apply Z.eqb_eq in E1; try apply Z.eqb_neq in E1;
        try apply Z.ltb_lt in E2; try apply Z.ltb_ge in E2;
        try apply Z.eqb_eq in E3; try apply Z.eqb_neq in E3; lia.
    - destruct (decide _) as [H|H];
        destruct (tstamp =? 0) eqn:E1; destruct (fs_newest_tstamp e <? tstamp) eqn:E2;
        destruct (fs_newest_tstamp e =? 0) eqn:E3; cbn; try reflexivity;
        exfalso; try apply Z.eqb_eq in E1; try apply Z.eqb_neq in E1;
        try apply Z.ltb_lt in E2; try apply Z.ltb_ge in E2;
        try apply Z.eqb_eq in E3; try apply Z.eqb_neq in E3; lia.
    - destruct (expiration_epoch <? fs_expiration_epoch e) eqn:E.
      + apply Z.ltb_lt in E. lia.
      + apply Z.ltb_ge in E. lia. }
  destruct mutex as [[|]|]; [congruence| |]; cbn [mutex_lock bind mutex_unlock];
    (destruct (fstats !! file_id) as [e|] eqn:Hl;
     [ rewrite Hupd; reflexivity
     | destruct (should_create =? 0) eqn:Hc;
       [ apply Z.eqb_eq in Hc; rewrite decide_True by exact Hc; reflexivity
       | apply Z.eqb_neq in Hc; rewrite decide_False by exact Hc;
         rewrite <- (Hupd (fresh_fstats file_id)); reflexivity ] ]).
Qed.

Lemma update_fstats_spec_witness :
  update_fstats ∅ (Some false) 3 1000 77 1 1 10 10 1
  = Ok (<[3 := mk_fstats 3 1 1 10 10 1000 1000 77]> ∅, Some false).
Proof.
  rewrite (update_fstats_spec ∅ (Some false) 3 1000 77 1 1 10 10 1) by discriminate.
  vm_compute. reflexivity.
Defined.

(** ** Entry sizes *)

Lemma land_clear_low3 x : 0 <= x < 2 ^ 32 -> Z.land x (2 ^ 32 - 8) = 8 * (x / 8).
Proof.
  intros Hx. apply Z.bits_inj'. intros i Hi.
  rewrite Z.land_spec.
  replace (8 * (x / 8)) with (Z.shiftl (Z.shiftr x 3) 3)
    by (rewrite Z.shiftl_mul_pow2, Z.shiftr_div_pow2 by lia; change (2 ^ 3) with 8; lia).
  change (2 ^ 32 - 8) with (Z.shiftl (Z.ones 29) 3).
  destruct (decide (i < 3)) as [Hlt|Hge].
  - rewrite !Z.shiftl_spec_low by lia. apply andb_false_r.
  - rewrite !Z.shiftl_spec by lia. rewrite Z.shiftr_spec by lia.
    replace (i - 3 + 3) with i by lia.
    destruct (decide (i - 3 < 29)) as [Hin|Hout].
    + rewrite Z.ones_spec_low by lia. apply andb_true_r.
    + rewrite Z.ones_spec_high by lia. rewrite andb_false_r.
      symmetry. destruct (decide (x = 0)) as [->|Hnz]; [apply Z.bits_0|].
      apply Z.bits_above_log2; [lia|].
      assert (Z.log2 x < 32) by (apply Z.log2_lt_pow2; lia). lia.
Qed.

(** Inside the 32-bit range the size of an entry is its header and key,
    rounded up to a multiple of 8. *)
Lemma entry_size_for_key_rounds key_size :
  0 <= key_size -> ENTRY_KEY_OFFSET + key_size + 7 < 2 ^ 32 ->
  entry_size_for_key key_size = 8 * ((ENTRY_KEY_OFFSET + key_size + 7) / 8).
Proof.
  unfold entry_size_for_key, ENTRY_KEY_OFFSET, u32. intros H0 H1.
  rewrite (Z.mod_small (36 + key_size)) by lia.
  rewrite (Z.mod_small (36 + key_size + 7)) by lia.
  by rewrite land_clear_low3 by lia.
Qed.

(** X4. The size [entry_size_for_key] gives an entry is a multiple of 8,
    large enough for the header and the key, and less than 8 bytes larger,
    as long as header, key and padding stay inside the 32-bit range. *)
Theorem entry_size_for_key_aligned key_size :
  0 <= key_size -> ENTRY_KEY_OFFSET + key_size + 7 < 2 ^ 32 ->
  entry_size_for_key key_size mod 8 = 0
  /\ ENTRY_KEY_OFFSET + key_size <= entry_size_for_key key_size
       < ENTRY_KEY_OFFSET + key_size + 8.
Proof.
  intros H0 H1. rewrite (entry_size_for_key_rounds key_size H0 H1).
  unfold ENTRY_KEY_OFFSET in *. split.
  - rewrite Z.mul_comm. apply Z.mod_mul. lia.
  - pose proof (Z.div_mod (36 + key_size + 7) 8 ltac:(lia)).
    pose proof (Z.mod_pos_bound (36 + key_size + 7) 8 ltac:(lia)). lia.
Qed.

Lemma entry_size_for_key_aligned_witness :
  entry_size_for_key 1 mod 8 = 0 /\ 36 + 1 <= entry_size_for_key 1 < 36 + 1 + 8.
Proof. apply (entry_size_for_key_aligned 1); vm_compute; congruence. Defined.

(** Past the 32-bit range the size wraps: a key of 2^32 - 36 bytes is given
    an entry of 0 bytes. *)
Lemma entry_size_wraps : entry_size_for_key (2 ^ 32 - 36) = 0.
Proof. reflexivity. Qed.

(** ** One index space for memory and swap pages *)

Lemma nthZ_app_l {A} (l1 l2 : list A) i :
  i < Z.of_nat (length l1) -> nthZ (l1 ++ l2) i = nthZ l1 i.
Proof.
  unfold nthZ. intros H. destruct (i <? 0) eqn:E; [done|]. apply Z.ltb_ge in E.
  apply lookup_app_l. lia.
Qed.

Lemma nthZ_app_r {A} (l1 l2 : list A) i :
  Z.of_nat (length l1) <= i -> nthZ (l1 ++ l2) i = nthZ l2 (i - Z.of_nat (length l1)).
Proof.
  unfold nthZ. intros H.
  destruct (i <? 0) eqn:E; [apply Z.ltb_lt in E; lia|].
  destruct (_ - _ <? 0) eqn:E'; [apply Z.ltb_lt in E'; lia|].
  rewrite lookup_app_r by lia. f_equal. lia.
Qed.

Lemma get_swap_page_spec arrays : forall idx,
  swap_arrays_sized arrays -> 0 <= idx < 2 ^ 32 ->
  (let* '(a, i) := get_swap_page idx arrays in
   let* arr := rd (arrays !! a) in rd (nthZ (sa_pages arr) i))
  = rd (nthZ (swap_index_space arrays) idx).
Proof.
  unfold swap_index_space.
  induction arrays as [|a rest IH]; intros idx Hs Hi.
  - cbn. unfold nthZ. destruct (idx <? 0); reflexivity.
  - apply Forall_cons in Hs as [Ha Hs]. cbn [get_swap_page map concat].
    destruct (idx <? sa_size a) eqn:E.
    + apply Z.ltb_lt in E. cbn. rewrite nthZ_app_l by lia. reflexivity.
    + apply Z.ltb_ge in E. rewrite nthZ_app_r by lia. rewrite <- Ha.
      assert (Hu : u32 (idx - sa_size a) = idx - sa_size a)
        by (unfold u32; apply Z.mod_small; lia).
      rewrite Hu. rewrite <- (IH (idx - sa_size a) Hs ltac:(lia)).
      destruct (get_swap_page (idx - sa_size a) rest) as [[n i]|]; reflexivity.
Qed.

(** X5. [get_page] addresses one index space: the memory pages first, then
    the pages of the swap arrays in the order of the arrays, as long as
    every array records the length of its page array. *)
Theorem get_page_index_space k idx :
  swap_arrays_sized (kd_swap_pages k) ->
  0 <= kd_num_pages k -> 0 <= idx < 2 ^ 32 ->
  (let* r := get_page k idx in read_page k r)
  = if idx <? kd_num_pages k
    then let* m := read_mem_page k idx in Ok (mp_page m)
    else rd (nthZ (swap_index_space (kd_swap_pages k)) (idx - kd_num_pages k)).
Proof.
  intros Hs Hn Hi. unfold get_page.
  destruct (idx <? kd_num_pages k) eqn:E; [reflexivity|].
  apply Z.ltb_ge in E.
  assert (Hu : u32 (idx - kd_num_pages k) = idx - kd_num_pages k)
    by (unfold u32; apply Z.mod_small; lia).
  rewrite Hu, <- (get_swap_page_spec (kd_swap_pages k) (idx - kd_num_pages k) Hs) by lia.
  unfold swap_page_ref.
  destruct (get_swap_page _ _) as [[a i]|]; reflexivity.
Qed.

Lemma get_page_index_space_witness :
  exists k0 k,
    fresh_keydir 1 1 None = Some k0
    /\ expand_swap_file ok_env k0 1 = Ok (k, 0)
    /\ exists pg,
         (let* r := get_page k 1 in read_page k r) = Ok pg
         /\ nthZ (swap_index_space (kd_swap_pages k)) 0 = Some pg.
Proof.
  run_as k0 (fresh_keydir 1 1 None).
  run_as r (expand_swap_file ok_env k0 1).
  pose (k := fst r).
  run_as pg (let* r := get_page k 1 in read_page k r).
  exists k0, k. split; [vm_compute; reflexivity|]. split; [vm_compute; reflexivity|].
  exists pg. split; [vm_compute; reflexivity|].
  assert (Hs : swap_arrays_sized (kd_swap_pages k))
    by (repeat constructor).
  pose proof (get_page_index_space k 1 Hs ltac:(vm_compute; congruence)
                ltac:(lia)) as H.
  apply rd_Ok. etransitivity; [symmetry; exact H | vm_compute; reflexivity].
Defined.

(** ** Memory pages by index *)

Lemma write_mem_page_Ok k i m m0 :
  read_mem_page k i = Ok m0 ->
  write_mem_page k i m = Ok (set_mem_pages k (<[Z.to_nat i := m]> (kd_mem_pages k))).
Proof. unfold read_mem_page, write_mem_page. intros H. apply rd_Ok in H. by rewrite H. Qed.

Lemma write_read_mem_page k i m k' :
  write_mem_page k i m = Ok k' -> read_mem_page k' i = Ok m.
Proof.
  unfold write_mem_page, read_mem_page.
  destruct (nthZ (kd_mem_pages k) i) eqn:E; [|discriminate].
  intros H. inversion H; subst. cbn. by rewrite (nthZ_insert_same _ _ _ _ E).
Qed.

Lemma write_read_mem_page_ne k i m k' j :
  write_mem_page k i m = Ok k' -> j <> i -> read_mem_page k' j = read_mem_page k j.
Proof.
  unfold write_mem_page, read_mem_page.
  destruct (nthZ (kd_mem_pages k) i) eqn:E; [|discriminate].
  intros H Hne. inversion H; subst. cbn.
  by rewrite (nthZ_insert_other _ _ _ _ _ E Hne).
Qed.

(** ** The free list of memory pages *)

(** X6. A page handed out by [allocate_mem_page] is locked, marked as taken
    and marked as borrowed; when no page is handed out, the free list is
    empty. *)
Theorem allocate_mem_page_result fuel : forall k k' r,
  allocate_mem_page fuel k = Ok (k', r) ->
  match r with
  | Some i =>
      exists m, read_mem_page k' i = Ok m
                /\ page_mutex (mp_page m) = Some true
                /\ page_is_free (mp_page m) = Some 0
                /\ mp_is_borrowed m = 1
  | None => kd_free_list_head k' = MAX_PAGE_IDX
  end.
Proof.
  induction fuel as [|fuel IH]; intros k k' r H; [discriminate|].
  cbn [allocate_mem_page] in H.
  destruct (kd_free_list_head k =? MAX_PAGE_IDX) eqn:Hh.
  - inversion H; subst. by apply Z.eqb_eq.
  - apply bind_Ok in H as (m0 & Hm0 & H).
    apply bind_Ok in H as (nf & Hnf & H).
    apply bind_Ok in H as (k1 & Hl & H).
    apply bind_Ok in H as (m1 & Hm1 & H).
    apply bind_Ok in H as (fr & Hfr & H).
    destruct (negb (fr =? 0)) eqn:Hf.
    + apply bind_Ok in H as (k2 & Hw & H). inversion H; subst; clear H.
      exists (set_mp_page (set_mp_is_borrowed m1 1)
                (set_page_is_free (mp_page m1) (Some 0))).
      split; [by eapply write_read_mem_page|]. cbn. split; [|done].
      unfold lock_page in Hl. cbn [read_page] in Hl.
      apply bind_Ok in Hl as (p & Hp & Hl).
      apply bind_Ok in Hl as (mx & Hmx & Hl).
      cbn [write_page] in Hl. apply bind_Ok in Hl as (m2 & Hm2 & Hl).
      apply write_read_mem_page in Hl. rewrite Hl in Hm1. inversion Hm1; subst.
      cbn. destruct (page_mutex p) as [[|]|]; cbn in Hmx; congruence.
    + apply bind_Ok in H as (k2 & Hu & H). by apply IH in H.
Qed.

Lemma allocate_mem_page_result_witness :
  exists k0 k' m,
    fresh_keydir 1 1 None = Some k0
    /\ allocate_mem_page 2 k0 = Ok (k', Some 0)
    /\ read_mem_page k' 0 = Ok m
    /\ page_mutex (mp_page m) = Some true
    /\ page_is_free (mp_page m) = Some 0
    /\ mp_is_borrowed m = 1.
Proof.
  run_as k0 (fresh_keydir 1 1 None).
  run_as r (allocate_mem_page 2 k0).
  destruct (allocate_mem_page_result 2 k0 (fst r) (Some 0)
              ltac:(vm_compute; reflexivity)) as (m & H1 & H2 & H3 & H4).
  exists k0, (fst r), m.
  split; [vm_compute; reflexivity|]. split; [vm_compute; reflexivity|].
  repeat split; assumption.
Defined.

(** X7. Push then pop: [allocate_mem_page] hands back the page that
    [add_free_page] has just put on the list, and the head of the list is
    what it was. *)
Theorem add_free_page_allocate fuel k i m :
  read_mem_page k i = Ok m ->
  page_mutex (mp_page m) = Some false ->
  i <> MAX_PAGE_IDX ->
  exists k1 k2,
    add_free_page k i = Ok k1
    /\ allocate_mem_page (S fuel) k1 = Ok (k2, Some i)
    /\ kd_free_list_head k2 = kd_free_list_head k
    /\ read_mem_page k2 i
       = Ok (mk_mem_page
               (mk_page (page_data (mp_page m)) (Some true) (page_prev (mp_page m))
                  (page_next (mp_page m)) (Some (kd_free_list_head k)) (Some 0))
               (mp_size m) (mp_alt_idx m) (mp_dead_bytes m) 1)
    /\ forall j, j <> i -> read_mem_page k2 j = read_mem_page k j.
Proof.
  intros Hm Hmx Hi.
  unfold add_free_page. rewrite Hm. cbn [bind].
  rewrite (write_mem_page_Ok _ _ _ _ Hm). cbn [bind].
  set (m1 := set_mp_page m _).
  set (kw := set_mem_pages k _).
  set (k1 := set_free_list_head kw i).
  assert (Hw1 : write_mem_page k i m1 = Ok kw) by apply (write_mem_page_Ok _ _ _ _ Hm).
  assert (Hr1 : read_mem_page k1 i = Ok m1) by apply (write_read_mem_page _ _ _ _ Hw1).
  assert (Hn1 : forall j, j <> i -> read_mem_page k1 j = read_mem_page k j).
  { intros j Hj. by apply (write_read_mem_page_ne k i m1 kw). }
  eexists k1, _. split; [reflexivity|].
  cbn [allocate_mem_page].
  change (kd_free_list_head k1) with i.
  apply Z.eqb_neq in Hi. rewrite Hi. rewrite Hr1. cbn [bind rd m1 set_mp_page mp_page
    set_page_next_free page_next_free].
  set (k1' := set_free_list_head k1 (kd_free_list_head k)).
  assert (Hr1' : read_mem_page k1' i = Ok m1) by exact Hr1.
  unfold lock_page. cbn [read_page]. rewrite Hr1'. cbn [bind m1 set_mp_page mp_page
    set_page_next_free set_page_is_free page_mutex]. rewrite Hmx. cbn [mutex_lock bind write_page].
  rewrite Hr1'. cbn [bind]. rewrite (write_mem_page_Ok _ _ _ _ Hr1'). cbn [bind].
  set (m2 := set_mp_page m1 _).
  set (k2 := set_mem_pages k1' _).
  assert (Hw2 : write_mem_page k1' i m2 = Ok k2) by apply (write_mem_page_Ok _ _ _ _ Hr1').
  rewrite (write_read_mem_page _ _ _ _ Hw2). cbn [bind rd m2 m1 set_mp_page mp_page
    set_page_mutex set_page_next_free set_page_is_free page_is_free Z.eqb negb].
  assert (Hr2 : read_mem_page k2 i = Ok m2) by apply (write_read_mem_page _ _ _ _ Hw2).
  rewrite (write_mem_page_Ok _ _ _ _ Hr2). cbn [bind].
  split; [reflexivity|]. split; [reflexivity|]. split.
  - eapply write_read_mem_page. apply (write_mem_page_Ok _ _ _ _ Hr2).
  - intros j Hj.
    rewrite (write_read_mem_page_ne k2 i _ _ j (write_mem_page_Ok _ _ _ _ Hr2) Hj).
    rewrite (write_read_mem_page_ne k1' i _ _ j Hw2 Hj).
    exact (Hn1 j Hj).
Qed.

Lemma add_free_page_allocate_witness :
  exists k0 ka kb k1 k2,
    fresh_keydir 2 1 None = Some k0
    /\ allocate_mem_page 2 k0 = Ok (ka, Some 0)
    /\ unlock_page ka (MemPage 0) = Ok kb
    /\ add_free_page kb 0 = Ok k1
    /\ allocate_mem_page 1 k1 = Ok (k2, Some 0)
    /\ kd_free_list_head k2 = kd_free_list_head kb.
Proof.
  run_as k0 (fresh_keydir 2 1 None).
  run_as r (allocate_mem_page 2 k0).
  pose (ka := fst r).
  run_as kb (unlock_page ka (MemPage 0)).
  run_as m (read_mem_page kb 0).
  destruct (add_free_page_allocate 0 kb 0 m ltac:(vm_compute; reflexivity)
              ltac:(vm_compute; reflexivity) ltac:(vm_compute; congruence))
    as (k1 & k2 & H1 & H2 & H3 & _).
  exists k0, ka, kb, k1, k2.
  split; [vm_compute; reflexivity|]. split; [vm_compute; reflexivity|].
  split; [vm_compute; reflexivity|].
  repeat split; assumption.
Defined.

(** ** Initialisation *)

Lemma read_init_mem_pages k i :
  0 <= i < kd_num_pages k ->
  read_mem_page (keydir_init_mem_pages k) i = Ok (init_mem_page i).
Proof.
  intros Hi. unfold read_mem_page, keydir_init_mem_pages, nthZ. cbn.
  destruct (i <? 0) eqn:E; [apply Z.ltb_lt in E; lia|].
  rewrite list_lookup_fmap.
  rewrite lookup_seq_lt by lia. cbn. rewrite Z2Nat.id by lia. reflexivity.
Qed.

Lemma init_pages_initial k i :
  0 <= i < kd_num_pages k -> initial_page (keydir_init_mem_pages k) i.
Proof.
  intros Hi. exists MAX_PAGE_IDX. rewrite read_init_mem_pages by exact Hi. reflexivity.
Qed.

Lemma init_free_list_loop_spec j : forall n idx offset k,
  0 <= idx < n ->
  0 <= offset -> offset + Z.of_nat j < n ->
  (forall i, 0 <= i < n -> initial_page k i) ->
  exists k' idx',
    init_free_list_loop j n idx offset k = Ok (k', idx')
    /\ 0 <= idx' < n
    /\ (forall i, 0 <= i < n -> initial_page k' i)
    /\ (exists pages, k' = set_mem_pages k pages).
Proof.
  induction j as [|j IH]; intros n idx offset k Hidx Hoff Hj Hinit.
  - exists k, idx. cbn. repeat split; auto; try lia.
    exists (kd_mem_pages k). by destruct k.
  - cbn [init_free_list_loop].
    set (nx := if n <=? u32 (idx + 16) then (u32 (offset + 1), u32 (offset + 1))
               else (u32 (idx + 16), offset)).
    assert (Hnx : 0 <= nx.1 < n /\ 0 <= nx.2 /\ nx.2 + Z.of_nat j < n).
    { subst nx. pose proof (Z.mod_pos_bound (idx + 16) (2 ^ 32) ltac:(lia)).
      destruct (n <=? u32 (idx + 16)) eqn:E; cbn.
      - unfold u32. rewrite Z.mod_small; [lia|].
        apply Z.leb_le in E. unfold u32 in E. lia.
      - apply Z.leb_gt in E. unfold u32 in *. lia. }
    destruct nx as [next_idx offset']. cbn in Hnx. destruct Hnx as (H1 & H2 & H3).
    destruct (Hinit idx Hidx) as [nf Hr]. rewrite Hr. cbn [bind].
    rewrite (write_mem_page_Ok _ _ _ _ Hr). cbn [bind].
    set (m' := set_mp_page _ _).
    set (k1 := set_mem_pages k _).
    assert (Hw : write_mem_page k idx m' = Ok k1) by apply (write_mem_page_Ok _ _ _ _ Hr).
    destruct (IH n next_idx offset' k1 H1 H2 H3) as (k' & idx' & He & Hb & Hi' & pages & Hp).
    { intros i Hi. destruct (decide (i = idx)) as [->|Hne].
      - exists next_idx. rewrite (write_read_mem_page _ _ _ _ Hw). reflexivity.
      - destruct (Hinit i Hi) as [nf' Hr']. exists nf'.
        by rewrite (write_read_mem_page_ne _ _ _ _ _ Hw Hne). }
    exists k', idx'. repeat split; auto; try lia.
    exists pages. rewrite Hp. reflexivity.
Qed.

Lemma keydir_init_free_list_spec k :
  1 <= kd_num_pages k ->
  (forall i, 0 <= i < kd_num_pages k -> initial_page k i) ->
  exists k',
    keydir_init_free_list k = Ok k'
    /\ (forall i, 0 <= i < kd_num_pages k -> initial_page k' i)
    /\ (exists pages, k' = set_free_list_head (set_mem_pages k pages) 0).
Proof.
  intros Hn Hinit. unfold keydir_init_free_list.
  destruct (kd_num_pages k =? 0) eqn:E; [apply Z.eqb_eq in E; lia|].
  cbn [kd_num_pages set_free_list_head].
  destruct (init_free_list_loop_spec (Z.to_nat (kd_num_pages k - 1)) (kd_num_pages k)
              0 0 (set_free_list_head k 0)) as (k1 & idx & He & Hb & Hi & pages & Hp);
    [lia | lia | lia | exact Hinit |].
  rewrite He. cbn [bind].
  destruct (Hi idx Hb) as [nf Hr]. rewrite Hr. cbn [bind].
  rewrite (write_mem_page_Ok _ _ _ _ Hr).
  eexists. split; [reflexivity|]. split.
  - intros i Hi'. destruct (decide (i = idx)) as [->|Hne].
    + exists MAX_PAGE_IDX.
      rewrite (write_read_mem_page _ _ _ _ (write_mem_page_Ok _ _ _ _ Hr)). reflexivity.
    + destruct (Hi i Hi') as [nf' Hr']. exists nf'.
      by rewrite (write_read_mem_page_ne _ _ _ _ _ (write_mem_page_Ok _ _ _ _ Hr) Hne).
  - eexists. rewrite Hp. reflexivity.
Qed.



(** X9. The keydir [keydir_common_init] returns: no epoch consumed, no
    snapshot pinned, the head of the free list at page 0, and every memory
    page unlocked, free, empty, with no swap twin and no chain link, its
    data at [PAGE_SIZE * i] of the buffer. *)
Theorem keydir_common_init_state env basedir_len num_pages swap_pages prior k :
  1 <= num_pages ->
  keydir_common_init env basedir_len num_pages swap_pages prior = (0, Some k) ->
  kd_num_pages k = num_pages
  /\ kd_num_swap_pages k = swap_pages
  /\ kd_epoch k = 0 /\ kd_min_epoch k = MAX_EPOCH
  /\ kd_free_list_head k = 0
  /\ kd_swap_free_list_head k = prior
  /\ kd_fstats k = ∅
  /\ kd_heap k = [replicate (Z.to_nat (u32 (PAGE_SIZE * num_pages))) None]
  /\ forall i, 0 <= i < num_pages ->
       exists nf,
         read_mem_page k i
         = Ok (mk_mem_page
                 (mk_page (Some (mk_ptr 0 (u32 (PAGE_SIZE * i)))) (Some false)
                    (Some MAX_PAGE_IDX) (Some MAX_PAGE_IDX) (Some nf) (Some 1))
                 0 MAX_PAGE_IDX 0 0).
Proof.
  intros Hn. unfold keydir_common_init.
  set (k0 := keydir_init_mem_pages _).
  destruct (keydir_init_free_list_spec k0) as (k1 & He & Hi & pages & Hp); [exact Hn| |].
  { intros i Hi. apply init_pages_initial. exact Hi. }
  rewrite He.
  destruct (_ <? _); [discriminate|].
  destruct (negb (open_ok env)); [discriminate|].
  destruct (negb (ftruncate_ok env _)); [discriminate|].
  intros H. inversion H; subst k; clear H.
  rewrite Hp. cbn. repeat (split; [reflexivity|]).
  intros i Hi'. destruct (Hi i Hi') as [nf Hr]. exists nf.
  rewrite Hp in Hr. exact Hr.
Qed.

Lemma keydir_common_init_state_witness :
  exists k nf,
    keydir_common_init ok_env 0 2 1 None = (0, Some k)
    /\ kd_epoch k = 0 /\ kd_min_epoch k = MAX_EPOCH /\ kd_free_list_head k = 0
    /\ read_mem_page k 1
       = Ok (mk_mem_page
               (mk_page (Some (mk_ptr 0 4096)) (Some false) (Some MAX_PAGE_IDX)
                  (Some MAX_PAGE_IDX) (Some nf) (Some 1))
               0 MAX_PAGE_IDX 0 0).
Proof.
  run_as k (fresh_keydir 2 1 None).
  destruct (keydir_common_init_state ok_env 0 2 1 None k ltac:(lia)
              ltac:(vm_compute; reflexivity))
    as (_ & _ & He & Hm & Hf & _ & _ & _ & Hp).
  destruct (Hp 1 ltac:(lia)) as [nf Hr].
  exists k, nf. split; [vm_compute; reflexivity|].
  repeat (split; [assumption|]). exact Hr.
Defined.

(** Every bucket of the keydir [keydir_common_init] returns is empty, as
    long as the buffer of the memory pages stays inside the 32-bit
    range. *)
Lemma common_init_empty_buckets env basedir_len num_pages swap_pages prior k i :
  1 <= num_pages -> PAGE_SIZE * num_pages < 2 ^ 32 ->
  keydir_common_init env basedir_len num_pages swap_pages prior = (0, Some k) ->
  0 <= i < num_pages -> empty_bucket k i.
Proof.
  intros Hn Hsz. unfold keydir_common_init.
  set (k0 := keydir_init_mem_pages _).
  destruct (keydir_init_free_list_spec k0) as (k1 & He & Hi & pages & Hp); [exact Hn| |].
  { intros j Hj. apply init_pages_initial. exact Hj. }
  rewrite He.
  destruct (_ <? _); [discriminate|].
  destruct (negb (open_ok env)); [discriminate|].
  destruct (negb (ftruncate_ok env _)); [discriminate|].
  intros H Hrange. inversion H; subst k; clear H.
  destruct (Hi i Hrange) as [nf Hr]. unfold PAGE_SIZE in *.
  eexists _, _, _. split; [exact Hr|]. cbn.
  repeat (split; [reflexivity|]).
  rewrite Hp. cbn. eexists. split; [reflexivity|].
  cbn [pofs]. unfold PAGE_SIZE, u32. rewrite length_replicate, !Z.mod_small by lia. lia.
Qed.

(** ** Bytes at a pointer, cell by cell *)

Lemma all_written_Some cs bs : all_written cs = Some bs <-> cs = map Some bs.
Proof.
  revert bs. induction cs as [|[c|] cs IH]; intros bs; cbn.
  - split; [intros H; by inversion H | destruct bs; [done | discriminate]].
  - destruct (all_written cs) as [vs|] eqn:E.
    + split.
      * intros H. inversion H; subst. cbn. f_equal. by apply IH.
      * destruct bs as [|b bs]; [discriminate|]. cbn. intros H. inversion H; subst.
        f_equal. f_equal. assert (Some vs = Some bs) by (by apply IH). congruence.
    + split; [discriminate|]. destruct bs as [|b bs]; [discriminate|].
      cbn. intros H. inversion H; subst.
      assert (None = Some bs) by (by apply IH). discriminate.
  - split; [discriminate|]. destruct bs; discriminate.
Qed.

Lemma load_bytes_cells h p n bs :
  load_bytes h p n = Ok bs <-> load_cells h p n = Ok (map Some bs).
Proof.
  unfold load_bytes. destruct (load_cells h p n) as [cs|f]; cbn.
  - split.
    + intros H. apply rd_Ok in H. apply all_written_Some in H. by subst.
    + intros H. inversion H; subst. by rewrite all_written_map_Some.
  - split; discriminate.
Qed.

Lemma holds_pointwise h p bs :
  holds h p bs <->
  exists bl, h !! blk p = Some bl /\ 0 <= pofs p
             /\ pofs p + Z.of_nat (length bs) <= Z.of_nat (length bl)
             /\ forall j b, bs !! j = Some b ->
                            bl !! (Z.to_nat (pofs p) + j)%nat = Some (Some b).
Proof.
  unfold holds. rewrite load_bytes_cells. unfold load_cells.
  destruct (h !! blk p) as [bl|]; [|split; [discriminate | intros (? & ? & _); discriminate]].
  destruct (_ && _) eqn:Hb.
  - apply andb_true_iff in Hb as [Hb H2]. apply andb_true_iff in Hb as [H0 H1].
    apply Z.leb_le in H0, H1, H2. split.
    + intros H. inversion H as [He]. exists bl. repeat split; auto.
      intros j b Hj. pose proof (lookup_lt_Some _ _ _ Hj) as Hlt.
      assert (Hm : map Some bs !! j = Some (Some b)) by (by rewrite list_lookup_fmap, Hj).
      rewrite <- He in Hm. rewrite lookup_take_lt, lookup_drop in Hm by lia. exact Hm.
    + intros (bl' & Heq & _ & _ & Hp). inversion Heq; subst bl'. f_equal.
      apply list_eq. intros j. rewrite list_lookup_fmap.
      destruct (bs !! j) as [b|] eqn:Hj; cbn.
      * pose proof (lookup_lt_Some _ _ _ Hj) as Hlt.
        rewrite lookup_take_lt, lookup_drop by lia. by apply Hp.
      * apply lookup_ge_None in Hj. rewrite lookup_take_ge by lia. reflexivity.
  - split; [discriminate|]. intros (bl' & Heq & H0 & H2 & _). inversion Heq; subst bl'.
    exfalso. apply andb_false_iff in Hb as [Hb|Hb].
    + apply andb_false_iff in Hb as [Hb|Hb]; apply Z.leb_gt in Hb; lia.
    + apply Z.leb_gt in Hb. lia.
Qed.

Lemma holds_app h p xs ys :
  holds h p (xs ++ ys)
  <-> holds h p xs /\ holds h (ptr_add p (Z.of_nat (length xs))) ys.
Proof.
  rewrite !holds_pointwise. unfold ptr_add. cbn [blk pofs]. split.
  - intros (bl & Hb & H0 & H1 & Hp). rewrite length_app in H1. split.
    + exists bl. repeat split; auto; [lia|]. intros j b Hj. apply Hp.
      by apply lookup_app_l_Some.
    + exists bl. repeat split; auto; [lia|lia|]. intros j b Hj.
      replace (Z.to_nat (pofs p + Z.of_nat (length xs)) + j)%nat
        with (Z.to_nat (pofs p) + (length xs + j))%nat by lia.
      apply Hp. rewrite lookup_app_r by lia.
      replace (length xs + j - length xs)%nat with j by lia. exact Hj.
  - intros [(bl & Hb & H0 & H1 & Hp) (bl' & Hb' & H0' & H1' & Hp')].
    assert (bl' = bl) by congruence. subst bl'.
    exists bl. rewrite length_app. repeat split; auto; [lia|].
    intros j b Hj. destruct (decide (j < length xs)%nat) as [Hlt|Hge].
    + apply Hp. by rewrite lookup_app_l in Hj.
    + rewrite lookup_app_r in Hj by lia.
      specialize (Hp' _ _ Hj).
      replace (Z.to_nat (pofs p + Z.of_nat (length xs)) + (j - length xs))%nat
        with (Z.to_nat (pofs p) + j)%nat in Hp' by lia. exact Hp'.
Qed.

(** ** Stores and the bytes they leave *)

Lemma store_bytes_holds h p bs h' : store_bytes h p bs = Ok h' -> holds h' p bs.
Proof.
  unfold store_bytes, holds. intros H. apply load_store_same in H.
  rewrite length_map in H. by apply load_bytes_cells.
Qed.

Lemma store_bytes_other h p bs h' q xs :
  store_bytes h p bs = Ok h' ->
  blk q <> blk p \/ pofs q + Z.of_nat (length xs) <= pofs p
    \/ pofs p + Z.of_nat (length bs) <= pofs q ->
  holds h q xs -> holds h' q xs.
Proof.
  unfold store_bytes, holds. intros H Hd Hq.
  apply load_bytes_cells. apply load_bytes_cells in Hq.
  rewrite <- Hq. eapply load_store_other; [exact H|]. by rewrite length_map.
Qed.


Lemma region_in_heap_le h d n m :
  region_in_heap h d n -> m <= n -> region_in_heap h d m.
Proof. intros (bl & ? & ? & ?) Hm. exists bl. repeat split; auto. lia. Qed.

Lemma store_bytes_region h d n f bs :
  region_in_heap h d n -> 0 <= f -> f + Z.of_nat (length bs) <= n ->
  exists h', store_bytes h (ptr_add d f) bs = Ok h'.
Proof.
  intros (bl & Hb & H0 & H1) Hf Hl. unfold store_bytes, store_cells, ptr_add.
  cbn [blk pofs]. rewrite Hb, length_map.
  assert (Hc : (0 <=? pofs d + f)
               && (pofs d + f + Z.of_nat (length bs) <=? Z.of_nat (length bl)) = true)
    by (rewrite andb_true_iff, !Z.leb_le; lia).
  rewrite Hc. eauto.
Qed.

Lemma store_bytes_region_other h p bs h' d n :
  store_bytes h p bs = Ok h' -> region_in_heap h d n -> region_in_heap h' d n.
Proof.
  unfold store_bytes. intros H (bl & Hb & H0 & H1).
  pose proof (store_cells_length _ _ _ _ H (blk d)) as Hl. rewrite Hb in Hl.
  unfold region_in_heap.
  destruct (h' !! blk d) as [bl'|]; [|discriminate]. cbn in Hl.
  exists bl'. split; [done|]. split; [done|]. inversion Hl. lia.
Qed.

(** ** The layout of an entry *)

Lemma ptr_add_0 d : ptr_add d 0 = d.
Proof. destruct d. unfold ptr_add. cbn. f_equal. lia. Qed.

Lemma ptr_add_add d a b : ptr_add (ptr_add d a) b = ptr_add d (a + b).
Proof. unfold ptr_add. cbn. f_equal. lia. Qed.

Lemma to_int_small x : 0 <= x < 2 ^ 31 -> to_int x = x.
Proof.
  intros H. unfold to_int, u32. rewrite Z.mod_small by lia.
  destruct (x <? 2 ^ 31) eqn:E; [done|]. apply Z.ltb_ge in E. lia.
Qed.

Lemma u32_small x : 0 <= x < 2 ^ 32 -> u32 x = x.
Proof. intros H. unfold u32. by apply Z.mod_small. Qed.

Lemma u64_small x : 0 <= x < 2 ^ 64 -> u64 x = x.
Proof. intros H. unfold u64. by apply Z.mod_small. Qed.

Lemma u32_range x : 0 <= u32 x < 2 ^ 32.
Proof. unfold u32. apply Z.mod_pos_bound. lia. Qed.

Lemma u64_range x : 0 <= u64 x < 2 ^ 64.
Proof. unfold u64. apply Z.mod_pos_bound. lia. Qed.

Lemma field_ptr k b d found f :
  page_at k b d -> 0 <= f < PAGE_SIZE ->
  scan_get_field k (head_iter b found) f = Ok (ptr_add d f).
Proof.
  intros (bp & Hbp & Hd) Hf. unfold PAGE_SIZE in Hf.
  unfold scan_get_field, head_iter. cbn [it_offset it_pages].
  rewrite Z.add_0_l, to_int_small by lia. unfold PAGE_SIZE.
  rewrite Z.quot_small, Z.rem_small by lia.
  change (nthZ [mk_page_info (MemPage b) (Some b) (Some b)] 0)
    with (Some (mk_page_info (MemPage b) (Some b) (Some b))).
  cbn [rd bind pi_page read_page].
  rewrite Hbp. cbn [bind mp_page]. rewrite Hd. reflexivity.
Qed.

Lemma scan_get_uint32_holds k b d found f v :
  page_at k b d -> 0 <= f < PAGE_SIZE ->
  holds (kd_heap k) (ptr_add d f) (le_encode 4 (u32 v)) ->
  scan_get_uint32 k (head_iter b found) f = Ok (u32 v).
Proof.
  intros Hp Hf Hh. unfold scan_get_uint32. rewrite (field_ptr _ _ _ _ _ Hp Hf).
  cbn [bind]. unfold holds in Hh. rewrite length_le_encode in Hh.
  change (Z.of_nat 4) with 4 in Hh. rewrite Hh. cbn [bind].
  rewrite le_decode_encode by apply u32_range.
  change (2 ^ (8 * Z.of_nat 4)) with (2 ^ 32). f_equal. apply u32_small, u32_range.
Qed.

Lemma scan_get_uint64_holds k b d found f v :
  page_at k b d -> 0 <= f < PAGE_SIZE ->
  holds (kd_heap k) (ptr_add d f) (le_encode 8 (u64 v)) ->
  scan_get_uint64 k (head_iter b found) f = Ok (u64 v).
Proof.
  intros Hp Hf Hh. unfold scan_get_uint64. rewrite (field_ptr _ _ _ _ _ Hp Hf).
  cbn [bind]. unfold holds in Hh. rewrite length_le_encode in Hh.
  change (Z.of_nat 8) with 8 in Hh. rewrite Hh. cbn [bind].
  rewrite le_decode_encode by apply u64_range.
  change (2 ^ (8 * Z.of_nat 8)) with (2 ^ 64). f_equal. apply u64_small, u64_range.
Qed.

(** The eight fields of an entry laid out at [d]. *)
Lemma entry_bytes_fields h d e :
  holds h d (entry_bytes e) <->
  holds h (ptr_add d ENTRY_FILE_ID_OFFSET) (le_encode 4 (u32 (e_file_id e)))
  /\ holds h (ptr_add d ENTRY_TOTAL_SIZE_OFFSET) (le_encode 4 (u32 (e_total_size e)))
  /\ holds h (ptr_add d ENTRY_EPOCH_OFFSET) (le_encode 8 (u64 (e_epoch e)))
  /\ holds h (ptr_add d ENTRY_OFFSET_OFFSET) (le_encode 8 (u64 (e_offset e)))
  /\ holds h (ptr_add d ENTRY_TIMESTAMP_OFFSET) (le_encode 4 (u32 (e_timestamp e)))
  /\ holds h (ptr_add d ENTRY_NEXT_OFFSET) (le_encode 4 (u32 (e_next e)))
  /\ holds h (ptr_add d ENTRY_KEY_SIZE_OFFSET) (le_encode 4 (u32 (e_key_size e)))
  /\ holds h (ptr_add d ENTRY_KEY_OFFSET) (e_key e).
Proof.
  unfold entry_bytes, ENTRY_FILE_ID_OFFSET, ENTRY_TOTAL_SIZE_OFFSET,
    ENTRY_EPOCH_OFFSET, ENTRY_OFFSET_OFFSET, ENTRY_TIMESTAMP_OFFSET,
    ENTRY_NEXT_OFFSET, ENTRY_KEY_SIZE_OFFSET, ENTRY_KEY_OFFSET.
  rewrite ptr_add_0.
  rewrite holds_app, length_le_encode.
  rewrite holds_app, length_le_encode, ptr_add_add.
  rewrite holds_app, length_le_encode, ptr_add_add.
  rewrite holds_app, length_le_encode, ptr_add_add.
  rewrite holds_app, length_le_encode, ptr_add_add.
  rewrite holds_app, length_le_encode, ptr_add_add.
  rewrite holds_app, length_le_encode, ptr_add_add.
  reflexivity.
Qed.

Lemma strncmp_holds h key : forall p,
  holds h p key -> strncmp h key p (length key) = Ok 0.
Proof.
  induction key as [|a key IH]; intros p Hh; [reflexivity|].
  change (a :: key) with ([a] ++ key) in Hh.
  apply holds_app in Hh as [H1 H2]. cbn [length strncmp].
  unfold holds in H1. cbn [length] in H1. change (Z.of_nat 1) with 1 in H1.
  rewrite H1. cbn [bind le_decode].
  rewrite Z.mul_0_r, Z.add_0_r, Z.eqb_refl.
  destruct (a =? 0); [reflexivity|]. apply IH. exact H2.
Qed.

(** ** The entry at the head of a chain *)

Lemma with_mem_page_read k i m m0 :
  read_mem_page k i = Ok m0 -> read_mem_page (with_mem_page k i m) i = Ok m.
Proof.
  intros H. apply (write_read_mem_page k i m). apply (write_mem_page_Ok _ _ _ _ H).
Qed.

Lemma with_mem_page_id k i m :
  read_mem_page k i = Ok m -> with_mem_page k i m = k.
Proof.
  unfold read_mem_page, with_mem_page, nthZ. intros H. apply rd_Ok in H.
  destruct (i <? 0); [discriminate|].
  rewrite list_insert_id by exact H. by destruct k.
Qed.

Lemma with_mem_page_twice k i m m' :
  with_mem_page (with_mem_page k i m) i m' = with_mem_page k i m'.
Proof.
  unfold with_mem_page. cbn. by rewrite list_insert_insert_eq.
Qed.

Lemma with_mutex_twice m a b : with_mutex (with_mutex m a) b = with_mutex m b.
Proof. reflexivity. Qed.

Lemma with_mutex_id m a : page_mutex (mp_page m) = Some a -> with_mutex m a = m.
Proof. destruct m as [[] ? ? ? ?]. cbn. by intros ->. Qed.

Lemma lock_page_mem k i m :
  read_mem_page k i = Ok m -> page_mutex (mp_page m) = Some false ->
  lock_page k (MemPage i) = Ok (with_mem_page k i (with_mutex m true)).
Proof.
  intros Hm Hx. unfold lock_page. cbn [read_page write_page]. rewrite Hm.
  cbn [bind]. rewrite Hx. cbn [mutex_lock bind].
  by rewrite (write_mem_page_Ok _ _ _ _ Hm).
Qed.

Lemma unlock_page_mem k i m :
  read_mem_page k i = Ok m -> page_mutex (mp_page m) = Some true ->
  unlock_page k (MemPage i) = Ok (with_mem_page k i (with_mutex m false)).
Proof.
  intros Hm Hx. unfold unlock_page. cbn [read_page write_page]. rewrite Hm.
  cbn [bind]. rewrite Hx. cbn [mutex_unlock bind].
  by rewrite (write_mem_page_Ok _ _ _ _ Hm).
Qed.

Section ChainHead.

Variable hash : list Z -> Z -> Z -> Z.
Variable env : env_t.
Variables (k : bitcask_keydir) (e : keydir_entry_t).

Variable b : Z.
Hypothesis Hb : bucket hash (kd_num_pages k) (e_key e) (e_key_size e) = b.

Hypothesis Hnp : kd_num_pages k <> 0.
Hypothesis Hfits : entry_fits e.
Hypothesis Hnext : u32 (e_next e) = 0.

Variables (bp : mem_page_t) (d : ptr).
Hypothesis Hbp : read_mem_page k b = Ok bp.
Hypothesis Hmx : page_mutex (mp_page bp) = Some false.
Hypothesis Hd : page_data (mp_page bp) = Some d.
Hypothesis Halt : mp_alt_idx bp = MAX_PAGE_IDX.
Hypothesis Hsz : mp_size bp <> 0.
Hypothesis Hh : holds (kd_heap k) d (entry_bytes e).

Local Notation "'kL'" := (locked_at k b bp).

Lemma kL_read : read_mem_page kL b = Ok (with_mutex bp true).
Proof. by apply (with_mem_page_read k b _ bp). Qed.

Lemma kL_page_at : page_at kL b d.
Proof. exists (with_mutex bp true). split; [apply kL_read | exact Hd]. Qed.

Lemma kL_lock : lock_page k (MemPage b) = Ok kL.
Proof. by apply lock_page_mem. Qed.

Lemma kL_unlock : unlock_page kL (MemPage b) = Ok k.
Proof.
  rewrite (unlock_page_mem kL b _ kL_read) by reflexivity.
  unfold locked_at. rewrite with_mem_page_twice, with_mutex_twice.
  rewrite (with_mutex_id _ _ Hmx). by rewrite with_mem_page_id.
Qed.

Lemma ks_range : 0 <= e_key_size e < 4060.
Proof. destruct Hfits as [H1 H2]. unfold ENTRY_KEY_OFFSET, PAGE_SIZE in H2. lia. Qed.

Lemma kL_key_size found : scan_get_key_size kL (head_iter b found) = Ok (e_key_size e).
Proof.
  apply entry_bytes_fields in Hh as (_ & _ & _ & _ & _ & _ & H & _).
  unfold scan_get_key_size.
  rewrite (scan_get_uint32_holds kL b d found _ (e_key_size e) kL_page_at); [| done | exact H].
  f_equal. apply u32_small. pose proof ks_range. lia.
Qed.

Lemma kL_epoch found : scan_get_epoch kL (head_iter b found) = Ok (u64 (e_epoch e)).
Proof.
  apply entry_bytes_fields in Hh as (_ & _ & H & _).
  unfold scan_get_epoch. by apply (scan_get_uint64_holds kL b d found _ _ kL_page_at).
Qed.

Lemma kL_next found : scan_get_next kL (head_iter b found) = Ok 0.
Proof.
  apply entry_bytes_fields in Hh as (_ & _ & _ & _ & _ & H & _).
  unfold scan_get_next. rewrite <- Hnext.
  by apply (scan_get_uint32_holds kL b d found _ _ kL_page_at).
Qed.

Lemma kL_lock_pages fuel found :
  lock_pages_to_scan_entry env fuel kL (head_iter b found)
  = Ok (kL, head_iter b found, 0).
Proof.
  unfold lock_pages_to_scan_entry.
  change (it_offset (head_iter b found)) with 0.
  change (it_num_pages (head_iter b found)) with 1.
  change (u32 (u32 (0 + ENTRY_KEY_OFFSET) / PAGE_SIZE + 1)) with 1.
  change (1 <? 1) with false. cbn [bind negb Z.eqb].
  rewrite kL_key_size. cbn [bind].
  pose proof ks_range as Hr.
  assert (Hn : u32 (u32 (0 + ENTRY_KEY_OFFSET + e_key_size e) / PAGE_SIZE + 1) = 1).
  { unfold ENTRY_KEY_OFFSET, PAGE_SIZE. rewrite (u32_small (0 + 36 + _)) by lia.
    rewrite Z.div_small by lia. reflexivity. }
  change (it_offset (head_iter b found)) with 0.
  change (it_num_pages (head_iter b found)) with 1.
  rewrite Hn. change (u32 (1 - 1)) with 0.
  unfold extend_iter_chain.
  destruct fuel; reflexivity.
Qed.

Lemma kL_keys_equal found :
  scan_keys_equal kL (e_key e) (e_key_size e) (head_iter b found) = Ok 1.
Proof.
  unfold scan_keys_equal.
  change (it_offset (head_iter b found)) with 0.
  change (u32 (0 + ENTRY_KEY_OFFSET)) with 36.
  change (36 mod PAGE_SIZE) with 36. change (36 / PAGE_SIZE) with 0.
  change (PAGE_SIZE - 36) with 4060.
  change (nthZ (it_pages (head_iter b found)) 0)
    with (Some (mk_page_info (MemPage b) (Some b) (Some b))).
  cbn [rd bind pi_page read_page]. rewrite kL_read. cbn [bind mp_page with_mutex
    set_mp_page set_page_mutex page_data]. rewrite Hd. cbn [rd bind].
  pose proof ks_range as Hr.
  assert (Hlt : (e_key_size e <? 4060) = true) by (apply Z.ltb_lt; lia).
  rewrite Hlt.
  apply entry_bytes_fields in Hh as (_ & _ & _ & _ & _ & _ & _ & H).
  destruct Hfits as [Hks _].
  replace (Z.to_nat (e_key_size e)) with (length (e_key e)) by lia.
  change (kd_heap kL) with (kd_heap k). unfold ENTRY_KEY_OFFSET in H.
  rewrite (strncmp_holds _ _ _ H). cbn [bind negb Z.eqb].
  rewrite Z.sub_diag. change (u32 0) with 0.
  reflexivity.
Qed.

(** The scan for the key of [e] at an epoch not before the epoch of [e]:
    found, at offset 0. *)
Lemma scan_chain_head_found fuel epoch :
  u64 (e_epoch e) <= epoch ->
  scan_for_key hash env (S fuel) k (e_key e) (e_key_size e) epoch
  = Ok (kL, head_iter b true).
Proof.
  intros He. unfold scan_for_key.
  destruct (kd_num_pages k =? 0) eqn:E; [apply Z.eqb_eq in E; done|].
  fold (bucket hash (kd_num_pages k) (e_key e) (e_key_size e)). rewrite Hb.
  unfold scan_for_key_at. rewrite kL_lock. cbn [bind]. rewrite kL_read.
  cbn [bind mp_alt_idx with_mutex set_mp_page]. rewrite Halt, Z.eqb_refl.
  cbn [bind].
  change (init_scan_iterator b (MemPage b) b) with (head_iter b false).
  unfold scan_pages.
  change (head (it_pages (head_iter b false)))
    with (Some (mk_page_info (MemPage b) (Some b) (Some b))).
  cbn [rd bind pi_mem_page]. rewrite kL_read. cbn [bind mp_size with_mutex set_mp_page].
  destruct (mp_size bp =? 0) eqn:E0; [apply Z.eqb_eq in E0; done|].
  cbn [scan_pages_loop]. rewrite kL_lock_pages. cbn [bind].
  rewrite kL_keys_equal. cbn [bind negb Z.eqb]. rewrite kL_epoch. cbn [bind].
  destruct (epoch <? u64 (e_epoch e)) eqn:E1; [apply Z.ltb_lt in E1; lia|].
  unfold scan_to_epoch. rewrite kL_epoch. cbn [bind].
  destruct (epoch <=? u64 (e_epoch e)) eqn:E2.
  - apply Z.leb_le in E2. assert (Heq : u64 (e_epoch e) = epoch) by lia.
    rewrite Heq, Z.eqb_refl. reflexivity.
  - change (set_it_found (head_iter b false) true) with (head_iter b true).
    rewrite kL_next. cbn [bind]. destruct fuel; reflexivity.
Qed.

(** The scan at an epoch before the epoch of [e]: not found. *)
Lemma scan_chain_head_early fuel epoch :
  epoch < u64 (e_epoch e) ->
  scan_for_key hash env (S fuel) k (e_key e) (e_key_size e) epoch
  = Ok (kL, head_iter b false).
Proof.
  intros He. unfold scan_for_key.
  destruct (kd_num_pages k =? 0) eqn:E; [apply Z.eqb_eq in E; done|].
  fold (bucket hash (kd_num_pages k) (e_key e) (e_key_size e)). rewrite Hb.
  unfold scan_for_key_at. rewrite kL_lock. cbn [bind]. rewrite kL_read.
  cbn [bind mp_alt_idx with_mutex set_mp_page]. rewrite Halt, Z.eqb_refl.
  cbn [bind].
  change (init_scan_iterator b (MemPage b) b) with (head_iter b false).
  unfold scan_pages.
  change (head (it_pages (head_iter b false)))
    with (Some (mk_page_info (MemPage b) (Some b) (Some b))).
  cbn [rd bind pi_mem_page]. rewrite kL_read. cbn [bind mp_size with_mutex set_mp_page].
  destruct (mp_size bp =? 0) eqn:E0; [apply Z.eqb_eq in E0; done|].
  cbn [scan_pages_loop]. rewrite kL_lock_pages. cbn [bind].
  rewrite kL_keys_equal. cbn [bind negb Z.eqb]. rewrite kL_epoch. cbn [bind].
  destruct (epoch <? u64 (e_epoch e)) eqn:E1; [reflexivity|]. apply Z.ltb_ge in E1. lia.
Qed.

Lemma kL_to_entry found r :
  scan_iter_to_entry kL (head_iter b found) r
  = Ok (mk_entry (u32 (e_file_id e)) (u32 (e_total_size e)) (u64 (e_epoch e))
          (u64 (e_offset e)) (u32 (e_timestamp e)) (u64 (e_offset e) =? MAX_OFFSET)
          (e_next r) (e_key_size r) (e_key r)).
Proof.
  pose proof kL_page_at as Hp.
  apply entry_bytes_fields in Hh as (H1 & H2 & H3 & H4 & H5 & _).
  unfold scan_iter_to_entry, scan_get_file_id, scan_get_total_size, scan_get_epoch,
    scan_get_offset, scan_get_timestamp.
  rewrite (scan_get_uint32_holds kL b d found ENTRY_FILE_ID_OFFSET _ Hp ltac:(done) H1).
  cbn [bind].
  rewrite (scan_get_uint32_holds kL b d found ENTRY_TOTAL_SIZE_OFFSET _ Hp ltac:(done) H2).
  cbn [bind].
  rewrite (scan_get_uint64_holds kL b d found ENTRY_EPOCH_OFFSET _ Hp ltac:(done) H3).
  cbn [bind].
  rewrite (scan_get_uint64_holds kL b d found ENTRY_OFFSET_OFFSET _ Hp ltac:(done) H4).
  cbn [bind].
  rewrite (scan_get_uint32_holds kL b d found ENTRY_TIMESTAMP_OFFSET _ Hp ltac:(done) H5).
  cbn [bind].
  reflexivity.
Qed.

Lemma get_chain_head_found fuel epoch r :
  u64 (e_epoch e) <= epoch ->
  keydir_get hash env (S fuel) k (e_key e) (e_key_size e) epoch r
  = Ok (k, mk_entry (u32 (e_file_id e)) (u32 (e_total_size e)) (u64 (e_epoch e))
             (u64 (e_offset e)) (u32 (e_timestamp e)) (u64 (e_offset e) =? MAX_OFFSET)
             (e_next r) (e_key_size r) (e_key r),
        KEYDIR_GET_FOUND).
Proof.
  intros He. unfold keydir_get. rewrite (scan_chain_head_found _ _ He).
  cbn [bind it_found head_iter]. rewrite kL_to_entry. cbn [bind].
  unfold free_scan_iter. cbn [head_iter it_pages unlock_pages pi_page bind]. rewrite kL_unlock.
  reflexivity.
Qed.

Lemma get_chain_head_early fuel epoch r :
  epoch < u64 (e_epoch e) ->
  keydir_get hash env (S fuel) k (e_key e) (e_key_size e) epoch r
  = Ok (k, r, KEYDIR_GET_NOT_FOUND).
Proof.
  intros He. unfold keydir_get. rewrite (scan_chain_head_early _ _ He).
  cbn [bind it_found head_iter].
  unfold free_scan_iter. cbn [head_iter it_pages unlock_pages pi_page bind]. rewrite kL_unlock.
  reflexivity.
Qed.

End ChainHead.

(** ** Stores on the entry at the head of a chain *)

Lemma page_at_set_heap k b d h : page_at k b d -> page_at (set_heap k h) b d.
Proof. intros H. exact H. Qed.

Lemma scan_set_uint32_head k b d found f v n :
  page_at k b d -> region_in_heap (kd_heap k) d n ->
  0 <= f -> f + 4 <= n -> n <= PAGE_SIZE ->
  exists h', store_bytes (kd_heap k) (ptr_add d f) (le_encode 4 (u32 v)) = Ok h'
             /\ scan_set_uint32 k (head_iter b found) f v = Ok (set_heap k h').
Proof.
  intros Hp Hr H0 H1 Hn.
  destruct (store_bytes_region _ _ _ f (le_encode 4 (u32 v)) Hr H0) as [h' Hs].
  { rewrite length_le_encode. lia. }
  exists h'. split; [exact Hs|]. unfold scan_set_uint32.
  rewrite (field_ptr _ _ _ _ _ Hp) by lia. cbn [bind]. rewrite Hs. reflexivity.
Qed.

Lemma scan_set_uint64_head k b d found f v n :
  page_at k b d -> region_in_heap (kd_heap k) d n ->
  0 <= f -> f + 8 <= n -> n <= PAGE_SIZE ->
  exists h', store_bytes (kd_heap k) (ptr_add d f) (le_encode 8 (u64 v)) = Ok h'
             /\ scan_set_uint64 k (head_iter b found) f v = Ok (set_heap k h').
Proof.
  intros Hp Hr H0 H1 Hn.
  destruct (store_bytes_region _ _ _ f (le_encode 8 (u64 v)) Hr H0) as [h' Hs].
  { rewrite length_le_encode. lia. }
  exists h'. split; [exact Hs|]. unfold scan_set_uint64.
  rewrite (field_ptr _ _ _ _ _ Hp) by lia. cbn [bind]. rewrite Hs. reflexivity.
Qed.

Lemma scan_set_key_head k b d found key ks :
  page_at k b d -> region_in_heap (kd_heap k) d (ENTRY_KEY_OFFSET + ks) ->
  ks = Z.of_nat (length key) -> ENTRY_KEY_OFFSET + ks < PAGE_SIZE ->
  exists h', store_bytes (kd_heap k) (ptr_add d ENTRY_KEY_OFFSET) key = Ok h'
             /\ scan_set_key k (head_iter b found) key ks = Ok (set_heap k h').
Proof.
  intros Hp Hr Hks Hfit. pose proof Hp as (bp & Hbp & Hd).
  unfold ENTRY_KEY_OFFSET, PAGE_SIZE in *.
  destruct (store_bytes_region _ _ _ 36 key Hr ltac:(lia) ltac:(lia)) as [h' Hs].
  exists h'. split; [exact Hs|]. unfold scan_set_key.
  change (it_offset (head_iter b found)) with 0.
  change (to_int (0 + ENTRY_KEY_OFFSET)) with 36.
  change (Z.quot 36 PAGE_SIZE) with 0. change (Z.rem 36 PAGE_SIZE) with 36.
  change (u32 (PAGE_SIZE - 36)) with 4060.
  change (nthZ (it_pages (head_iter b found)) 0)
    with (Some (mk_page_info (MemPage b) (Some b) (Some b))).
  cbn [rd bind pi_page read_page]. rewrite Hbp. cbn [bind]. rewrite Hd. cbn [rd bind].
  assert (Hlt : (ks <? 4060) = true) by (apply Z.ltb_lt; lia). rewrite Hlt.
  unfold memcpy_from_key at 1.
  assert (Hl : (Z.of_nat (length key) <? 0 + ks) = false) by (apply Z.ltb_ge; lia).
  rewrite Hl. change (Z.to_nat 0) with 0%nat. rewrite drop_0.
  rewrite take_ge by lia. rewrite Hs. cbn [bind].
  rewrite Z.sub_diag. change (u32 0) with 0.
  change (Z.to_nat (0 / PAGE_SIZE) + 1)%nat with 1%nat.
  reflexivity.
Qed.

(** Carries what is known of the bytes of the heap over a store. *)
Ltac after_store Hs :=
  let T := type of Hs in
  lazymatch T with
  | store_bytes ?h ?p ?bs = Ok ?h' =>
      repeat match goal with
      | H : holds h _ _ |- _ =>
          first
            [ apply (store_bytes_other _ _ _ _ _ _ Hs) in H;
              [| right; cbn [ptr_add pofs blk]; rewrite ?length_le_encode;
                 unfold ENTRY_FILE_ID_OFFSET, ENTRY_TOTAL_SIZE_OFFSET,
                   ENTRY_EPOCH_OFFSET, ENTRY_OFFSET_OFFSET, ENTRY_TIMESTAMP_OFFSET,
                   ENTRY_NEXT_OFFSET, ENTRY_KEY_SIZE_OFFSET, ENTRY_KEY_OFFSET; lia ]
            | clear H ]
      | H : region_in_heap h _ _ |- _ =>
          apply (store_bytes_region_other _ _ _ _ _ _ Hs) in H
      end;
      pose proof (store_bytes_holds _ _ _ _ Hs)
  end.

Ltac offsets :=
  unfold ENTRY_FILE_ID_OFFSET, ENTRY_TOTAL_SIZE_OFFSET, ENTRY_EPOCH_OFFSET,
    ENTRY_OFFSET_OFFSET, ENTRY_TIMESTAMP_OFFSET, ENTRY_NEXT_OFFSET,
    ENTRY_KEY_SIZE_OFFSET, ENTRY_KEY_OFFSET, PAGE_SIZE in *.

(** One 32-bit (64-bit) field store on the entry at the head of the
    chain. *)
Ltac set32 k fnd f v Hp Hr :=
  let h' := fresh "h" in let Hs := fresh "Hs" in let He := fresh "He" in
  destruct (scan_set_uint32_head k _ _ fnd f v _ Hp Hr) as (h' & Hs & He);
  [ offsets; lia | offsets; lia | offsets; lia |];
  erewrite He; clear He; cbn [bind]; cbn [kd_heap set_heap] in Hs;
  after_store Hs; clear Hs.

Ltac set64 k fnd f v Hp Hr :=
  let h' := fresh "h" in let Hs := fresh "Hs" in let He := fresh "He" in
  destruct (scan_set_uint64_head k _ _ fnd f v _ Hp Hr) as (h' & Hs & He);
  [ offsets; lia | offsets; lia | offsets; lia |];
  erewrite He; clear He; cbn [bind]; cbn [kd_heap set_heap] in Hs;
  after_store Hs; clear Hs.




(** [append_entry] at the head of an empty chain lays the entry out. *)
Lemma append_entry_head k b d found e :
  page_at k b d -> entry_fits e -> region_in_heap (kd_heap k) d PAGE_SIZE ->
  exists h',
    append_entry k (head_iter b found) e = Ok (set_heap k h')
    /\ holds h' d (entry_bytes e)
    /\ region_in_heap h' d PAGE_SIZE.
Proof.
  intros Hp [Hks Hfit] Hr.
  unfold append_entry, scan_set_file_id, scan_set_offset, scan_set_total_size,
    scan_set_timestamp, scan_set_epoch, scan_set_next, scan_set_key_size.
  set32 k found ENTRY_FILE_ID_OFFSET (e_file_id e) Hp Hr.
  set32 (set_heap k h) found ENTRY_TOTAL_SIZE_OFFSET (e_total_size e) Hp Hr.
  set64 (set_heap (set_heap k h) h0) found ENTRY_EPOCH_OFFSET (e_epoch e) Hp Hr.
  set64 (set_heap (set_heap (set_heap k h) h0) h1) found ENTRY_OFFSET_OFFSET
    (e_offset e) Hp Hr.
  set32 (set_heap (set_heap (set_heap (set_heap k h) h0) h1) h2) found
    ENTRY_TIMESTAMP_OFFSET (e_timestamp e) Hp Hr.
  set32 (set_heap (set_heap (set_heap (set_heap (set_heap k h) h0) h1) h2) h3) found
    ENTRY_NEXT_OFFSET (e_next e) Hp Hr.
  set32 (set_heap (set_heap (set_heap (set_heap (set_heap (set_heap k h) h0) h1) h2)
           h3) h4) found ENTRY_KEY_SIZE_OFFSET (e_key_size e) Hp Hr.
  destruct (scan_set_key_head
              (set_heap (set_heap (set_heap (set_heap (set_heap (set_heap
                 (set_heap k h) h0) h1) h2) h3) h4) h5)
              b d found (e_key e) (e_key_size e) Hp) as (h6 & S & E);
    [ eapply region_in_heap_le; [exact Hr | lia] | exact Hks | exact Hfit |].
  rewrite E. cbn [kd_heap set_heap] in S. after_store S.
  exists h6. split; [reflexivity|]. split; [|assumption].
  apply entry_bytes_fields. repeat split; assumption.
Qed.

(** ** Empty buckets *)

Lemma entry_size_fits ks :
  0 <= ks -> ENTRY_KEY_OFFSET + ks < PAGE_SIZE ->
  0 < entry_size_for_key ks <= PAGE_SIZE.
Proof.
  unfold ENTRY_KEY_OFFSET, PAGE_SIZE. intros H0 H1.
  rewrite (entry_size_for_key_rounds ks H0) by (unfold ENTRY_KEY_OFFSET; lia).
  unfold ENTRY_KEY_OFFSET.
  pose proof (Z.div_mod (36 + ks + 7) 8 ltac:(lia)).
  pose proof (Z.mod_pos_bound (36 + ks + 7) 8 ltac:(lia)). lia.
Qed.

Lemma scan_empty_bucket hash env fuel k key ks epoch b bp :
  kd_num_pages k <> 0 ->
  bucket hash (kd_num_pages k) key ks = b ->
  read_mem_page k b = Ok bp ->
  page_mutex (mp_page bp) = Some false ->
  mp_alt_idx bp = MAX_PAGE_IDX -> mp_size bp = 0 ->
  scan_for_key hash env fuel k key ks epoch = Ok (locked_at k b bp, head_iter b false).
Proof.
  intros Hnp Hb Hbp Hmx Halt Hsz. unfold scan_for_key.
  destruct (kd_num_pages k =? 0) eqn:E; [apply Z.eqb_eq in E; done|].
  fold (bucket hash (kd_num_pages k) key ks). rewrite Hb.
  unfold scan_for_key_at. rewrite (lock_page_mem _ _ _ Hbp Hmx). cbn [bind].
  fold (locked_at k b bp).
  assert (Hr : read_mem_page (locked_at k b bp) b = Ok (with_mutex bp true))
    by (by apply (with_mem_page_read k b _ bp)).
  rewrite Hr. cbn [bind mp_alt_idx with_mutex set_mp_page]. rewrite Halt, Z.eqb_refl.
  cbn [bind]. change (init_scan_iterator b (MemPage b) b) with (head_iter b false).
  unfold scan_pages.
  change (head (it_pages (head_iter b false)))
    with (Some (mk_page_info (MemPage b) (Some b) (Some b))).
  cbn [rd bind pi_mem_page]. rewrite Hr. cbn [bind mp_size with_mutex set_mp_page].
  rewrite Hsz. reflexivity.
Qed.

(** X10. Looking up any key in an empty bucket: NOT_FOUND, and the keydir is
    as it was. *)
Theorem get_empty_bucket hash env fuel k key key_size epoch r :
  kd_num_pages k <> 0 ->
  empty_bucket k (bucket hash (kd_num_pages k) key key_size) ->
  keydir_get hash env fuel k key key_size epoch r = Ok (k, r, KEYDIR_GET_NOT_FOUND).
Proof.
  remember (bucket hash (kd_num_pages k) key key_size) as b eqn:Hb. symmetry in Hb.
  intros Hnp (bp & d & fr & Hbp & Hmx & Hd & Hfr & Halt & Hsz & Hbor & Hr).
  unfold keydir_get.
  rewrite (scan_empty_bucket hash env fuel k key key_size epoch b bp Hnp Hb Hbp Hmx
             Halt Hsz).
  cbn [bind it_found head_iter]. unfold free_scan_iter.
  cbn [head_iter it_pages unlock_pages pi_page bind].
  assert (Hrd : read_mem_page (locked_at k b bp) b = Ok (with_mutex bp true))
    by (by apply (with_mem_page_read k b _ bp)).
  rewrite (unlock_page_mem _ b _ Hrd) by reflexivity. cbn [bind].
  unfold locked_at. rewrite with_mem_page_twice, with_mutex_twice.
  rewrite (with_mutex_id _ _ Hmx). by rewrite with_mem_page_id.
Qed.

Lemma get_empty_bucket_witness :
  exists k0,
    fresh_keydir 1 1 None = Some k0
    /\ keydir_get zero_hash ok_env 8 k0 key_k 1 MAX_EPOCH blank_entry
       = Ok (k0, blank_entry, KEYDIR_GET_NOT_FOUND).
Proof.
  run_as k0 (fresh_keydir 1 1 None).
  exists k0. split; [vm_compute; reflexivity|].
  apply (get_empty_bucket zero_hash ok_env 8 k0 key_k 1 MAX_EPOCH blank_entry);
    [vm_compute; congruence|].
  change (empty_bucket k0 0).
  apply (common_init_empty_buckets ok_env 0 1 1 None k0);
    [lia | reflexivity | vm_compute; reflexivity | lia].
Defined.

Lemma extend_iter_chain_0 env fuel k iter :
  extend_iter_chain env fuel k iter 0 = Ok (k, iter, 0).
Proof. unfold extend_iter_chain. destruct fuel; reflexivity. Qed.

Lemma write_prep_empty_bucket env fuel k b bp fr ks :
  read_mem_page k b = Ok bp ->
  page_mutex (mp_page bp) = Some false ->
  page_is_free (mp_page bp) = Some fr ->
  mp_size bp = 0 -> mp_is_borrowed bp = 0 ->
  0 <= ks -> ENTRY_KEY_OFFSET + ks < PAGE_SIZE ->
  write_prep env fuel (locked_at k b bp) (head_iter b false) ks
  = Ok (with_mem_page k b (written_page bp (entry_size_for_key ks) true),
        head_iter b false, WRITE_PREP_OK).
Proof.
  intros Hbp Hmx Hfr Hsz Hbor Hk0 Hfit.
  pose proof (entry_size_fits ks Hk0 Hfit) as Hes. unfold PAGE_SIZE in Hes.
  assert (Hr : read_mem_page (locked_at k b bp) b = Ok (with_mutex bp true))
    by (by apply (with_mem_page_read k b _ bp)).
  unfold write_prep.
  change (head (it_pages (head_iter b false)))
    with (Some (mk_page_info (MemPage b) (Some b) (Some b))).
  cbn [rd bind pi_mem_page]. rewrite Hr. cbn [bind].
  change (it_offset (head_iter b false)) with 0. rewrite Z.add_0_l.
  rewrite (u32_small (entry_size_for_key ks)) by lia.
  cbn [mp_size with_mutex set_mp_page]. rewrite Hsz.
  destruct (entry_size_for_key ks <? 0) eqn:E; [apply Z.ltb_lt in E; lia|].
  unfold scan_is_first_in_memory.
  change (head (it_pages (head_iter b false)))
    with (Some (mk_page_info (MemPage b) (Some b) (Some b))).
  cbn [rd bind pi_mem_page pi_page page_ref_eqb]. rewrite Z.eqb_refl.
  cbn [mp_page with_mutex set_mp_page set_page_mutex page_is_free].
  rewrite Hfr. cbn [rd bind].
  assert (Hpages : u32 (u32 (entry_size_for_key ks + PAGE_SIZE - 1) / PAGE_SIZE
                        - it_num_pages (head_iter b false)) = 0).
  { change (it_num_pages (head_iter b false)) with 1. unfold PAGE_SIZE.
    rewrite (u32_small (_ + _ - _)) by lia.
    replace ((entry_size_for_key ks + 4096 - 1) / 4096) with 1; [reflexivity|].
    apply (Z.div_unique _ _ _ (entry_size_for_key ks - 1)); lia. }
  assert (Hfin : forall k2,
    read_mem_page k2 b
    = Ok (mk_mem_page
            (mk_page (page_data (mp_page bp)) (Some true) (page_prev (mp_page bp))
               (page_next (mp_page bp)) (page_next_free (mp_page bp)) (Some 0))
            0 (mp_alt_idx bp) (mp_dead_bytes bp) 0) ->
    with_mem_page k2 b (written_page bp (entry_size_for_key ks) true)
    = with_mem_page k b (written_page bp (entry_size_for_key ks) true) ->
    (let* base_page := read_mem_page k2 b in
     let* '(k0, ret) :=
       if (mp_size base_page =? 0) && negb (mp_is_borrowed base_page =? 0)
       then reclaim_borrowed_page env fuel k2 b else Ok (k2, WRITE_PREP_OK) in
     match ret with
     | WRITE_PREP_OK =>
         let* '(k1, iter, rc) :=
           extend_iter_chain env fuel k0 (head_iter b false)
             (u32 (u32 (entry_size_for_key ks + PAGE_SIZE - 1) / PAGE_SIZE
                   - it_num_pages (head_iter b false))) in
         if negb (rc =? 0) then Ok (k1, iter, WRITE_PREP_NO_MEM)
         else
           let* base_page0 := read_mem_page k1 b in
           let* k3 := write_mem_page k1 b
                        (set_mp_size base_page0 (entry_size_for_key ks)) in
           Ok (k3, iter, WRITE_PREP_OK)
     | _ => Ok (k0, head_iter b false, ret)
     end)
    = Ok (with_mem_page k b (written_page bp (entry_size_for_key ks) true),
          head_iter b false, WRITE_PREP_OK)).
  { intros k2 Hr2 Hk2. rewrite Hr2. cbn [bind mp_size mp_is_borrowed Z.eqb negb andb].
    rewrite Hpages, extend_iter_chain_0. cbn [bind Z.eqb negb]. rewrite Hr2.
    cbn [bind]. rewrite (write_mem_page_Ok _ _ _ _ Hr2). cbn [bind].
    f_equal. f_equal. f_equal. rewrite <- Hk2.
    unfold with_mem_page, written_page, set_mp_size.
    cbn [mp_page mp_size mp_alt_idx mp_dead_bytes mp_is_borrowed]. by rewrite Hbor. }
  destruct (negb (fr =? 0)) eqn:Efr.
  - rewrite (write_mem_page_Ok _ _ _ _ Hr). cbn [bind].
    apply Hfin.
    + erewrite (write_read_mem_page _ b) by apply (write_mem_page_Ok _ _ _ _ Hr).
      destruct bp as [[] ? ? ? ?]. cbn in *. subst. reflexivity.
    + unfold locked_at, with_mem_page. cbn [kd_mem_pages set_mem_pages].
      by rewrite !list_insert_insert_eq.
  - cbn [bind]. apply Hfin.
    + rewrite Hr. apply negb_false_iff, Z.eqb_eq in Efr. subst fr.
      destruct bp as [[] ? ? ? ?]. cbn in *. subst. reflexivity.
    + unfold locked_at. by rewrite with_mem_page_twice.
Qed.

Lemma chain_sizes_with_mem_page k i m m0 :
  read_mem_page k i = Ok m0 ->
  chain_sizes (with_mem_page k i m) = <[Z.to_nat i := mp_size m]> (chain_sizes k).
Proof.
  intros _. unfold chain_sizes, with_mem_page. cbn. by rewrite list_fmap_insert.
Qed.

(** The first put into an empty bucket. It returns OK, has consumed one
    epoch, and leaves the entry, stamped with that epoch and with no next
    version, at the head of the chain of the bucket; the chain has the size
    of the entry, the other memory pages are as they were. *)
Lemma put_empty_bucket hash env fuel k entry old_offset :
  kd_num_pages k <> 0 ->
  entry_fits entry ->
  let b := bucket hash (kd_num_pages k) (e_key entry) (e_key_size entry) in
  let e1 := set_e_next (set_e_epoch entry (u64 (kd_epoch k + 1))) 0 in
  empty_bucket k b ->
  exists k1,
    keydir_put hash env (S fuel) k entry 0 old_offset = Ok (k1, e1, KEYDIR_PUT_OK)
    /\ chain_head k1 b e1
    /\ kd_epoch k1 = u64 (kd_epoch k + 1)
    /\ kd_min_epoch k1 = kd_min_epoch k
    /\ kd_num_pages k1 = kd_num_pages k
    /\ chain_sizes k1
       = <[Z.to_nat b := entry_size_for_key (e_key_size entry)]> (chain_sizes k)
    /\ forall j, j <> b -> read_mem_page k1 j = read_mem_page k j.
Proof.
  intros Hnp Hfits b e1 (bp & d & fr & Hbp & Hmx & Hd & Hfr & Halt & Hsz & Hbor & Hr).
  pose proof Hfits as [Hks Hfit].
  assert (Hk0 : 0 <= e_key_size entry) by lia.
  set (ep := u64 (kd_epoch k + 1)) in *.
  set (ke := set_epoch k ep).
  set (esz := entry_size_for_key (e_key_size entry)).
  cbn [keydir_put bc_atomic_incr64]. fold ep. fold ke.
  cbn [set_e_epoch e_key e_key_size e_epoch].
  rewrite (scan_empty_bucket hash env fuel ke (e_key entry) (e_key_size entry) ep b bp
             Hnp eq_refl Hbp Hmx Halt Hsz).
  cbn [bind]. change (it_found (head_iter b false)) with false.
  cbn [Z.eqb negb].
  rewrite (write_prep_empty_bucket env fuel ke b bp fr (e_key_size entry)
             Hbp Hmx Hfr Hsz Hbor Hk0 Hfit).
  cbn [bind]. fold esz.
  set (k3 := with_mem_page ke b (written_page bp esz true)).
  assert (Hr3 : read_mem_page k3 b = Ok (written_page bp esz true))
    by apply (with_mem_page_read ke b _ bp Hbp).
  assert (Hp3 : page_at k3 b d) by (exists (written_page bp esz true); auto).
  destruct (append_entry_head k3 b d false e1 Hp3) as (h' & Ha & Hh & Hr').
  { exact Hfits. } { exact Hr. }
  fold (set_e_epoch entry ep). fold e1. rewrite Ha. cbn [bind].
  unfold free_scan_iter. cbn [head_iter it_pages unlock_pages pi_page bind].
  assert (Hr4 : read_mem_page (set_heap k3 h') b = Ok (written_page bp esz true))
    by exact Hr3.
  rewrite (unlock_page_mem _ b _ Hr4) by reflexivity. cbn [bind].
  eexists. split; [reflexivity|].
  change (with_mutex (written_page bp esz true) false) with (written_page bp esz false).
  assert (Hr5 : read_mem_page (with_mem_page (set_heap k3 h') b (written_page bp esz false)) b
                = Ok (written_page bp esz false))
    by apply (with_mem_page_read _ b _ _ Hr4).
  split.
  { exists (written_page bp esz false), d. split; [exact Hr5|].
    split; [reflexivity|]. split; [exact Hd|]. split; [exact Halt|].
    split; [|exact Hh].
    pose proof (entry_size_fits _ Hk0 Hfit). cbn. subst esz. lia. }
  split; [reflexivity|]. split; [reflexivity|]. split; [reflexivity|]. split.
  { unfold k3, with_mem_page, chain_sizes. cbn.
    rewrite list_insert_insert_eq. by rewrite list_fmap_insert. }
  intros j Hj.
  transitivity (read_mem_page k3 j).
  - apply (write_read_mem_page_ne (set_heap k3 h') b (written_page bp esz false));
      [apply (write_mem_page_Ok _ _ _ _ Hr4) | exact Hj].
  - apply (write_read_mem_page_ne ke b (written_page bp esz true));
      [apply (write_mem_page_Ok ke b _ bp Hbp) | exact Hj].
Qed.

(** ** Lookup and in-place writes at the head of a chain *)

(** Looking up the key of the entry at the head of its chain, when that
    entry has no later version: NOT_FOUND at an epoch before the epoch of
    the entry, FOUND with its fields from then on; the keydir, locks
    included, is as it was. *)
Lemma get_chain_head hash env fuel k e epoch r :
  kd_num_pages k <> 0 ->
  entry_fits e ->
  u32 (e_next e) = 0 ->
  chain_head k (bucket hash (kd_num_pages k) (e_key e) (e_key_size e)) e ->
  keydir_get hash env (S fuel) k (e_key e) (e_key_size e) epoch r
  = if epoch <? u64 (e_epoch e) then Ok (k, r, KEYDIR_GET_NOT_FOUND)
    else Ok (k, entry_read e r, KEYDIR_GET_FOUND).
Proof.
  intros Hnp Hfits Hnext (bp & d & Hbp & Hmx & Hd & Halt & Hsz & Hh).
  destruct (epoch <? u64 (e_epoch e)) eqn:E.
  - apply Z.ltb_lt in E.
    exact (get_chain_head_early hash env k e _ eq_refl Hnp Hfits bp d Hbp Hmx Hd Halt
             Hsz Hh fuel epoch r E).
  - apply Z.ltb_ge in E.
    exact (get_chain_head_found hash env k e _ eq_refl Hnp Hfits Hnext bp d Hbp Hmx Hd
             Halt Hsz Hh fuel epoch r E).
Qed.




(** ** Round trips *)

(** X11. Round trip. The first put into an empty bucket returns OK, and a
    lookup of the same key then returns NOT_FOUND at every epoch before
    the epoch of the put, and FOUND with the fields of the put from that
    epoch on; the lookup leaves the keydir as the put left it. *)
Theorem put_get_round_trip hash env fuel k entry old_offset :
  kd_num_pages k <> 0 ->
  entry_fits entry ->
  empty_bucket k (bucket hash (kd_num_pages k) (e_key entry) (e_key_size entry)) ->
  exists k1 e1,
    keydir_put hash env (S fuel) k entry 0 old_offset = Ok (k1, e1, KEYDIR_PUT_OK)
    /\ e_epoch e1 = u64 (kd_epoch k + 1)
    /\ forall fuel' epoch r,
         keydir_get hash env (S fuel') k1 (e_key entry) (e_key_size entry) epoch r
         = if epoch <? e_epoch e1 then Ok (k1, r, KEYDIR_GET_NOT_FOUND)
           else Ok (k1,
                    mk_entry (u32 (e_file_id entry)) (u32 (e_total_size entry))
                      (e_epoch e1) (u64 (e_offset entry)) (u32 (e_timestamp entry))
                      (u64 (e_offset entry) =? MAX_OFFSET)
                      (e_next r) (e_key_size r) (e_key r),
                    KEYDIR_GET_FOUND).
Proof.
  intros Hnp Hfits Hempty.
  destruct (put_empty_bucket hash env fuel k entry old_offset Hnp Hfits Hempty)
    as (k1 & Hput & Hhead & Hep & Hmin & Hn1 & _).
  eexists k1, _. split; [exact Hput|]. split; [reflexivity|].
  intros fuel' epoch r. cbn [e_epoch set_e_next set_e_epoch].
  set (e1 := set_e_next (set_e_epoch entry (u64 (kd_epoch k + 1))) 0) in *.
  rewrite <- Hn1 in Hhead.
  pose proof (get_chain_head hash env fuel' k1 e1 epoch r) as Hget.
  cbn [e1 e_key e_key_size set_e_next set_e_epoch e_next] in Hget.
  rewrite Hget; [| congruence | exact Hfits | reflexivity | exact Hhead].
  unfold entry_read. cbn [e1 e_file_id e_total_size e_epoch e_offset e_timestamp
    set_e_next set_e_epoch]. rewrite u64_idem. reflexivity.
Qed.

Lemma put_get_round_trip_witness :
  exists k0 k1 e1,
    fresh_keydir 1 1 None = Some k0
    /\ keydir_put zero_hash ok_env 8 k0 (new_entry key_k 1 10 50 1000) 0 0
       = Ok (k1, e1, KEYDIR_PUT_OK)
    /\ e_epoch e1 = 1
    /\ keydir_get zero_hash ok_env 8 k1 key_k 1 0 blank_entry
       = Ok (k1, blank_entry, KEYDIR_GET_NOT_FOUND)
    /\ keydir_get zero_hash ok_env 8 k1 key_k 1 MAX_EPOCH blank_entry
       = Ok (k1, mk_entry 1 50 1 10 1000 false 0 0 [], KEYDIR_GET_FOUND).
Proof.
  run_as k0 (fresh_keydir 1 1 None).
  assert (He : empty_bucket k0 0)
    by (apply (common_init_empty_buckets ok_env 0 1 1 None k0);
        [lia | reflexivity | vm_compute; reflexivity | lia]).
  destruct (put_get_round_trip zero_hash ok_env 7 k0 (new_entry key_k 1 10 50 1000) 0
              ltac:(vm_compute; congruence) ltac:(split; vm_compute; reflexivity) He)
    as (k1 & e1 & Hput & Hep & Hget).
  exists k0, k1, e1. split; [vm_compute; reflexivity|]. split; [exact Hput|].
  split; [etransitivity; [exact Hep | reflexivity]|].
  split.
  - etransitivity; [exact (Hget 7%nat 0 blank_entry)|]. rewrite Hep. reflexivity.
  - etransitivity; [exact (Hget 7%nat MAX_EPOCH blank_entry)|]. rewrite Hep. reflexivity.
Defined.





(** ** Per-file statistics: order and accumulation *)

Lemma update_fstats_unlocked fstats mutex file_id tstamp expiration_epoch
    live total live_bytes total_bytes should_create :
  mutex <> Some true ->
  exists fstats',
    update_fstats fstats mutex file_id tstamp expiration_epoch live total
      live_bytes total_bytes should_create = Ok (fstats', mutex)
    /\ (fstats' = fstats
        \/ exists e,
             (fstats !! file_id = Some e
              \/ (fstats !! file_id = None /\ should_create <> 0
                  /\ e = mk_fstats file_id 0 0 0 0 0 0 MAX_EPOCH))
             /\ fstats'
                = <[file_id :=
                      mk_fstats (fs_file_id e) (u32 (fs_live_keys e + live))
                        (u32 (fs_total_keys e + total))
                        (u64 (fs_live_bytes e + live_bytes))
                        (u64 (fs_total_bytes e + total_bytes))
                        (if (negb (tstamp =? 0) && (tstamp <? fs_oldest_tstamp e))
                            || (fs_oldest_tstamp e =? 0)
                         then tstamp else fs_oldest_tstamp e)
                        (if (negb (tstamp =? 0) && (fs_newest_tstamp e <? tstamp))
                            || (fs_newest_tstamp e =? 0)
                         then tstamp else fs_newest_tstamp e)
                        (if expiration_epoch <? fs_expiration_epoch e
                         then expiration_epoch else fs_expiration_epoch e)]> fstats).
Proof.
  intros Hm. unfold update_fstats.
  destruct mutex as [[|]|]; [congruence| |]; cbn [mutex_lock bind mutex_unlock];
    (destruct (fstats !! file_id) as [e|] eqn:Hl;
     [ eexists; split; [reflexivity|]; right; exists e; split; [by left | reflexivity]
     | destruct (should_create =? 0) eqn:Hc;
       [ eexists; split; [reflexivity|]; by left
       | apply Z.eqb_neq in Hc; eexists; split; [reflexivity|]; right;
         eexists; split; [right; split; [done|]; split; [done | reflexivity]
                         | reflexivity] ] ]).
Qed.

(** X14. [update_fstats] keeps the timestamps of every entry ordered, and
    touches no entry but that of the file id it is given. *)
Theorem update_fstats_keeps_order fstats mutex file_id tstamp expiration_epoch
    live total live_bytes total_bytes should_create fstats' mutex' :
  0 <= tstamp ->
  map_Forall (fun _ e => tstamps_ordered e) fstats ->
  update_fstats fstats mutex file_id tstamp expiration_epoch live total
    live_bytes total_bytes should_create = Ok (fstats', mutex') ->
  map_Forall (fun _ e => tstamps_ordered e) fstats'
  /\ (forall j, j <> file_id -> fstats' !! j = fstats !! j)
  /\ mutex' = mutex.
Proof.
  intros Ht Hall H.
  assert (Hm : mutex <> Some true).
  { intros ->. cbn in H. discriminate. }
  destruct (update_fstats_unlocked fstats mutex file_id tstamp expiration_epoch live
              total live_bytes total_bytes should_create Hm) as (f2 & He & Hcase).
  rewrite He in H. inversion H; subst f2 mutex'; clear H.
  destruct Hcase as [->|(e & Hsrc & ->)]; [done|].
  split; [|split; [|done]].
  - assert (Hord : tstamps_ordered e).
    { destruct Hsrc as [Hl|(_ & _ & ->)]; [exact (Hall _ _ Hl)|]. by left. }
    apply map_Forall_insert_2; [|exact Hall].
    unfold tstamps_ordered in *. cbn.
    repeat match goal with
           | |- context [?a =? ?b] => destruct (Z.eqb_spec a b)
           | |- context [?a <? ?b] => destruct (Z.ltb_spec a b)
           end; cbn; lia.
  - intros j Hj. by rewrite lookup_insert_ne.
Qed.

Lemma update_fstats_keeps_order_witness :
  update_fstats ∅ (Some false) 3 1000 77 1 1 10 10 1
  = Ok (<[3 := mk_fstats 3 1 1 10 10 1000 1000 77]> ∅, Some false)
  /\ map_Forall (fun _ e => tstamps_ordered e)
       (<[3 := mk_fstats 3 1 1 10 10 1000 1000 77]> (∅ : gmap Z bitcask_fstats_entry)).
Proof.
  assert (H : update_fstats ∅ (Some false) 3 1000 77 1 1 10 10 1
              = Ok (<[3 := mk_fstats 3 1 1 10 10 1000 1000 77]> ∅, Some false))
    by (vm_compute; reflexivity).
  split; [exact H|].
  exact (proj1 (update_fstats_keeps_order ∅ (Some false) 3 1000 77 1 1 10 10 1 _ _
                  ltac:(lia) (map_Forall_empty _) H)).
Defined.

(** X15. Two updates of the statistics of one file add up: each counter is the
    old one plus both increments, reduced to the width of the counter, and
    the expiration epoch is the smallest of the three. *)
Theorem update_fstats_twice fstats mutex file_id e
    t1 x1 l1 n1 lb1 nb1 c1 t2 x2 l2 n2 lb2 nb2 c2 :
  mutex <> Some true ->
  fstats !! file_id = Some e ->
  exists f1 f2 e2,
    update_fstats fstats mutex file_id t1 x1 l1 n1 lb1 nb1 c1 = Ok (f1, mutex)
    /\ update_fstats f1 mutex file_id t2 x2 l2 n2 lb2 nb2 c2 = Ok (f2, mutex)
    /\ f2 !! file_id = Some e2
    /\ fs_file_id e2 = fs_file_id e
    /\ fs_live_keys e2 = u32 (fs_live_keys e + l1 + l2)
    /\ fs_total_keys e2 = u32 (fs_total_keys e + n1 + n2)
    /\ fs_live_bytes e2 = u64 (fs_live_bytes e + lb1 + lb2)
    /\ fs_total_bytes e2 = u64 (fs_total_bytes e + nb1 + nb2)
    /\ fs_expiration_epoch e2 = Z.min (Z.min (fs_expiration_epoch e) x1) x2
    /\ (forall j, j <> file_id -> f2 !! j = fstats !! j).
Proof.
  intros Hm Hl.
  destruct (update_fstats_unlocked fstats mutex file_id t1 x1 l1 n1 lb1 nb1 c1 Hm)
    as (f1 & H1 & Hc1).
  assert (Hf1 : exists e1, f1 !! file_id = Some e1
            /\ fs_file_id e1 = fs_file_id e
            /\ fs_live_keys e1 = u32 (fs_live_keys e + l1)
            /\ fs_total_keys e1 = u32 (fs_total_keys e + n1)
            /\ fs_live_bytes e1 = u64 (fs_live_bytes e + lb1)
            /\ fs_total_bytes e1 = u64 (fs_total_bytes e + nb1)
            /\ fs_expiration_epoch e1 = Z.min (fs_expiration_epoch e) x1
            /\ forall j, j <> file_id -> f1 !! j = fstats !! j).
  { unfold update_fstats in H1. rewrite Hl in H1.
    destruct mutex as [[|]|]; [congruence| |]; cbn [mutex_lock bind mutex_unlock] in H1;
      inversion H1; subst f1; (eexists; split; [apply lookup_insert_eq|]);
      cbn; repeat split; try reflexivity;
      try (destruct (Z.ltb_spec x1 (fs_expiration_epoch e)); lia);
      intros j Hj; by rewrite lookup_insert_ne. }
  destruct Hf1 as (e1 & Hl1 & Hid & Ha & Hb & Hc & Hd & He & Hfr1).
  destruct (update_fstats_unlocked f1 mutex file_id t2 x2 l2 n2 lb2 nb2 c2 Hm)
    as (f2 & H2 & _).
  exists f1, f2. pose proof H2 as H2'.
  unfold update_fstats in H2'. rewrite Hl1 in H2'.
  assert (Hadd32 : forall a b c, u32 (u32 (a + b) + c) = u32 (a + b + c)).
  { intros. unfold u32. by rewrite Zplus_mod_idemp_l. }
  assert (Hadd64 : forall a b c, u64 (u64 (a + b) + c) = u64 (a + b + c)).
  { intros. unfold u64. by rewrite Zplus_mod_idemp_l. }
  destruct mutex as [[|]|]; [congruence| |]; cbn [mutex_lock bind mutex_unlock] in H2';
    inversion H2'; subst f2; (eexists; split; [exact H1|]; split; [exact H2|]);
    (split; [apply lookup_insert_eq|]); cbn;
    rewrite Ha, Hb, Hc, Hd, He, Hid, !Hadd32, !Hadd64;
    repeat split; try reflexivity;
    try (destruct (Z.ltb_spec x2 (Z.min (fs_expiration_epoch e) x1)); lia);
    intros j Hj; rewrite lookup_insert_ne by done; by apply Hfr1.
Qed.

Lemma update_fstats_twice_witness :
  exists f1 f2 e2,
    update_fstats {[ 3 := fresh_fstats 3 ]} (Some false) 3 1000 77 1 1 10 10 0
    = Ok (f1, Some false)
    /\ update_fstats f1 (Some false) 3 2000 50 (-1) 1 (-10) 20 0 = Ok (f2, Some false)
    /\ f2 !! 3 = Some e2
    /\ fs_live_keys e2 = 0 /\ fs_total_keys e2 = 2
    /\ fs_live_bytes e2 = 0 /\ fs_total_bytes e2 = 30
    /\ fs_expiration_epoch e2 = 50.
Proof.
  destruct (update_fstats_twice {[ 3 := fresh_fstats 3 ]} (Some false) 3 (fresh_fstats 3)
              1000 77 1 1 10 10 0 2000 50 (-1) 1 (-10) 20 0
              ltac:(discriminate) ltac:(apply lookup_singleton_eq))
    as (f1 & f2 & e2 & H1 & H2 & Hl & _ & A & B & C & D & E & _).
  exists f1, f2, e2. split; [exact H1|]. split; [exact H2|]. split; [exact Hl|].
  split; [etransitivity; [exact A | reflexivity]|].
  split; [etransitivity; [exact B | reflexivity]|].
  split; [etransitivity; [exact C | reflexivity]|].
  split; [etransitivity; [exact D | reflexivity]|].
  etransitivity; [exact E | reflexivity].
Defined.

(** ** Swap growth: what a failed or stale expansion publishes *)

Lemma set_swap_grow_mutex_back k :
  kd_swap_grow_mutex k = Some false ->
  set_swap_grow_mutex (set_swap_grow_mutex k (Some true)) (Some false) = k.
Proof. destruct k. cbn. by intros ->. Qed.

(** X16. [expand_swap_file] returns 0 or 1 with the growth mutex released.
    When it returns 1, or when the number of swap pages is no longer the
    one the caller saw, it has published nothing: the swap arrays, the
    number of swap pages, the head of the swap free list and the memory
    are as they were. When the caller's number is stale the keydir as a
    whole is as it was. *)
Theorem expand_swap_file_publishes_nothing env k old_num_pages k' rc :
  expand_swap_file env k old_num_pages = Ok (k', rc) ->
  (rc = 0 \/ rc = 1)
  /\ kd_swap_grow_mutex k = Some false
  /\ kd_swap_grow_mutex k' = Some false
  /\ (rc = 1 \/ kd_num_swap_pages k <> old_num_pages ->
      kd_swap_pages k' = kd_swap_pages k
      /\ kd_num_swap_pages k' = kd_num_swap_pages k
      /\ kd_swap_free_list_head k' = kd_swap_free_list_head k
      /\ kd_heap k' = kd_heap k
      /\ kd_mem_pages k' = kd_mem_pages k)
  /\ (kd_num_swap_pages k <> old_num_pages -> rc = 0 /\ k' = k).
Proof.
  unfold expand_swap_file. intros H.
  destruct (kd_swap_grow_mutex k) as [[|]|] eqn:Hm; try discriminate.
  cbn [mutex_lock bind] in H.
  change (kd_num_swap_pages (set_swap_grow_mutex k (Some true)))
    with (kd_num_swap_pages k) in H.
  destruct (kd_num_swap_pages k =? old_num_pages) eqn:Hn.
  - apply Z.eqb_eq in Hn.
    repeat inv_step;
      repeat match goal with
             | E : mutex_unlock _ = Ok _ |- _ => cbn in E; inversion E; subst; clear E
             end;
      cbn; (split; [auto|]); (split; [reflexivity|]);
      (split; [reflexivity|]); (split; [|intros Hne; congruence]);
      intros [Hrc|Hne]; try congruence; try discriminate; auto.
  - apply Z.eqb_neq in Hn. cbn in H. inversion H; subst; clear H.
    split; [auto|]. split; [reflexivity|]. split; [reflexivity|].
    split; [intros _; auto|]. intros _. split; [reflexivity|].
    destruct k; cbn in *; by subst.
Qed.

Lemma expand_swap_file_publishes_nothing_witness :
  exists k0 k',
    fresh_keydir 1 1 None = Some k0
    /\ expand_swap_file (mk_env (fun _ => true) (fun _ => false) true 12) k0 1
       = Ok (k', 1)
    /\ kd_swap_grow_mutex k' = Some false
    /\ kd_swap_pages k' = kd_swap_pages k0
    /\ kd_num_swap_pages k' = kd_num_swap_pages k0
    /\ kd_swap_free_list_head k' = kd_swap_free_list_head k0
    /\ kd_heap k' = kd_heap k0.
Proof.
  run_as k0 (fresh_keydir 1 1 None).
  run_as r (expand_swap_file (mk_env (fun _ => true) (fun _ => false) true 12) k0 1).
  destruct (expand_swap_file_publishes_nothing
              (mk_env (fun _ => true) (fun _ => false) true 12) k0 1 (fst r) 1
              ltac:(vm_compute; reflexivity))
    as (_ & _ & Hm & Hsame & _).
  destruct (Hsame (or_introl eq_refl)) as (A & B & C & D & _).
  exists k0, (fst r). split; [vm_compute; reflexivity|].
  split; [vm_compute; reflexivity|].
  repeat split; assumption.
Defined.

(** ** Key comparison inside one page *)

(** On a key without NUL bytes [strncmp] compares every byte. *)
Lemma strncmp_exact h key : forall bs p,
  length bs = length key -> holds h p bs -> Forall (fun a => a <> 0) key ->
  exists c, strncmp h key p (length key) = Ok c /\ (c = 0 <-> bs = key).
Proof.
  induction key as [|a key IH]; intros bs p Hl Hh Hnz.
  - destruct bs; [|discriminate]. exists 0. by split.
  - destruct bs as [|b bs]; [discriminate|]. injection Hl as Hl.
    apply Forall_cons in Hnz as [Ha Hnz].
    change (b :: bs) with ([b] ++ bs) in Hh.
    apply holds_app in Hh as [H1 H2]. cbn [length strncmp].
    unfold holds in H1. cbn [length] in H1. change (Z.of_nat 1) with 1 in H1.
    rewrite H1. cbn [bind le_decode]. rewrite Z.mul_0_r, Z.add_0_r.
    destruct (Z.eqb_spec a b) as [->|Hne].
    + destruct (Z.eqb_spec b 0) as [Hz|_]; [done|].
      destruct (IH bs _ Hl H2 Hnz) as (c & Hc & Hiff).
      exists c. split; [exact Hc|]. rewrite Hiff. split; [by intros -> | by intros [= ->]].
    + exists (a - b). split; [reflexivity|]. split; [lia | intros [= ->]; done].
Qed.

(** X19. Key comparison inside one page. For the entry at the head of a
    chain, a probe key without NUL bytes that fits in the page with the
    header is taken to match exactly when the bytes stored at the key
    offset of the entry, as many as the probe key has, are the bytes of the
    probe key. *)
Theorem scan_keys_equal_exact k b d found key key_size stored :
  page_at k b d ->
  key_size = Z.of_nat (length key) ->
  ENTRY_KEY_OFFSET + key_size < PAGE_SIZE ->
  Forall (fun a => a <> 0) key ->
  length stored = length key ->
  holds (kd_heap k) (ptr_add d ENTRY_KEY_OFFSET) stored ->
  scan_keys_equal k key key_size (head_iter b found)
  = Ok (if decide (stored = key) then 1 else 0).
Proof.
  intros (bp & Hbp & Hd) Hks Hfit Hnz Hl Hh.
  unfold ENTRY_KEY_OFFSET, PAGE_SIZE in Hfit.
  unfold scan_keys_equal.
  change (it_offset (head_iter b found)) with 0.
  change (u32 (0 + ENTRY_KEY_OFFSET)) with 36.
  change (36 mod PAGE_SIZE) with 36. change (36 / PAGE_SIZE) with 0.
  change (PAGE_SIZE - 36) with 4060.
  change (nthZ (it_pages (head_iter b found)) 0)
    with (Some (mk_page_info (MemPage b) (Some b) (Some b))).
  cbn [rd bind pi_page read_page]. rewrite Hbp. cbn [bind]. rewrite Hd. cbn [rd bind].
  assert (Hlt : (key_size <? 4060) = true) by (apply Z.ltb_lt; lia).
  rewrite Hlt.
  replace (Z.to_nat key_size) with (length key) by lia.
  unfold ENTRY_KEY_OFFSET in Hh.
  destruct (strncmp_exact (kd_heap k) key stored _ Hl Hh Hnz) as (c & Hc & Hiff).
  rewrite Hc. cbn [bind].
  destruct (decide (stored = key)) as [Heq|Hne].
  - apply Hiff in Heq. subst c. cbn [negb Z.eqb].
    rewrite Z.sub_diag. change (u32 0) with 0. reflexivity.
  - destruct (Z.eqb_spec c 0) as [Hz|_]; [by apply Hiff in Hz|]. reflexivity.
Qed.

Lemma scan_keys_equal_exact_witness :
  exists k0 k1 e1 d,
    fresh_keydir 1 1 None = Some k0
    /\ keydir_put zero_hash ok_env 8 k0 (new_entry key_ab 1 10 50 1000) 0 0
       = Ok (k1, e1, KEYDIR_PUT_OK)
    /\ page_at k1 0 d
    /\ holds (kd_heap k1) (ptr_add d ENTRY_KEY_OFFSET) key_ab
    /\ scan_keys_equal k1 key_ab 2 (head_iter 0 false) = Ok 1
    /\ scan_keys_equal k1 [97; 99] 2 (head_iter 0 false) = Ok 0.
Proof.
  run_as k0 (fresh_keydir 1 1 None).
  run_as r (keydir_put zero_hash ok_env 8 k0 (new_entry key_ab 1 10 50 1000) 0 0).
  pose (k1 := fst (fst r)).
  assert (Hp : page_at k1 0 (mk_ptr 0 0))
    by (eexists; split; vm_compute; reflexivity).
  assert (Hh : holds (kd_heap k1) (ptr_add (mk_ptr 0 0) ENTRY_KEY_OFFSET) key_ab)
    by (vm_compute; reflexivity).
  exists k0, k1, (snd (fst r)), (mk_ptr 0 0).
  split; [vm_compute; reflexivity|]. split; [vm_compute; reflexivity|].
  split; [exact Hp|]. split; [exact Hh|]. split.
  - etransitivity;
      [ apply (scan_keys_equal_exact k1 0 (mk_ptr 0 0) false key_ab 2 key_ab Hp);
        [ reflexivity | reflexivity | repeat constructor; discriminate | reflexivity
        | exact Hh ]
      | reflexivity ].
  - etransitivity;
      [ apply (scan_keys_equal_exact k1 0 (mk_ptr 0 0) false [97; 99] 2 key_ab Hp);
        [ reflexivity | reflexivity | repeat constructor; discriminate | reflexivity
        | exact Hh ]
      | reflexivity ].
Defined.

(** ** Epochs *)

Lemma same_epochs_refl k : same_epochs k k.
Proof. by repeat split. Qed.

Lemma same_epochs_trans k1 k2 k3 :
  same_epochs k1 k2 -> same_epochs k2 k3 -> same_epochs k1 k3.
Proof. unfold same_epochs. intuition congruence. Qed.


















(** ** The free list of a fresh keydir *)

Lemma mod16_cases x :
  x mod 16 = 0 \/ x mod 16 = 1 \/ x mod 16 = 2 \/ x mod 16 = 3 \/ x mod 16 = 4
  \/ x mod 16 = 5 \/ x mod 16 = 6 \/ x mod 16 = 7 \/ x mod 16 = 8 \/ x mod 16 = 9
  \/ x mod 16 = 10 \/ x mod 16 = 11 \/ x mod 16 = 12 \/ x mod 16 = 13
  \/ x mod 16 = 14 \/ x mod 16 = 15.
Proof. pose proof (Z.mod_pos_bound x 16 eq_refl). lia. Qed.

(** One step along the free list: the next page of the stride, or the
    first page of the next stride. *)
Lemma free_rank_step n idx :
  0 <= idx < n -> free_rank n idx < n - 1 ->
  let idx' := if n <=? idx + 16 then idx mod 16 + 1 else idx + 16 in
  0 <= idx' < n /\ free_rank n idx' = free_rank n idx + 1
  /\ idx' mod 16 = (if n <=? idx + 16 then idx mod 16 + 1 else idx mod 16).
Proof.
  intros Hi Hr idx'. subst idx'. unfold free_rank in *.
  destruct (Z.leb_spec n (idx + 16)) as [Hle|Hgt].
  - pose proof (mod16_cases idx) as Hc.
    destruct (decide (idx mod 16 = 15)) as [H15|H15].
    { exfalso. rewrite H15 in Hr. Z.div_mod_to_equations. lia. }
    rewrite (Z.mod_small (idx mod 16 + 1) 16), (Z.div_small (idx mod 16 + 1) 16) by lia.
    repeat destruct Hc as [Hc|Hc]; try lia; pose proof Hc as Hc'; rewrite Hc in *;
      Z.div_mod_to_equations; lia.
  - replace (idx + 16) with (idx + 1 * 16) by lia.
    rewrite Z_mod_plus_full, Z_div_plus_full by lia.
    split; [lia|]. split; [lia | reflexivity].
Qed.

Lemma free_rank_0 n : 0 <= n -> free_rank n 0 = 0.
Proof.
  intros Hn. unfold free_rank. change (0 mod 16) with 0. change (0 / 16) with 0.
  pose proof (Z.mod_pos_bound n 16 eq_refl). lia.
Qed.

Lemma next_free_of_written k i m k' :
  write_mem_page k i m = Ok k' ->
  next_free_of k' i = rd (page_next_free (mp_page m)).
Proof.
  intros Hw. unfold next_free_of. by rewrite (write_read_mem_page _ _ _ _ Hw).
Qed.

Lemma last_cons {A} (l : list A) : forall a b, List.last (b :: l) a = List.last l b.
Proof.
  induction l as [|z l IH]; intros a b; [reflexivity|].
  change (List.last (b :: z :: l) a) with (List.last (z :: l) a).
  by rewrite (IH a z), (IH b z).
Qed.

Lemma walk_linked k : forall l a fuel,
  linked k a l ->
  Forall (fun x => x <> MAX_PAGE_IDX) (a :: l) ->
  next_free_of k (List.last l a) = Ok MAX_PAGE_IDX ->
  (length l < fuel)%nat ->
  free_list_walk fuel k a = Ok (a :: l).
Proof.
  induction l as [|b l IH]; intros a fuel Hl Hne Hlast Hf.
  - destruct fuel as [|fuel]; [cbn in Hf; lia|]. cbn [free_list_walk].
    apply Forall_cons in Hne as [Ha _].
    destruct (Z.eqb_spec a MAX_PAGE_IDX) as [?|_]; [done|].
    cbn [List.last] in Hlast. rewrite Hlast. cbn [bind free_list_walk].
    destruct fuel; cbn [free_list_walk]; by rewrite Z.eqb_refl.
  - destruct fuel as [|fuel]; [cbn in Hf; lia|]. cbn [free_list_walk].
    apply Forall_cons in Hne as [Ha Hne].
    destruct (Z.eqb_spec a MAX_PAGE_IDX) as [?|_]; [done|].
    destruct Hl as [Hab Hl]. rewrite Hab. cbn [bind].
    rewrite (IH b fuel Hl Hne); [reflexivity| |cbn [length] in Hf; lia].
    by rewrite <- (last_cons l a b).
Qed.

(** The loop of [keydir_init_free_list] with the store that ends the
    list, from page [idx] on. *)
Lemma init_free_list_links j : forall n idx k,
  0 <= idx < n -> n + 16 <= 2 ^ 32 ->
  free_rank n idx + Z.of_nat j = n - 1 ->
  (forall i, 0 <= i < n -> exists m, read_mem_page k i = Ok m) ->
  exists kf l,
    (let* '(k', last_idx) := init_free_list_loop j n idx (idx mod 16) k in
     let* m := read_mem_page k' last_idx in
     write_mem_page k' last_idx
       (set_mp_page m (set_page_next_free (mp_page m) (Some MAX_PAGE_IDX))))
    = Ok kf
    /\ length l = j
    /\ linked kf idx l
    /\ next_free_of kf (List.last l idx) = Ok MAX_PAGE_IDX
    /\ (forall t b, l !! t = Some b ->
          0 <= b < n /\ free_rank n b = free_rank n idx + 1 + Z.of_nat t)
    /\ (forall i, free_rank n i < free_rank n idx ->
          read_mem_page kf i = read_mem_page k i)
    /\ (exists pages, kf = set_mem_pages k pages).
Proof.
  induction j as [|j IH]; intros n idx k Hidx Hn Hrank Hread.
  - cbn [init_free_list_loop bind].
    destruct (Hread idx Hidx) as [m Hm]. rewrite Hm. cbn [bind].
    pose proof (write_mem_page_Ok k idx
                  (set_mp_page m (set_page_next_free (mp_page m) (Some MAX_PAGE_IDX)))
                  m Hm) as Hw.
    rewrite Hw. eexists _, []. split; [reflexivity|]. split; [reflexivity|].
    split; [exact I|]. split.
    { cbn [List.last]. by rewrite (next_free_of_written _ _ _ _ Hw). }
    split; [intros t b Hb; by rewrite lookup_nil in Hb|]. split.
    { intros i Hi. apply (write_read_mem_page_ne _ _ _ _ _ Hw). intros ->. lia. }
    by eexists.
  - cbn [init_free_list_loop].
    destruct (free_rank_step n idx Hidx ltac:(lia)) as (Hr' & Hrk & Hmod).
    set (idx' := if n <=? idx + 16 then idx mod 16 + 1 else idx + 16) in *.
    pose proof (Z.mod_pos_bound idx 16 eq_refl) as Ho.
    assert (Hpair : (if n <=? u32 (idx + 16)
                     then (u32 (idx mod 16 + 1), u32 (idx mod 16 + 1))
                     else (u32 (idx + 16), idx mod 16)) = (idx', idx' mod 16)).
    { rewrite Hmod. subst idx'. unfold u32. rewrite !Z.mod_small by lia.
      by destruct (n <=? idx + 16). }
    rewrite Hpair.
    destruct (Hread idx Hidx) as [m Hm]. rewrite Hm. cbn [bind].
    pose proof (write_mem_page_Ok k idx
                  (set_mp_page m (set_page_next_free (mp_page m) (Some idx')))
                  m Hm) as Hw.
    rewrite Hw. cbn [bind].
    set (k1 := set_mem_pages k _) in *.
    destruct (IH n idx' k1 Hr' Hn ltac:(lia)) as (kf & l & He & Hlen & Hl & Hlast & Hrks & Hsame & pages & Hp).
    { intros i Hi. destruct (decide (i = idx)) as [->|Hne].
      - rewrite (write_read_mem_page _ _ _ _ Hw). by eexists.
      - rewrite (write_read_mem_page_ne _ _ _ _ _ Hw Hne). by apply Hread. }
    exists kf, (idx' :: l). split; [exact He|]. split; [cbn; lia|]. split.
    { split; [|exact Hl]. unfold next_free_of. rewrite (Hsame idx) by lia.
      by rewrite (write_read_mem_page _ _ _ _ Hw). }
    split. { by rewrite last_cons. }
    split.
    { intros [|t] b Hb; cbn in Hb.
      - inversion Hb; subst b. split; [exact Hr' | lia].
      - destruct (Hrks t b Hb) as [? ?]. split; [done | lia]. }
    split.
    { intros i Hi. rewrite (Hsame i) by lia.
      apply (write_read_mem_page_ne _ _ _ _ _ Hw). intros ->. lia. }
    exists pages. rewrite Hp. reflexivity.
Qed.

(** A list that holds, at every place [t], a page of rank [t] holds every
    page once. *)
Lemma ranked_Permutation n l :
  length l = Z.to_nat n ->
  (forall t b, l !! t = Some b -> 0 <= b < n /\ free_rank n b = Z.of_nat t) ->
  Permutation l (seqZ 0 n).
Proof.
  intros Hlen Hr. apply submseteq_length_Permutation.
  - apply NoDup_submseteq.
    + apply NoDup_alt. intros i j x Hi Hj.
      apply Hr in Hi as [_ Hi]. apply Hr in Hj as [_ Hj]. lia.
    + intros x Hx. apply list_elem_of_lookup in Hx as [t Ht].
      apply Hr in Ht as [Ht _]. apply elem_of_seqZ. lia.
  - rewrite length_seqZ. lia.
Qed.

Lemma free_list_walk_pages k k' : forall fuel idx,
  kd_mem_pages k' = kd_mem_pages k ->
  free_list_walk fuel k' idx = free_list_walk fuel k idx.
Proof.
  induction fuel as [|fuel IH]; intros idx Hp; cbn [free_list_walk]; [reflexivity|].
  destruct (idx =? MAX_PAGE_IDX); [reflexivity|].
  unfold next_free_of, read_mem_page. rewrite Hp.
  destruct (rd (nthZ (kd_mem_pages k) idx)) as [m|]; cbn [bind]; [|reflexivity].
  destruct (rd (page_next_free (mp_page m))) as [nx|]; cbn [bind]; [|reflexivity].
  by rewrite (IH nx Hp).
Qed.

(** The free list [keydir_init_free_list] builds holds every memory page
    once. *)
Lemma keydir_init_free_list_walk k :
  1 <= kd_num_pages k -> kd_num_pages k + 16 <= 2 ^ 32 ->
  (forall i, 0 <= i < kd_num_pages k -> exists m, read_mem_page k i = Ok m) ->
  exists k' l,
    keydir_init_free_list k = Ok k'
    /\ kd_free_list_head k' = 0
    /\ free_list_walk (Z.to_nat (kd_num_pages k)) k' 0 = Ok l
    /\ Permutation l (seqZ 0 (kd_num_pages k))
    /\ (exists pages, k' = set_mem_pages (set_free_list_head k 0) pages).
Proof.
  intros Hn Hmax Hread. unfold keydir_init_free_list.
  destruct (Z.eqb_spec (kd_num_pages k) 0) as [?|_]; [lia|].
  cbn [kd_num_pages set_free_list_head].
  set (n := kd_num_pages k) in *.
  destruct (init_free_list_links (Z.to_nat (n - 1)) n 0 (set_free_list_head k 0))
    as (kf & l & He & Hlen & Hl & Hlast & Hrks & _ & pages & Hp);
    [lia | exact Hmax | rewrite free_rank_0 by lia; lia | exact Hread |].
  change (0 mod 16) with 0 in He.
  exists kf, (0 :: l). split.
  { rewrite <- He. destruct (init_free_list_loop _ _ _ _ _) as [[? ?]|?]; reflexivity. }
  split; [by rewrite Hp|]. split.
  { apply walk_linked; [exact Hl | | exact Hlast | rewrite Hlen; lia].
    apply Forall_cons. split; [unfold MAX_PAGE_IDX; lia|].
    apply Forall_lookup. intros t b Hb. apply Hrks in Hb as [Hb _].
    unfold MAX_PAGE_IDX. lia. }
  split; [|by exists pages].
  apply ranked_Permutation; [cbn [length]; lia|].
  intros [|t] b Hb; cbn in Hb.
  - inversion Hb; subst b. split; [lia | by rewrite free_rank_0 by lia].
  - apply Hrks in Hb as [? Hb]. rewrite free_rank_0 in Hb by lia. split; [done | lia].
Qed.

(** X20. The free list of a fresh keydir holds every memory page exactly
    once: following the links from [free_list_head] as [allocate_mem_page]
    does reaches [MAX_PAGE_IDX] after [num_pages] pages, and these are the
    pages 0 to [num_pages - 1] in some order. *)
Theorem common_init_free_list env basedir_len num_pages swap_pages prior k :
  1 <= num_pages -> num_pages + 16 <= 2 ^ 32 ->
  keydir_common_init env basedir_len num_pages swap_pages prior = (0, Some k) ->
  exists l,
    free_list_walk (Z.to_nat num_pages) k (kd_free_list_head k) = Ok l
    /\ Permutation l (seqZ 0 num_pages).
Proof.
  intros Hn Hmax. unfold keydir_common_init.
  set (k0 := keydir_init_mem_pages _).
  destruct (keydir_init_free_list_walk k0) as (k1 & l & He & Hh & Hw & Hperm & pages & Hp);
    [exact Hn | exact Hmax | |].
  { intros i Hi. exists (init_mem_page i). by apply read_init_mem_pages. }
  rewrite He.
  destruct (_ <? _); [discriminate|].
  destruct (negb (open_ok env)); [discriminate|].
  destruct (negb (ftruncate_ok env _)); [discriminate|].
  intros H. inversion H; subst k; clear H.
  exists l. split; [|exact Hperm].
  change (kd_free_list_head (set_swap_file_size k1 _)) with (kd_free_list_head k1).
  rewrite Hh, <- Hw. by apply free_list_walk_pages.
Qed.

Lemma common_init_free_list_witness :
  exists k l,
    keydir_common_init ok_env 0 18 1 None = (0, Some k)
    /\ free_list_walk 18 k (kd_free_list_head k) = Ok l
    /\ Permutation l (seqZ 0 18)
    /\ l = [0; 16; 1; 17; 2; 3; 4; 5; 6; 7; 8; 9; 10; 11; 12; 13; 14; 15].
Proof.
  assert (Hc : match keydir_common_init ok_env 0 18 1 None with
               | (0, Some k) => free_list_walk 18 k (kd_free_list_head k)
               | _ => Fault Undefined
               end
               = Ok [0; 16; 1; 17; 2; 3; 4; 5; 6; 7; 8; 9; 10; 11; 12; 13; 14; 15])
    by (vm_compute; reflexivity).
  destruct (keydir_common_init ok_env 0 18 1 None) as [c [k|]] eqn:E;
    [destruct c; try discriminate | destruct c; discriminate].
  destruct (common_init_free_list ok_env 0 18 1 None k ltac:(lia) ltac:(lia) E)
    as (l & Hw & Hperm).
  exists k, l. split; [reflexivity|]. split; [exact Hw|]. split; [exact Hperm|].
  change (Z.to_nat 18) with 18%nat in Hw. congruence.
Defined.

(** ** Allocation after swap growth *)

Lemma get_swap_page_last arrays : forall new idx j,
  swap_arrays_sized arrays ->
  idx = Z.of_nat (length (swap_index_space arrays)) + j ->
  0 <= j < sa_size new -> idx < 2 ^ 32 ->
  get_swap_page idx (arrays ++ [new]) = Ok (length arrays, j).
Proof.
  unfold swap_index_space.
  induction arrays as [|a rest IH]; intros new idx j Hs Hidx Hj Hmax.
  - cbn in Hidx. change (Z.of_nat 0) with 0 in Hidx. rewrite Z.add_0_l in Hidx.
    subst idx. cbn [app get_swap_page].
    destruct (Z.ltb_spec j (sa_size new)); [reflexivity | lia].
  - apply Forall_cons in Hs as [Ha Hs]. cbn [app get_swap_page].
    cbn [map concat] in Hidx. rewrite length_app in Hidx.
    destruct (Z.ltb_spec idx (sa_size a)) as [Hlt|Hge]; [lia|].
    assert (Hu : u32 (idx - sa_size a) = idx - sa_size a)
      by (unfold u32; apply Z.mod_small; lia).
    rewrite Hu, (IH new (idx - sa_size a) j Hs) by lia. reflexivity.
Qed.

(** What a successful [expand_swap_file] publishes. *)
Lemma expand_swap_file_shape env k k' :
  kd_num_swap_pages k < 2 ^ 32 ->
  expand_swap_file env k (kd_num_swap_pages k) = Ok (k', 0) ->
  exists pages,
    (0 < length pages <= Z.to_nat (kd_num_swap_pages k))%nat
    /\ kd_swap_pages k'
       = kd_swap_pages k ++ [mk_swap_array (Z.of_nat (length pages)) pages]
    /\ kd_num_swap_pages k' = u32 (kd_num_swap_pages k + Z.of_nat (length pages))
    /\ kd_swap_free_list_head k' = Some (kd_num_swap_pages k)
    /\ (forall j pg, pages !! j = Some pg ->
          page_next_free pg = Some (u32 (kd_num_swap_pages k + Z.of_nat j + 1))
          /\ page_mutex pg = Some false).
Proof.
  intros Hrange H. unfold expand_swap_file in H.
  apply bind_Ok in H as (m & Hlock & H).
  cbn [kd_num_swap_pages set_swap_grow_mutex] in H.
  rewrite Z.eqb_refl in H.
  destruct (negb (ftruncate_ok env _)).
  { apply bind_Ok in H as (? & _ & H). inversion H. }
  cbn [kd_swap_pages set_swap_file_size set_swap_grow_mutex kd_heap] in H.
  destruct (kd_swap_pages k) as [|a0 rest] eqn:Hsw; [discriminate|].
  destruct (mmap_loop env (Z.to_nat (kd_num_swap_pages k)) (kd_num_swap_pages k) 0
              (u32 (kd_num_swap_pages k * PAGE_SIZE)) (kd_heap k)) as [h pages] eqn:Hloop.
  destruct ((0 <? kd_num_swap_pages k) && (Z.of_nat (length pages) =? 0)).
  { apply bind_Ok in H as (? & _ & H). inversion H. }
  apply bind_Ok in H as (lastp & Hlast & H). apply rd_Ok in Hlast.
  apply bind_Ok in H as (m' & _ & H). inversion H; subst; clear H. cbn.
  pose proof (mmap_loop_length _ _ _ _ _ _ _ _ Hloop) as Hle.
  assert (Hlen : (0 < length pages)%nat).
  { destruct pages; [|cbn; lia]. unfold nthZ in Hlast.
    destruct (_ <? 0); discriminate. }
  assert (Hu : u32 (Z.of_nat (length pages) - 1) = Z.of_nat (length pages) - 1)
    by (unfold u32; apply Z.mod_small; lia).
  rewrite Hu in *.
  assert (Hidx : Z.to_nat (Z.of_nat (length pages) - 1) = pred (length pages)) by lia.
  unfold nthZ in Hlast. destruct (_ <? 0); [discriminate|]. rewrite Hidx in *.
  exists (<[pred (length pages) :=
             set_page_next lastp (kd_swap_free_list_head k)]> pages).
  rewrite length_insert, ?Hsw.
  split; [lia|]. split; [reflexivity|]. split; [reflexivity|]. split; [reflexivity|].
  intros j pg Hj.
  destruct (decide (j = pred (length pages))) as [->|Hne].
  - rewrite list_lookup_insert_eq in Hj by lia. inversion Hj; subst; cbn.
    destruct (mmap_loop_pages _ _ _ _ _ _ _ _ _ _ Hloop Hlast) as (Hn & _ & Hm).
    rewrite Hn. split; [|exact Hm]. apply (f_equal Some), (f_equal u32). lia.
  - rewrite list_lookup_insert_ne in Hj by auto.
    destruct (mmap_loop_pages _ _ _ _ _ _ _ _ _ _ Hloop Hj) as (Hn & _ & Hm).
    rewrite Hn. split; [|exact Hm]. apply (f_equal Some), (f_equal u32). lia.
Qed.

(** X21. The retry after swap growth. Once [expand_swap_file] has
    succeeded on a keydir whose swap arrays are consistent, a call of
    [allocate_swap_page] hands out the first new swap page, locked, under
    the index that was the number of swap pages before the growth; the head
    of the swap free list moves to the following index, and the swap arrays
    stay consistent. *)
Theorem allocate_swap_page_after_expand env fuel k k' :
  swap_consistent k ->
  kd_num_swap_pages k < 2 ^ 31 ->
  expand_swap_file env k (kd_num_swap_pages k) = Ok (k', 0) ->
  exists k'' pg,
    allocate_swap_page env (S fuel) k'
    = Ok (k'', Some (SwapPage (length (kd_swap_pages k)) 0, kd_num_swap_pages k))
    /\ read_page k'' (SwapPage (length (kd_swap_pages k)) 0) = Ok pg
    /\ page_mutex pg = Some true
    /\ kd_swap_free_list_head k'' = Some (kd_num_swap_pages k + 1)
    /\ kd_num_swap_pages k < kd_num_swap_pages k''
    /\ swap_consistent k' /\ swap_consistent k''.
Proof.
  intros [Hs Htot] Hmax Hexp.
  destruct (expand_swap_file_shape env k k' ltac:(lia) Hexp)
    as (pages & Hlen & Hsw & Hnum & Hhead & Hpg).
  set (old := kd_num_swap_pages k) in *.
  assert (Hold : 0 <= old) by lia.
  assert (Hnum' : kd_num_swap_pages k' = old + Z.of_nat (length pages))
    by (rewrite Hnum; unfold u32; apply Z.mod_small; lia).
  assert (Hc' : swap_consistent k').
  { split.
    - rewrite Hsw. apply Forall_app. split; [exact Hs|]. by repeat constructor.
    - rewrite Hsw, Hnum'. unfold swap_index_space in *.
      rewrite map_app, concat_app, length_app. cbn [map concat sa_pages].
      rewrite app_nil_r. lia. }
  destruct pages as [|p0 rest] eqn:Hpages; [cbn in Hlen; lia|].
  destruct (Hpg 0%nat p0 eq_refl) as [Hnf Hmx].
  cbn [allocate_swap_page]. rewrite Hhead. cbn [rd bind].
  destruct (Z.eqb_spec old MAX_PAGE_IDX) as [He|_]; [unfold MAX_PAGE_IDX in He; lia|].
  unfold swap_page_ref. rewrite Hsw.
  rewrite (get_swap_page_last (kd_swap_pages k) _ old 0 Hs) by (cbn [sa_size]; lia).
  cbn [bind read_page kd_swap_pages set_swap_free_list_head].
  rewrite Hsw. rewrite lookup_app_r, Nat.sub_diag by lia. cbn [lookup list_lookup rd bind sa_pages].
  change (nthZ (p0 :: rest) 0) with (Some p0). cbn [rd bind].
  unfold lock_page. cbn [read_page kd_swap_pages set_swap_free_list_head].
  rewrite Hsw. rewrite lookup_app_r, Nat.sub_diag by lia.
  cbn [lookup list_lookup rd bind sa_pages].
  change (nthZ (p0 :: rest) 0) with (Some p0). cbn [rd bind].
  rewrite Hmx. cbn [mutex_lock bind write_page kd_swap_pages set_swap_free_list_head].
  rewrite Hsw. rewrite lookup_app_r, Nat.sub_diag by lia.
  cbn [lookup list_lookup rd bind sa_pages sa_size].
  change (nthZ (p0 :: rest) 0) with (Some p0). cbn iota.
  eexists _, _. split; [reflexivity|].
  cbn [read_page kd_swap_pages set_swap_pages].
  rewrite list_lookup_insert_eq by (rewrite length_app; cbn; lia).
  cbn [rd bind sa_pages]. change (Z.to_nat 0) with 0%nat. cbn [insert list_insert].
  split; [reflexivity|]. split; [reflexivity|]. split.
  { cbn. rewrite Hnf. f_equal. unfold u32. rewrite Z.mod_small by lia. lia. }
  split; [cbn; lia|]. split; [exact Hc'|].
  destruct Hc' as [Hs' Ht']. split.
  - cbn [kd_swap_pages set_swap_pages set_swap_free_list_head].
    rewrite insert_app_r_alt, Nat.sub_diag by lia. cbn [insert list_insert].
    apply Forall_app. split; [exact Hs|]. by repeat constructor.
  - cbn [kd_swap_pages set_swap_pages set_swap_free_list_head kd_num_swap_pages].
    rewrite <- Ht', Hsw. rewrite insert_app_r_alt, Nat.sub_diag by lia.
    cbn [insert list_insert]. unfold swap_index_space.
    rewrite !map_app, !concat_app, !length_app. reflexivity.
Qed.

Lemma allocate_swap_page_after_expand_witness :
  exists k k' k'',
    fresh_keydir 1 1 (Some MAX_PAGE_IDX) = Some k
    /\ expand_swap_file ok_env k 1 = Ok (k', 0)
    /\ allocate_swap_page ok_env 1 k' = Ok (k'', Some (SwapPage 1 0, 1))
    /\ kd_swap_free_list_head k'' = Some 2.
Proof.
  run_as k (fresh_keydir 1 1 (Some MAX_PAGE_IDX)).
  run_as r (expand_swap_file ok_env k 1).
  pose (k' := fst r).
  destruct (allocate_swap_page_after_expand ok_env 0 k k'
              ltac:(split; [repeat constructor | reflexivity])
              ltac:(vm_compute; reflexivity) ltac:(vm_compute; reflexivity))
    as (k'' & pg & Ha & _ & _ & Hh & _).
  exists k, k', k''. split; [vm_compute; reflexivity|].
  split; [vm_compute; reflexivity|]. split; [exact Ha | exact Hh].
Defined.

(** ** Runs that contradict the specification *)

(** C1. Two runs on a keydir of one page, for every hash function.
    First: after a put of the key "ab", a get of the key "a", for which
    nothing was ever installed, returns FOUND with the record of "ab".
    Second, with a snapshot pinned at epoch 1: two puts of the key "k"
    return OK with epochs 1 and 2, and a get at epoch 2 returns the record
    of epoch 1. *)
Theorem keydir_get_returns_wrong_record : forall hash env,
  exists k0, fresh_keydir 1 1 None = Some k0 /\
  (exists k1 e1 k2 r,
     keydir_put hash env 8 k0 (new_entry key_ab 1 10 50 1000) 0 0
       = Ok (k1, e1, KEYDIR_PUT_OK) /\
     keydir_get hash env 8 k1 key_a 1 MAX_EPOCH blank_entry
       = Ok (k2, r, KEYDIR_GET_FOUND) /\
     e_file_id r = 1 /\ e_offset r = 10) /\
  (exists k1 e1 k2 e2 k3 r,
     keydir_put hash env 8 (set_min_epoch k0 1) (new_entry key_k 1 10 50 1000) 0 0
       = Ok (k1, e1, KEYDIR_PUT_OK) /\ e_epoch e1 = 1 /\
     keydir_put hash env 8 k1 (new_entry key_k 2 20 50 1000) 0 0
       = Ok (k2, e2, KEYDIR_PUT_OK) /\ e_epoch e2 = 2 /\
     keydir_get hash env 8 k2 key_k 1 2 blank_entry
       = Ok (k3, r, KEYDIR_GET_FOUND) /\
     e_epoch r = 1 /\ e_file_id r = 1 /\ e_offset r = 10).
Proof.
  intros hash env. eexists. split; [vm_compute; reflexivity|]. split.
  - do 4 eexists. split; [run1|]. split; [run1|]. split; reflexivity.
  - do 6 eexists. split; [run1|]. split; [reflexivity|].
    split; [run1|]. split; [reflexivity|].
    split; [run1|]. repeat split; reflexivity.
Qed.

(** C2. The version-append branch, with a snapshot pinned at epoch 1, on
    a keydir of one page that holds the key "k" at chain offset 0 (size
    40). [keydir_put] returns OK, leaves the size at 40 and the next field
    of the existing entry at 0, and stores the new version at offset 40
    with the link 40 written into the new version itself. [keydir_remove]
    on the same state sets the next field of the existing entry to 40 and
    stores the tombstone there; the next field of the tombstone is never
    written. *)
Theorem put_version_append_does_not_link : forall hash env,
  exists k0 k1 e1, fresh_keydir 1 1 None = Some k0 /\
  keydir_put hash env 8 (set_min_epoch k0 1) (new_entry key_k 1 10 50 1000) 0 0
    = Ok (k1, e1, KEYDIR_PUT_OK) /\
  chain_sizes k1 = [40] /\ peek k1 0 28 4 = Ok 0 /\
  (exists k2 e2,
     keydir_put hash env 8 k1 (new_entry key_k 2 20 50 1000) 0 0
       = Ok (k2, e2, KEYDIR_PUT_OK) /\
     chain_sizes k2 = [40] /\
     peek k2 0 28 4 = Ok 0 /\
     peek k2 0 (40 + 8) 8 = Ok 2 /\
     peek k2 0 (40 + 28) 4 = Ok 40) /\
  (exists k2,
     keydir_remove hash env 8 k1 key_k 1 0 0 = Ok (k2, KEYDIR_PUT_OK) /\
     chain_sizes k2 = [40] /\
     peek k2 0 28 4 = Ok 40 /\
     peek k2 0 (40 + 8) 8 = Ok 2 /\
     peek k2 0 (40 + 28) 4 = Fault Undefined).
Proof.
  intros hash env. do 3 eexists. split; [vm_compute; reflexivity|].
  split; [run1|]. split; [reflexivity|]. split; [reflexivity|]. split.
  - do 2 eexists. split; [run1|]. repeat split; reflexivity.
  - eexists. split; [run1|]. repeat split; reflexivity.
Qed.

(** C3. A conditional put whose old file id and offset match the visible
    entry, with a snapshot pinned at epoch 1 and a second key after the
    entry in the chain: [keydir_put] returns OUT_OF_MEMORY, and the entry
    stays as it was. *)
Theorem put_cas_match_out_of_memory : forall hash env,
  exists k0 k1 e1 k2 e2 k3 e3 k4 r,
    fresh_keydir 1 1 None = Some k0 /\
    keydir_put hash env 8 (set_min_epoch k0 1) (new_entry key_a 1 10 50 1000) 0 0
      = Ok (k1, e1, KEYDIR_PUT_OK) /\
    keydir_put hash env 8 k1 (new_entry key_b 1 20 50 1000) 0 0
      = Ok (k2, e2, KEYDIR_PUT_OK) /\
    keydir_get hash env 8 k2 key_a 1 MAX_EPOCH blank_entry
      = Ok (k2, r, KEYDIR_GET_FOUND) /\
    e_file_id r = 1 /\ e_offset r = 10 /\
    keydir_put hash env 8 k2 (new_entry key_a 2 30 50 1000) 1 10
      = Ok (k3, e3, KEYDIR_PUT_OUT_OF_MEMORY) /\
    keydir_get hash env 8 k3 key_a 1 MAX_EPOCH blank_entry
      = Ok (k4, r, KEYDIR_GET_FOUND).
Proof.
  intros hash env. do 9 eexists. split; [vm_compute; reflexivity|].
  split; [run1|]. split; [run1|]. split; [run1|].
  split; [reflexivity|]. split; [reflexivity|].
  split; [run1|]. run1.
Qed.

(** C6. After a put of the two-byte key 00 01, [scan_keys_equal] reports
    a match for the probe key 00 02, and [keydir_get] of 00 02 returns
    FOUND with the record of 00 01. *)
Theorem scan_keys_equal_stops_at_nul : forall hash env,
  exists k0 k1 e1 k2 r,
    fresh_keydir 1 1 None = Some k0 /\
    keydir_put hash env 8 k0 (new_entry [0; 1] 1 10 50 1000) 0 0
      = Ok (k1, e1, KEYDIR_PUT_OK) /\
    scan_keys_equal k1 [0; 2] 2 (init_scan_iterator 0 (MemPage 0) 0) = Ok 1 /\
    keydir_get hash env 8 k1 [0; 2] 2 MAX_EPOCH blank_entry
      = Ok (k2, r, KEYDIR_GET_FOUND) /\
    e_file_id r = 1 /\ e_offset r = 10.
Proof.
  intros hash env. do 5 eexists. split; [vm_compute; reflexivity|].
  split; [run1|]. split; [vm_compute; reflexivity|]. split; [run1|].
  split; reflexivity.
Qed.

(** C7. A fresh key of 4070 bytes (4060 bytes 'a', then 10 bytes 'b') in
    bucket 1 of a keydir of two pages: [keydir_put] returns OK with a chain
    of 4112 bytes; the first ten key bytes of the first page hold 'b', the
    second page of the chain received nothing, and [keydir_get] of the same
    key returns NOT_FOUND. *)
Theorem straddling_key_round_trip_fails : forall hash env,
  bucket hash 2 straddling_key 4070 = 1 ->
  exists k0 k1 e1 k2 r,
    fresh_keydir 2 1 None = Some k0 /\
    keydir_put hash env 8 k0 (new_entry straddling_key 1 100 50 1000) 0 0
      = Ok (k1, e1, KEYDIR_PUT_OK) /\
    chain_sizes k1 = [0; 4112] /\
    load_bytes (kd_heap k1) (mk_ptr 0 (PAGE_SIZE + 36)) 10 = Ok (replicate 10 98) /\
    load_cells (kd_heap k1) (mk_ptr 0 0) 10 = Ok (replicate 10 None) /\
    keydir_get hash env 8 k1 straddling_key 4070 MAX_EPOCH blank_entry
      = Ok (k2, r, KEYDIR_GET_NOT_FOUND).
Proof.
  intros hash env H. do 5 eexists. split; [vm_compute; reflexivity|].
  split; [run2 H|]. split; [reflexivity|].
  split; [vm_compute; reflexivity|]. split; [vm_compute; reflexivity|].
  run2 H.
Qed.

Lemma straddling_key_round_trip_fails_witness :
  exists k0 k1 e1 k2 r,
    fresh_keydir 2 1 None = Some k0 /\
    keydir_put one_hash ok_env 8 k0 (new_entry straddling_key 1 100 50 1000) 0 0
      = Ok (k1, e1, KEYDIR_PUT_OK) /\
    chain_sizes k1 = [0; 4112] /\
    load_bytes (kd_heap k1) (mk_ptr 0 (PAGE_SIZE + 36)) 10 = Ok (replicate 10 98) /\
    load_cells (kd_heap k1) (mk_ptr 0 0) 10 = Ok (replicate 10 None) /\
    keydir_get one_hash ok_env 8 k1 straddling_key 4070 MAX_EPOCH blank_entry
      = Ok (k2, r, KEYDIR_GET_NOT_FOUND).
Proof. apply (straddling_key_round_trip_fails one_hash ok_env). reflexivity. Defined.

(** C10. A keydir of two pages whose bucket 1 holds one entry that ends
    with the first page: [keydir_remove] of another key of that bucket,
    with no old file id, returns OK, and the scan it ran has allocated
    memory page 0 and linked it behind page 1. *)
Theorem remove_absent_key_links_a_page : forall hash env,
  bucket hash 2 page_filling_key 4060 = 1 ->
  bucket hash 2 key_b 1 = 1 ->
  exists k0 k1 e1 k2,
    fresh_keydir 2 1 None = Some k0 /\
    keydir_put hash env 8 k0 (new_entry page_filling_key 1 100 50 1000) 0 0
      = Ok (k1, e1, KEYDIR_PUT_OK) /\
    chain_sizes k1 = [0; 4096] /\
    link_of k1 1 = Ok MAX_PAGE_IDX /\ kd_free_list_head k1 = 0 /\
    keydir_remove hash env 8 k1 key_b 1 0 0 = Ok (k2, KEYDIR_PUT_OK) /\
    link_of k2 1 = Ok 0 /\ kd_free_list_head k2 = 1.
Proof.
  intros hash env H1 H2. do 4 eexists. split; [vm_compute; reflexivity|].
  split; [run2 H1|]. split; [reflexivity|]. split; [reflexivity|].
  split; [reflexivity|]. split; [run2 H2|]. split; reflexivity.
Qed.

Lemma remove_absent_key_links_a_page_witness :
  exists k0 k1 e1 k2,
    fresh_keydir 2 1 None = Some k0 /\
    keydir_put one_hash ok_env 8 k0 (new_entry page_filling_key 1 100 50 1000) 0 0
      = Ok (k1, e1, KEYDIR_PUT_OK) /\
    chain_sizes k1 = [0; 4096] /\
    link_of k1 1 = Ok MAX_PAGE_IDX /\ kd_free_list_head k1 = 0 /\
    keydir_remove one_hash ok_env 8 k1 key_b 1 0 0 = Ok (k2, KEYDIR_PUT_OK) /\
    link_of k2 1 = Ok 0 /\ kd_free_list_head k2 = 1.
Proof.
  apply (remove_absent_key_links_a_page one_hash ok_env); reflexivity.
Defined.

